(** * dlta-scaffold: a shallow embedding of internal/tools/dlta-scaffold/main.go

    The generator reflects over a provider's resource schemas and writes
    scaffolding files.  Go strings are modelled as [string] (a sequence of
    bytes), Go maps that are only looked up as [gmap], Go maps that are
    ranged over to produce text as association lists enumerated in an order
    chosen by the runtime, and the file system as an explicit world that is
    threaded through the effectful functions. *)

From Stdlib Require Import ZArith Lia Bool Ascii String List Permutation Sorted.
From stdpp Require Import base option list gmap strings fin_maps.

Local Open Scope string_scope.
Local Open Scope list_scope.

(** String concatenation is written [+:+] throughout, list append [++]. *)

(** ** Characters that cannot be written inside a literal *)

Definition dq : string := String "034"%char EmptyString.
Definition tab : string := String "009"%char EmptyString.
Definition nl : string := String "010"%char EmptyString.

(** ** The parts of Go's [strings] package the generator uses *)

Module GoStrings.

(** [strings.Split(s, sep)] for a one-byte separator: always at least one
    segment, [n+1] segments for [n] occurrences of the separator. *)
Fixpoint Split (sep : ascii) (s : string) : list string :=
  match s with
  | EmptyString => [EmptyString]
  | String c s' =>
      if Ascii.eqb c sep then EmptyString :: Split sep s'
      else match Split sep s' with
           | seg :: rest => String c seg :: rest
           | [] => [String c EmptyString]
           end
  end.

(** [strings.Join(segs, sep)] *)
Fixpoint Join (sep : string) (segs : list string) : string :=
  match segs with
  | [] => EmptyString
  | [v] => v
  | v :: rest => v +:+ sep +:+ Join sep rest
  end.

(** [strings.HasPrefix] and [strings.Contains] *)
Fixpoint HasPrefix (s p : string) : bool :=
  match p, s with
  | EmptyString, _ => true
  | String a p', String b s' => Ascii.eqb a b && HasPrefix s' p'
  | String _ _, EmptyString => false
  end.

Fixpoint Contains (s sub : string) : bool :=
  HasPrefix s sub ||
  match s with
  | EmptyString => false
  | String _ s' => Contains s' sub
  end.

End GoStrings.

(** ** getResourceShortCode (main.go 1790-1806) *)

(** The slice expression [v[0:1]]: the first byte of [v]; out of range on the
    empty string, where Go panics. *)
Definition slice01 (v : string) : option string :=
  match v with
  | EmptyString => None
  | String c _ => Some (String c EmptyString)
  end.

(** The body of [for i, v := range resourceNames]; [parts] is
    [len(resourceName)], the length of the whole name in bytes. *)
Fixpoint shortCodeLoop (parts i : nat) (resourceNames : list string)
    (resourceShortCode : string) : option string :=
  match resourceNames with
  | [] => Some resourceShortCode
  | v :: rest =>
      if Nat.eqb parts 1 && Nat.eqb i 0
      then shortCodeLoop parts (S i) rest resourceShortCode
      else match slice01 v with
           | Some c => shortCodeLoop parts (S i) rest (resourceShortCode +:+ c)
           | None => None
           end
  end.

(** [None] stands for the run-time panic of an out-of-range slice. *)
Definition getResourceShortCode (resourceName : string) : option string :=
  shortCodeLoop (String.length resourceName) 0
    (GoStrings.Split "_"%char resourceName) EmptyString.

(** The first byte of each segment, as the description of the short code
    puts it. *)
Definition firstByte (v : string) : string :=
  match v with
  | EmptyString => EmptyString
  | String c _ => String c EmptyString
  end.

Definition initials (segments : list string) : string :=
  String.concat EmptyString (map firstByte segments).

Definition noEmptySegment (resourceName : string) : Prop :=
  Forall (fun v => v <> EmptyString) (GoStrings.Split "_"%char resourceName).


(** ** Association lists

    A Go [map[string]T] that the generator ranges over is kept as a list of
    its entries.  Writing [m[k] = v] replaces the entry of [k] or adds one;
    reading a missing key gives the zero value of [T]. *)

Module AList.

Fixpoint lookup {A : Type} (k : string) (m : list (string * A)) : option A :=
  match m with
  | [] => None
  | (k', v) :: m' => if String.eqb k k' then Some v else lookup k m'
  end.

Fixpoint insert {A : Type} (k : string) (v : A) (m : list (string * A))
    : list (string * A) :=
  match m with
  | [] => [(k, v)]
  | (k', v') :: m' =>
      if String.eqb k k' then (k, v) :: m' else (k', v') :: insert k v m'
  end.

Definition keys {A : Type} (m : list (string * A)) : list string := map fst m.

End AList.

(** ** The schema types of the plugin SDK that the generator reads *)

#[local] Set Warnings "-register-all".

Module schema.

Inductive ValueType :=
  TypeInvalid | TypeBool | TypeInt | TypeFloat | TypeString | TypeList
| TypeMap | TypeSet | typeObject.

(** [ValueType.String()] *)
Definition ValueType_String (t : ValueType) : string :=
  match t with
  | TypeInvalid => "TypeInvalid"
  | TypeBool => "TypeBool"
  | TypeInt => "TypeInt"
  | TypeFloat => "TypeFloat"
  | TypeString => "TypeString"
  | TypeList => "TypeList"
  | TypeMap => "TypeMap"
  | TypeSet => "TypeSet"
  | typeObject => "typeObject"
  end.

(** The dynamic type of [Schema.Elem]: absent, a primitive type, a nested
    [*Schema], or a nested [*Resource] given by its field map. *)
Inductive elemOf (S : Type) : Type :=
| ElemNil
| ElemType (t : ValueType)
| ElemSchema (s : S)
| ElemResource (fields : list (string * S)).

Arguments ElemNil {S}.
Arguments ElemType {S} t.
Arguments ElemSchema {S} s.
Arguments ElemResource {S} fields.

(** [ValidValues] is what [getSchemaPossibleValues] finds by calling the
    patched [StringInSlice] validator of the field: the admitted strings, or
    nothing when the field has no such validator. *)
Inductive Schema := mkSchema {
  Type_ : ValueType;
  Optional : bool;
  Required : bool;
  Computed : bool;
  ForceNew : bool;
  Description : string;
  MaxItems : Z;
  MinItems : Z;
  ConflictsWith : list string;
  ValidValues : list string;
  Elem : elemOf Schema
}.

Record Resource := mkResource { Schema_ : list (string * Schema) }.

End schema.

(** ** The generator's own types (main.go 31-130, 259-269) *)

Module summaryAttribute.
Record t := mk {
  Published : bool;
  IsBlock : bool;
  Required : bool;
  Optional : bool;
  Computed : bool;
  DependentResourcePath : string
}.
Definition zero : t := mk false false false false false EmptyString.
End summaryAttribute.

Inductive attribute := mkAttribute {
  Description : string;
  IsBlock : bool;
  MaxItems : Z;
  MinItems : Z;
  Required : bool;
  Optional : bool;
  Computed : bool;
  ForceNew : bool;
  PossibleValues : list string;
  PossibleOptions : list string;
  DataTypeString : string;
  Attributes : list (string * attribute);
  Default : string;
  ConflictsWith : list string;
  ResourcePath : string
}.

(** [attribute{}] *)
Definition attribute_zero : attribute :=
  mkAttribute EmptyString false 0 0 false false false false [] []
    EmptyString [] EmptyString [] EmptyString.

Definition setAttributes (a : attribute) (attrs : list (string * attribute))
    : attribute :=
  mkAttribute (Description a) (IsBlock a) (MaxItems a) (MinItems a)
    (Required a) (Optional a) (Computed a) (ForceNew a) (PossibleValues a)
    (PossibleOptions a) (DataTypeString a) attrs (Default a)
    (ConflictsWith a) (ResourcePath a).

Definition setPossibleValues (a : attribute) (vs : list string) : attribute :=
  mkAttribute (Description a) (IsBlock a) (MaxItems a) (MinItems a)
    (Required a) (Optional a) (Computed a) (ForceNew a) vs
    (PossibleOptions a) (DataTypeString a) (Attributes a) (Default a)
    (ConflictsWith a) (ResourcePath a).

Inductive Artefact :=
  PublishedPropertiesSummary | TerraformTemplate | ModuleBlock | VariableBlock
| LocalBlock | OutputBlock | PalletteBlock.

Record documentationGenerator := mkGenerator {
  resource : option schema.Resource;
  resourceName : string;
  isDataSource : bool;
  dltaPath : string;
  isResource : bool;
  isForced : bool;
  ShortCode : string;
  NamingConvention : string
}.

(** ** Reflecting the schema into attributes (main.go 426-479, 1853-1961) *)

(** [sort.Strings]: insertion into an ascending list, bytewise order. *)
Fixpoint insertSorted (k : string) (l : list string) : list string :=
  match l with
  | [] => [k]
  | k' :: l' => if String.leb k k' then k :: l else k' :: insertSorted k l'
  end.

Definition sortStrings (l : list string) : list string :=
  fold_right insertSorted [] l.

Definition sortFields {A : Type} (input : list (string * A)) : list string :=
  sortStrings (AList.keys input).

Definition isBlock (element : schema.Schema) : bool :=
  match schema.Elem element with
  | schema.ElemResource _ => true
  | _ => false
  end.

Definition getSchemaPossibleValues (item : schema.Schema) : list string :=
  schema.ValidValues item.

(** [cloneSchemaToAttributes] overwrites eleven fields of [a] and leaves
    [PossibleValues], [PossibleOptions], [Attributes] and [Default] alone. *)
Definition cloneSchemaToAttributes (a : attribute) (s : schema.Schema)
    (isBlock : bool) (parentPath fieldName : string) : attribute :=
  mkAttribute (schema.Description s) isBlock (schema.MaxItems s)
    (schema.MinItems s) (schema.Required s) (schema.Optional s)
    (schema.Computed s) (schema.ForceNew s) (PossibleValues a)
    (PossibleOptions a) (schema.ValueType_String (schema.Type_ s))
    (Attributes a) (Default a) (schema.ConflictsWith s)
    (parentPath +:+ "." +:+ fieldName).

(** The loop of [getAllInputAttributes] over the sorted field names, given
    for every field its schema and the attribute the loop body builds for
    it. *)
Definition collectInputAttributes
    (fields : list (string * (schema.Schema * attribute)))
    : list (string * attribute) :=
  fold_left
    (fun retAttributes fieldName =>
       match AList.lookup fieldName fields with
       | Some (s, a) =>
           if schema.Required s || schema.Optional s
           then AList.insert fieldName a retAttributes
           else retAttributes
       | None => retAttributes
       end)
    (sortFields fields) [].

(** The body of the loop for one field: the attribute [a] assigned to
    [retAttributes[fieldName]]. *)
Fixpoint fieldAttribute (s : schema.Schema) (parentPath fieldName : string)
    {struct s} : attribute :=
  match schema.Elem s with
  | schema.ElemResource fields =>
      let a := cloneSchemaToAttributes attribute_zero s true parentPath fieldName in
      let retap :=
        collectInputAttributes
          ((fix each (l : list (string * schema.Schema)) :=
              match l with
              | [] => []
              | (k, s') :: l' =>
                  (k, (s', fieldAttribute s' (parentPath +:+ "." +:+ fieldName) k))
                    :: each l'
              end) fields) in
      setAttributes a retap
  | el =>
      let a := cloneSchemaToAttributes attribute_zero s false parentPath fieldName in
      let a := setPossibleValues a (PossibleValues a ++ getSchemaPossibleValues s) in
      match el with
      | schema.ElemSchema b =>
          setPossibleValues a (PossibleValues a ++ getSchemaPossibleValues b)
      | _ => a
      end
  end.

Definition getAllInputAttributes (input : list (string * schema.Schema))
    (parent : attribute) (isChild : bool) (parentPath : string)
    : list (string * attribute) :=
  collectInputAttributes
    (map (fun '(k, s) => (k, (s, fieldAttribute s parentPath k))) input).

(** [getAllOutputAttributes] ignores its input (main.go 481-502). *)
Definition getAllOutputAttributes (input : list (string * schema.Schema))
    (parent : attribute) (isChild : bool) (parentPath : string)
    : list (string * attribute) :=
  let id := mkAttribute "The resource id" false 0 0 false false false false
              [] [] "TypeString" [] EmptyString [] EmptyString in
  let name := mkAttribute "The resource name" false 0 0 false false false false
              [] [] "TypeString" [] EmptyString [] EmptyString in
  AList.insert "name" name (AList.insert "id" id []).

(** ** The published-property summary (main.go 504-535) *)

(** What the copy [summaryAttribute{Published: v.Published, IsBlock: v.IsBlock}]
    keeps of an entry of a nested block. *)
Definition liftSummary (v : summaryAttribute.t) : summaryAttribute.t :=
  summaryAttribute.mk (summaryAttribute.Published v) (summaryAttribute.IsBlock v)
    false false false EmptyString.

(** One iteration of [for k, a := range a] in [printAttributes].  The entries
    of the nested result are copied one by one into [retAttributes]; its keys
    are distinct, so the copy is a union in which the copied entries win. *)
Fixpoint summariseAttribute (k : string) (a : attribute) (rn : string)
    (parentRequired : bool) (retAttributes : gmap string summaryAttribute.t)
    {struct a} : gmap string summaryAttribute.t :=
  let published := parentRequired && Required a in
  let newrn := rn +:+ "." +:+ k in
  let retAttributes :=
    <[ResourcePath a :=
        summaryAttribute.mk published (IsBlock a) (Required a) (Optional a)
          (Computed a) EmptyString]> retAttributes in
  if IsBlock a then
    let nested :=
      (fix each (l : list (string * attribute))
           (ret : gmap string summaryAttribute.t) :=
         match l with
         | [] => ret
         | (k', a') :: l' => each l' (summariseAttribute k' a' newrn published ret)
         end) (Attributes a) ∅ in
    (liftSummary <$> nested) ∪ retAttributes
  else retAttributes.

(** [a] lists the entries in the order in which the [range] visits them. *)
Definition summariseAttributes (a : list (string * attribute)) (rn : string)
    (parentRequired : bool) : gmap string summaryAttribute.t :=
  fold_left (fun ret '(k, a) => summariseAttribute k a rn parentRequired ret) a ∅.

(** ** Selecting the published attributes (main.go 763-791, 819-885) *)

(** [sa[path].Published], false for a path the summary does not hold. *)
Definition isPublished (sa : gmap string summaryAttribute.t) (path : string) : bool :=
  summaryAttribute.Published (default summaryAttribute.zero (sa !! path)).

(** The value [t] stored under [retAttributes[k]] for an attribute [a] that
    is published. *)
Fixpoint publishedAttribute (sa : gmap string summaryAttribute.t)
    (a : attribute) {struct a} : attribute :=
  if IsBlock a then
    let nested :=
      (fix each (l ret : list (string * attribute)) :=
         match l with
         | [] => ret
         | (k, a') :: l' =>
             each l'
               (if isPublished sa (ResourcePath a')
                then AList.insert k (publishedAttribute sa a') ret
                else ret)
         end) (Attributes a) [] in
    let tempAttributes :=
      fold_left
        (fun temp '(k2, a2) =>
           if isPublished sa (ResourcePath a2) then AList.insert k2 a2 temp
           else temp)
        nested [] in
    setAttributes a tempAttributes
  else a.

Definition getAllPublishedAttributes (allAttr : list (string * attribute))
    (sa : gmap string summaryAttribute.t) : list (string * attribute) :=
  fold_left
    (fun retAttributes '(k, a) =>
       if isPublished sa (ResourcePath a)
       then AList.insert k (publishedAttribute sa a) retAttributes
       else retAttributes)
    allAttr [].

(** The injected attributes (main.go 132-201): all of type string, told apart
    by their description. *)
Definition injected (description : string) : attribute :=
  mkAttribute description false 0 0 false false false false [] []
    "TypeString" [] EmptyString [] EmptyString.

Definition terraform_azurerm_azurerm_source := injected "String representing the source".
Definition terraform_azurerm_azurerm_version := injected "String representing the source".
Definition terraform_azurerm_azapi_source := injected "String representing the source".
Definition terraform_azurerm_azapi_version := injected "String representing the version".
Definition dlta_terraform_template := injected "Terraform template to provision this asset".
Definition dlta_naming_convention :=
  injected "String that defines the naming convention for this asset type".
Definition dlta_environment_char := injected "Single character variable".
Definition dlta_application_short_code := injected "Short code representing the application".
Definition dlta_business_short_code := injected "Short code representing the business".
Definition dlta_instance_id := injected "3 digit string representing the instance".
Definition dlta_location_short_code := injected "3 digit string representing the region".
Definition dlta_vendor_asset_short_code := injected "short string representing the asset type".
Definition dlta_terraform_module_name :=
  injected "Terraform Module Name e.g. azurerm_service_plan_1234".
Definition dlta_terraform_data_source_name :=
  injected "Terraform Data Source Name e.g. ds-kvap-sec-demo-d-eun-001".
Definition dlta_terraform_is_data_source :=
  injected "Terraform Data Source Tyoe e.g. resource|data".

Definition insertAll {A : Type} (entries m : list (string * A)) : list (string * A) :=
  fold_left (fun m '(k, a) => AList.insert k a m) entries m.

Definition isSpecialName (resourceName : string) : bool :=
  String.eqb resourceName "terraform_azurerm"
  || String.eqb resourceName "devops_pipeline".

Definition getInjectAttributes (gen : documentationGenerator)
    : list (string * attribute) :=
  if String.eqb (resourceName gen) "terraform_azurerm" then
    insertAll
      [("terraform_azurerm_azurerm_source", terraform_azurerm_azurerm_source);
       ("terraform_azurerm_azurerm_version", terraform_azurerm_azurerm_version);
       ("terraform_azurerm_azapi_source", terraform_azurerm_azapi_source);
       ("terraform_azurerm_azapi_version", terraform_azurerm_azapi_version);
       ("dlta_terraform_template", dlta_terraform_template);
       ("dlta_naming_convention", dlta_naming_convention)] []
  else if String.eqb (resourceName gen) "devops_pipeline" then []
  else if isDataSource gen then
    insertAll
      [("dlta_environment_char", dlta_environment_char);
       ("dlta_application_short_code", dlta_application_short_code);
       ("dlta_business_short_code", dlta_business_short_code);
       ("dlta_instance_id", dlta_instance_id);
       ("dlta_location_short_code", dlta_location_short_code);
       ("dlta_vendor_asset_short_code", dlta_vendor_asset_short_code);
       ("dlta_terraform_template", dlta_terraform_template);
       ("dlta_naming_convention", dlta_naming_convention);
       ("dlta_terraform_module_name", dlta_terraform_module_name);
       ("dlta_terraform_data_source_name", dlta_terraform_data_source_name);
       ("dlta_terraform_is_data_source", dlta_terraform_is_data_source)] []
  else
    insertAll
      [("dlta_environment_char", dlta_environment_char);
       ("dlta_application_short_code", dlta_application_short_code);
       ("dlta_business_short_code", dlta_business_short_code);
       ("dlta_instance_id", dlta_instance_id);
       ("dlta_location_short_code", dlta_location_short_code);
       ("dlta_vendor_asset_short_code", dlta_vendor_asset_short_code);
       ("dlta_terraform_template", dlta_terraform_template);
       ("dlta_naming_convention", dlta_naming_convention);
       ("dlta_terraform_module_name", dlta_terraform_module_name);
       ("dlta_terraform_is_data_source", dlta_terraform_is_data_source)] [].

(** [injectAttributes] once [getPublishedAttributes] has read the property
    file: the injected entries, overwritten by the published ones. *)
Definition mergeAttributes (injectAttributes publishedAttributes : list (string * attribute))
    : list (string * attribute) :=
  insertAll publishedAttributes (insertAll injectAttributes []).

(** ** Small helpers of the generator (main.go 1776-1826) *)

Definition catStrings (l : list string) : string :=
  fold_right String.append EmptyString l.

(** [for ... range m { text += f k v }], the entries taken in list order. *)
Definition emitEach {A : Type} (f : string -> A -> string)
    (m : list (string * A)) (text : string) : string :=
  fold_left (fun text '(k, v) => text +:+ f k v) m text.

(** The segments of the resource path joined by underscores. *)
Definition genVariableNameFromResourcePath (rp : string) : string :=
  GoStrings.Join "_" (GoStrings.Split "."%char rp).

(** The same loop with the first segment skipped ([if i == 0 { continue }]),
    as the module, variable and local blocks have it inline. *)
Definition nameWithoutFirstSegment (rp : string) : string :=
  GoStrings.Join "_" (tail (GoStrings.Split "."%char rp)).

Definition translateDataType (terraType : string) : string :=
  if String.eqb terraType "TypeString" then "string"
  else if String.eqb terraType "TypeBool" then "bool"
  else if String.eqb terraType "TypeInt" then "number"
  else if String.eqb terraType "TypeFloat" then "number"
  else if String.eqb terraType "TypeList" then "list"
  else if String.eqb terraType "TypeMap" then "map"
  else "property undefiend".

(** ** terraformTemplateBlock (main.go 887-1081) *)

(** The generic form of a template line, [n = "${n}"], unquoted for a list. *)
Definition templateGenericLine (n dataTypeString : string) : string :=
  if String.eqb dataTypeString (schema.ValueType_String schema.TypeList)
  then catStrings [tab; n; tab; tab; "= ${"; n; "}"; nl]
  else catStrings [tab; n; tab; tab; "= "; dq; "${"; n; "}"; dq; nl].

Definition templateDataLine (lhs : string) : string :=
  catStrings [tab; lhs; "= "; dq; "${DataResourceGroup}"; dq; nl].

(** A field of a block inside a block (main.go 1011-1030). *)
Definition templateThird (n2 : string) (at2 : attribute) : string :=
  if String.eqb n2 "name"
     && negb (String.eqb (ResourcePath at2)
                "azurerm_subnet.delegation.service_delegation.name")
  then EmptyString
  else if String.eqb n2 "name" then
    let vn := genVariableNameFromResourcePath (ResourcePath at2) in
    catStrings [tab; vn; tab; tab; "= ${"; vn; "}"; nl]
  else templateGenericLine n2 (DataTypeString at2).

(** A field of a top-level block (main.go 987-1033). *)
Definition templateSecond (gen : documentationGenerator) (n1 : string)
    (at1 : attribute) : string :=
  if negb (IsBlock at1) then
    if String.eqb n1 "name" then EmptyString
    else if String.eqb n1 "private_connection_resource_id" then
      if isDataSource gen
      then templateDataLine ("private_connection_resource_id" +:+ tab +:+ tab)
      else catStrings [tab; "private_connection_resource_id"; tab; tab;
                       "= module.${private_connection_resource_id}.id"; nl]
    else if String.eqb n1 ("is_manual_connection" +:+ tab +:+ tab) then
      if isDataSource gen
      then templateDataLine ("is_manual_connection" +:+ tab +:+ tab +:+ tab +:+ tab)
      else catStrings [tab; "is_manual_connection"; tab; tab; tab; tab;
                       "= ${is_manual_connection"; tab; tab; "}"; nl]
    else templateGenericLine n1 (DataTypeString at1)
  else emitEach templateThird (Attributes at1) EmptyString.

(** A top-level attribute that is neither computed nor a block: the
    hardcoded field names, then the generic form (main.go 928-984). *)
Definition templateTopField (gen : documentationGenerator) (n : string)
    (at_ : attribute) : string :=
  if String.eqb n "resource_group_name" then
    if isDataSource gen
    then templateDataLine ("resource_group_name" +:+ tab +:+ tab)
    else catStrings [tab; "resource_group_name"; tab; tab;
                     "= module.${ResourceGroup}.name"; nl]
  else if String.eqb n "virtual_network_name" then
    if isDataSource gen
    then templateDataLine ("virtual_network_name" +:+ tab +:+ tab)
    else catStrings [tab; "virtual_network_name"; tab; tab;
                     "= module.${virtual_network_name}.name"; nl]
  else if String.eqb n "private_connection_resource_id" then
    if isDataSource gen
    then templateDataLine ("private_connection_resource_id" +:+ tab +:+ tab)
    else catStrings [tab; "private_connection_resource_id"; tab; tab;
                     "= module.${private_connection_resource_id}.id"; nl]
  else if String.eqb n "subnet_id" then
    if isDataSource gen
    then templateDataLine ("subnet_id" +:+ tab +:+ tab)
    else catStrings [tab; "subnet_id"; tab; tab; "= module.${subnet_id}.id"; nl]
  else if String.eqb n "service_plan_id" then
    if isDataSource gen
    then templateDataLine ("service_plan_id" +:+ tab +:+ tab)
    else catStrings [tab; "service_plan_id"; tab; tab;
                     "= module.${service_plan_id}.id"; nl]
  else if String.eqb n "storage_account_name" then
    if isDataSource gen
    then templateDataLine ("storage_account_name" +:+ tab +:+ tab)
    else catStrings [tab; "storage_account_name"; tab; tab;
                     "= module.${storage_account_name}.name"; nl]
  else if String.eqb n "storage_uses_managed_identity" then
    if isDataSource gen
    then templateDataLine ("storage_account_name" +:+ tab +:+ tab)
    else catStrings [tab; "storage_uses_managed_identity"; tab; tab; tab; tab;
                     "= ${storage_uses_managed_identity}"; nl]
  else if String.eqb n "virtual_network_subnet_id" then
    if isDataSource gen
    then templateDataLine ("storage_account_name" +:+ tab +:+ tab)
    else catStrings [tab; "virtual_network_subnet_id"; tab; tab; tab; tab;
                     "= module.${virtual_network_subnet_id}.id"; nl]
  else templateGenericLine n (DataTypeString at_).

(** One iteration of [for n, at := range attributes] (main.go 918-1038). *)
Definition templateTop (gen : documentationGenerator) (n : string)
    (at_ : attribute) : string :=
  if String.eqb n "location" || GoStrings.Contains n "dlta" || String.eqb n "name"
  then EmptyString
  else if negb (Computed at_) then
    if negb (IsBlock at_) then templateTopField gen n at_
    else emitEach (templateSecond gen) (Attributes at_) EmptyString
  else EmptyString.

Definition templateDltaLines : string :=
  catStrings
    [tab; "dlta_location_short_code    = ${dlta_location_short_code}"; nl;
     tab; "dlta_environment_char       = ${dlta_environment_char}"; nl;
     tab; "dlta_business_short_code    = ${dlta_business_short_code}"; nl;
     tab; "dlta_application_short_code = ${dlta_application_short_code}"; nl;
     tab; "dlta_instance_id            = ${dlta_instance_id}"; nl;
     tab; "dlta_vendor_asset_short_code"; tab; "= ${dlta_vendor_asset_short_code}"; nl].

Definition templateHeader (gen : documentationGenerator) : string :=
  if isDataSource gen
  then catStrings ["data "; dq; resourceName gen; dq; " "; dq;
                   "${dlta_terraform_module_name}"; dq; " {"; nl]
  else catStrings ["module "; dq; "${dlta_terraform_module_name}"; dq; " {"; nl]
       +:+ catStrings [tab; "source                      = "; dq;
                       "__modules_path__//r//"; resourceName gen;
                       "//module?ref=main"; dq; nl].

Definition templateLocationLine (attributes : list (string * attribute)) : string :=
  if String.eqb
       (DataTypeString (default attribute_zero (AList.lookup "location" attributes)))
       EmptyString
  then EmptyString
  else catStrings [tab; "location                    = "; dq; "${location}"; dq; nl].

Definition templateProviderText : string :=
  catStrings
    ["terraform {"; nl;
     tab; "required_providers {"; nl;
     tab; tab; "azurerm = {"; nl;
     tab; tab; tab; "source =  "; dq; "${terraform_azurerm_azurerm_source}"; dq; nl;
     tab; tab; tab; "version = "; dq; "${terraform_azurerm_azurerm_version}"; dq; nl;
     tab; tab; "}"; nl;
     tab; tab; "azapi = {"; nl;
     tab; tab; tab; "source =  "; dq; "${terraform_azurerm_azapi_source}"; dq; nl;
     tab; tab; tab; "version = "; dq; "${terraform_azurerm_azapi_version}"; dq; nl;
     tab; tab; "}"; nl;
     tab; "}"; nl;
     tab; "backend "; dq; "azurerm"; dq; " {"; nl;
     tab; "}"; nl;
     "}"; nl;
     "provider "; dq; "azurerm"; dq; " {"; nl;
     tab; "features {"; nl;
     tab; "}"; nl;
     "}"; nl].

Definition templatePipelineText : string :=
  catStrings
    ["name: $(connection)-$(Date:yyyyMMdd)$(Rev:.r)"; nl;
     "variables:"; nl;
     "  connection: 'sub-ret-d-001'"; nl;
     "trigger: none"; nl;
     "resources:"; nl;
     "  repositories:"; nl;
     tab; "- repository: Repo.Pipelines"; nl;
     tab; "  type: git"; nl;
     tab; "  name: Repo.Pipelines"; nl;
     tab; "  ref: refs/heads/main"; nl;
     "stages:"; nl;
     "- template: TerraformStages.yml@Repo.Pipelines"; nl;
     "  parameters:"; nl;
     tab; "ServiceShort      : storage_policy_test"; nl;
     tab; "serviceConnection : 'ServiceConnection.sub-ret-d-001'"; nl;
     tab; "EnvironmentShort  : dev"; nl].

(** The text [terraformTemplateBlock] builds from [attributes], the value of
    [gen.injectAttributes()], listed in the order the [range] visits them. *)
Definition templateText (gen : documentationGenerator)
    (attributes : list (string * attribute)) : string :=
  if negb (String.eqb (resourceName gen) "terraform_azurerm")
     && negb (String.eqb (resourceName gen) "devops_pipeline")
  then
    let templateBlock :=
      templateHeader gen +:+ templateLocationLine attributes +:+ templateDltaLines in
    emitEach (templateTop gen) attributes templateBlock +:+ "}" +:+ nl
  else if String.eqb (resourceName gen) "terraform_azurerm" then templateProviderText
  else if String.eqb (resourceName gen) "devops_pipeline" then templatePipelineText
  else EmptyString.

(** ** terraformModuleBlock (main.go 1083-1161) *)

Definition moduleThird (k2 : string) (a2 : attribute) : string :=
  if String.eqb k2 "name" then
    let vn := genVariableNameFromResourcePath (ResourcePath a2) in
    catStrings [tab; tab; tab; "name = var."; vn; nl]
  else catStrings [tab; tab; tab; k2; " = var."; k2; nl].

Definition moduleSecond (k : string) (a : attribute) : string :=
  if negb (IsBlock a) then
    if String.eqb k "name"
    then catStrings [tab; tab; "name = local."; nameWithoutFirstSegment (ResourcePath a); nl]
    else catStrings [tab; tab; k; " = var."; k; nl]
  else
    emitEach moduleThird (Attributes a) (catStrings [tab; tab; k; " {"; nl])
    +:+ tab +:+ tab +:+ "}" +:+ nl.

(** One iteration of the loop over [attributes]: what it adds to
    [moduleBlock] and to [appendBlock]. *)
Definition moduleTop (n : string) (at_ : attribute) : string * string :=
  if Computed at_ then (EmptyString, EmptyString)
  else if String.eqb n "name" then (EmptyString, EmptyString)
  else if GoStrings.Contains n "dlta_" then (EmptyString, EmptyString)
  else if negb (IsBlock at_) then
    if String.eqb (DataTypeString at_) (schema.ValueType_String schema.TypeList)
    then (EmptyString, catStrings [tab; n; " = var."; n; nl])
    else (catStrings [tab; n; " = var."; n; nl], EmptyString)
  else
    (emitEach moduleSecond (Attributes at_) (catStrings [tab; n; " {"; nl])
     +:+ tab +:+ "}" +:+ nl, EmptyString).

Definition moduleText (gen : documentationGenerator)
    (attributes : list (string * attribute)) : string :=
  let moduleBlock :=
    catStrings ["resource "; dq; resourceName gen; dq; " "; dq; "this"; dq; " {"; nl]
    +:+ tab +:+ "name = local.name" +:+ nl in
  let '(moduleBlock, appendBlock) :=
    fold_left
      (fun '(moduleBlock, appendBlock) '(n, at_) =>
         let '(m, a) := moduleTop n at_ in (moduleBlock +:+ m, appendBlock +:+ a))
      attributes (moduleBlock, EmptyString) in
  moduleBlock +:+ appendBlock +:+ "}" +:+ nl.

(** ** terraformVariableBlock (main.go 1164-1251) *)

(** One [variable] declaration; the [default] line is guarded by the
    [Default] of [guard], which in the nested loops is the enclosing top-level
    attribute. *)
Definition variableDecl (name : string) (a guard : attribute) : string :=
  catStrings ["variable "; dq; name; dq; " {"; nl]
  +:+ catStrings [tab; "description = "; dq; Description a; dq; nl]
  +:+ catStrings [tab; "type = "; translateDataType (DataTypeString a); nl]
  +:+ (if String.eqb (Default guard) EmptyString then EmptyString
       else catStrings [tab; "default = "; dq; Default a; dq; nl])
  +:+ "}" +:+ nl.

Definition variableThird (at_ : attribute) (n2 : string) (at2 : attribute) : string :=
  if String.eqb n2 "name"
  then variableDecl (nameWithoutFirstSegment (ResourcePath at2)) at2 at_
  else variableDecl n2 at2 at_.

Definition variableSecond (at_ : attribute) (n1 : string) (at1 : attribute) : string :=
  if negb (IsBlock at1) then
    if String.eqb n1 "name" then EmptyString else variableDecl n1 at1 at_
  else emitEach (variableThird at_) (Attributes at1) EmptyString.

Definition variableTop (n : string) (at_ : attribute) : string :=
  if String.eqb n "name" then EmptyString
  else if negb (String.eqb n "dlta_terraform_template")
          && negb (String.eqb n "dlta_naming_convention")
          && negb (String.eqb n "dlta_terraform_module_name")
          && negb (String.eqb n "dlta_terraform_is_data_source")
  then
    if negb (Computed at_) then
      if negb (IsBlock at_) then variableDecl n at_ at_
      else emitEach (variableSecond at_) (Attributes at_) EmptyString
    else EmptyString
  else EmptyString.

Definition variableText (attributes : list (string * attribute)) : string :=
  emitEach variableTop attributes EmptyString.

(** ** terraformLocalBlock (main.go 1253-1315) *)

Definition localVars : string :=
  "var.dlta_business_short_code,var.dlta_application_short_code,"
  +:+ "var.dlta_environment_char,var.dlta_location_short_code,var.dlta_instance_id)".

(** The loops that return [None] are those in which [getResourceShortCode]
    panics. *)
Fixpoint emitEachOpt {A : Type} (f : string -> A -> option string)
    (m : list (string * A)) (text : string) : option string :=
  match m with
  | [] => Some text
  | (k, v) :: m' =>
      match f k v with
      | Some t => emitEachOpt f m' (text +:+ t)
      | None => None
      end
  end.

(** A field [k] of a top-level block: only a field called [name] adds a
    line, named after the path without its first segment and using the short
    code of the path's second segment. *)
Definition localSecond (k : string) (a : attribute) : option string :=
  if String.eqb k "name" then
    let segments := GoStrings.Split "."%char (ResourcePath a) in
    let variableName := nameWithoutFirstSegment (ResourcePath a) in
    let resourceName := nth 1 segments EmptyString in
    match getResourceShortCode resourceName with
    | Some resShort1 =>
        Some (catStrings [tab; variableName; " = format("; dq;
                          "%s-%s-%s-%s-%s-%s"; dq; ","; dq; resShort1; dq; ",";
                          localVars; nl])
    | None => None
    end
  else Some EmptyString.

Definition localTop (gen : documentationGenerator) (n : string) (at_ : attribute)
    : option string :=
  let nameLine :=
    if String.eqb n "name" then
      if String.eqb (resourceName gen) "azurerm_storage_account"
      then catStrings [tab; "name = format("; dq; "%s%s%s%s%s%s"; dq;
                       ",var.dlta_vendor_asset_short_code,"; localVars; nl]
      else catStrings [tab; "name = format("; dq; "%s-%s-%s-%s-%s-%s"; dq;
                       ",var.dlta_vendor_asset_short_code,"; localVars; nl]
    else EmptyString in
  if IsBlock at_ then emitEachOpt localSecond (Attributes at_) nameLine
  else Some nameLine.

Definition localText (gen : documentationGenerator)
    (attributes : list (string * attribute)) : option string :=
  match emitEachOpt (localTop gen) attributes ("locals {" +:+ nl) with
  | Some localBlock => Some (localBlock +:+ "}" +:+ nl)
  | None => None
  end.

(** ** terraformOutputBlock (main.go 1691-1708) *)

Definition outputOne (gen : documentationGenerator) (k : string) (_ : attribute) : string :=
  catStrings ["output "; dq; k; dq; " {"; nl]
  +:+ catStrings [tab; "value = "; resourceName gen; ".this."; k; nl]
  +:+ "}" +:+ nl.

(** [attributes] is the result of [getAllOutputAttributes] in the order the
    [range] visits it. *)
Definition outputText (gen : documentationGenerator)
    (attributes : list (string * attribute)) : string :=
  emitEach (outputOne gen) attributes EmptyString.

(** ** getResourceNamingConvention (main.go 1710-1774) *)

Record namingStruct := mkNaming {
  Delimiter : string;
  StaticName : string;
  IsDataSource : bool;
  Prefix : string;
  Fields : list string
}.

Definition namingStruct_zero : namingStruct :=
  mkNaming EmptyString EmptyString false EmptyString [].

Definition namingFields : list string :=
  ["dlta_vendor_asset_short_code"; "dlta_business_short_code";
   "dlta_application_short_code"; "dlta_environment_char";
   "dlta_location_short_code"; "dlta_instance_id"].

Definition resourceSpecificNaming : list (string * namingStruct) :=
  ("terraform_azurerm", mkNaming "-" "terraform_azurerm" false EmptyString [])
  :: ("azurerm_storage_account", mkNaming EmptyString EmptyString false EmptyString namingFields)
  :: map (fun n => (n, mkNaming "-" EmptyString false EmptyString namingFields))
       ["azurerm_subscription"; "azurerm_resource_group"; "azurerm_windows_web_app";
        "azurerm_windows_function_app"; "azurerm_service_plan";
        "azurerm_cdn_frontdoor_profile"; "azurerm_cdn_frontdoor_endpoint";
        "azurerm_cdn_frontdoor_origin_group"; "azurerm_cdn_frontdoor_origin";
        "azurerm_key_vault_access_policy"; "azurerm_key_vault";
        "azurerm_private_endpoint"; "azurerm_virtual_network"; "azurerm_subnet"].

Definition dataSourceSpecificNaming : list (string * namingStruct) :=
  map (fun n => (n, mkNaming "-" EmptyString true "ds" namingFields))
    ["azurerm_subnet"; "azurerm_key_vault_certificate"].

(** The loop over [fields]: [${field}] followed by the delimiter except after
    the last one. *)
Fixpoint namingLoop (delim : string) (fields : list string) : string :=
  match fields with
  | [] => EmptyString
  | [f] => "${" +:+ f +:+ "}"
  | f :: rest => "${" +:+ f +:+ "}" +:+ delim +:+ namingLoop delim rest
  end.

Definition getResourceNamingConvention (resourceName : string) (isDataSource : bool)
    : string :=
  let entry :=
    default namingStruct_zero
      (AList.lookup resourceName
         (if isDataSource then dataSourceSpecificNaming else resourceSpecificNaming)) in
  if negb (String.eqb (StaticName entry) EmptyString) then StaticName entry
  else
    (if negb (String.eqb (Prefix entry) EmptyString)
     then Prefix entry +:+ Delimiter entry else EmptyString)
    +:+ namingLoop (Delimiter entry) (Fields entry).

(** ** The palette types (main.go 53-83) *)

(** The values stored in an [interface{}] by the generator. *)
Inductive goValue :=
| VNil
| VString (s : string)
| VBool (b : bool)
| VInt (z : Z)
| VFloatZero
| VStrings (l : list string)
| VNilStrings
| VNilMap.

Module KeyValue.
Record t := mk { Key : string; Value : string }.
End KeyValue.

Module PaletteProp.
Record t := mk {
  ID : string;
  Name : string;
  Description : option string;
  Type_ : string;
  CurrentValue : goValue;
  FlattenName : option string;
  Filter : option string;
  Disabled : bool;
  ReadOnly : bool;
  Validators : option (list (string * goValue));
  Options : list KeyValue.t
}.
End PaletteProp.

Module Creator.
Record t := mk { CreateFunction : string; Props : list PaletteProp.t }.
End Creator.

Definition options (values : list string) : list KeyValue.t :=
  map (fun v => KeyValue.mk v v) values.

Definition dlta_location_options := options ["northeurope"; "westeurope"].
Definition dlta_environment_char_options := options ["d"; "u"; "s"; "p"].
Definition dlta_application_short_code_options :=
  options ["demo"; "bigd"; "ecom"; "erp"; "aldft"].
Definition dlta_business_short_code_options :=
  options ["sec"; "idt"; "mgt"; "finc"; "gdmz"].
Definition dlta_instance_id_options := options ["001"; "002"; "003"].
Definition dlta_location_short_code_options := options ["eun"; "euw"].
Definition terraform_azurerm_azurerm_source_options := options ["hashicorp/azurerm"].
Definition terraform_azurerm_azurerm_version_options := options ["3.59.0"].
Definition terraform_azurerm_azapi_source_options := options ["azure/azapi"].
Definition terraform_azurerm_azapi_version_options := options ["1.6.0"].

(** ** The run-time environment

    What the Go run time and the libraries decide: the order in which a
    [range] visits a map, the JSON encoder and decoder, [strings.Title],
    [strings.TrimSpace], the [%q] verb, [filepath.Abs] and the text of an
    error. *)

Inductive rangeSite :=
  InSummary | InTemplate | InModule | InVariable | InLocal | InPalette | InOutput.

(** Two listings of the same map tree: the same entries at every level, in
    any order. *)
Inductive sameAttribute : attribute -> attribute -> Prop :=
| sameAttribute_intro (a : attribute) (visited attrs : list (string * attribute)) :
    Permutation (Attributes a) visited ->
    Forall2 (fun x y => fst x = fst y /\ sameAttribute (snd x) (snd y)) visited attrs ->
    sameAttribute a (setAttributes a attrs).

Definition sameEntries (m m' : list (string * attribute)) : Prop :=
  exists visited,
    Permutation m visited /\
    Forall2 (fun x y => fst x = fst y /\ sameAttribute (snd x) (snd y)) visited m'.

Inductive errno := EEXIST | ENOENT | EACCES | EIO | EINVAL.

(** The calls into the operating system the generator makes. *)
Inductive syscall :=
| Stat (path : string)
| Remove (path : string)
| MkdirAll (path : string)
| Create (path : string)
| WriteString (path : string) (s : string)
| Sync (path : string)
| Close (path : string)
| ReadFile (path : string).

Class GoRuntime := {
  enumerate : rangeSite -> list (string * attribute) -> list (string * attribute);
  enumerate_same : forall site m, sameEntries m (enumerate site m);
  strings_Title : string -> string;
  strings_TrimSpace : string -> string;
  json_MarshalIndent_summary : gmap string summaryAttribute.t -> string;
  json_MarshalIndent_Creator : Creator.t -> string;
  json_Unmarshal_summary : string -> gmap string summaryAttribute.t;
  fmt_q : string -> string;
  filepath_Abs : string -> string + string;
  error_Error : syscall -> errno -> string
}.

(** ** The world the generator runs in

    [files] maps a path to the contents of the file there.  [faults] is what
    the environment imposes on the coming system calls, one entry a call:
    [Some e] makes the call fail with [e] and leaves the files alone, [None]
    (or an exhausted list) lets it proceed.  [syscalls] records the calls
    made with their outcome, [stdout] what [fmt.Printf] wrote, and [uuids]
    holds the values [uuid.New()] will return. *)

Record World := mkWorld {
  files : gmap string string;
  stdout : list string;
  faults : list (option errno);
  syscalls : list (syscall * option errno);
  uuids : nat -> string
}.

(** A computation either returns or panics; the world it leaves is kept in
    both cases. *)
Inductive result (A : Type) : Type :=
| Done (a : A)
| Panicked.

Arguments Done {A} a.
Arguments Panicked {A}.

Definition M (A : Type) : Type := World -> result A * World.

Definition ret {A : Type} (a : A) : M A := fun w => (Done a, w).

Definition bind {A B : Type} (m : M A) (k : A -> M B) : M B :=
  fun w =>
    match m w with
    | (Done a, w') => k a w'
    | (Panicked, w') => (Panicked, w')
    end.

Definition panic {A : Type} : M A := fun w => (Panicked, w).

Notation "'let*' x ':=' m 'in' k" := (bind m (fun x => k))
  (at level 10, x pattern, m at level 100, k at level 200).

Notation "m ';;' k" := (bind m (fun _ => k))
  (at level 100, k at level 200, right associativity).

Definition liftOption {A : Type} (o : option A) : M A :=
  match o with
  | Some a => ret a
  | None => panic
  end.

(** A system call [c] whose effect on the files, absent a fault, is [effect]:
    it returns the error, [None] for success. *)
Definition perform (c : syscall)
    (effect : gmap string string -> gmap string string * option errno)
    : M (option errno) :=
  fun w =>
    let '(fault, rest) :=
      match faults w with
      | [] => (None, [])
      | f :: rest => (f, rest)
      end in
    let '(files', err) :=
      match fault with
      | Some e => (files w, Some e)
      | None => effect (files w)
      end in
    (Done err,
     mkWorld files' (stdout w) rest (syscalls w ++ [(c, err)]) (uuids w)).

Definition os_Stat (path : string) : M (option errno) :=
  perform (Stat path)
    (fun fs => (fs, if fs !! path is Some _ then None else Some ENOENT)).

Definition os_Remove (path : string) : M (option errno) :=
  perform (Remove path)
    (fun fs =>
       if fs !! path is Some _ then (delete path fs, None) else (fs, Some ENOENT)).

Definition os_MkdirAll (path : string) : M (option errno) :=
  perform (MkdirAll path) (fun fs => (fs, None)).

(** [os.Create] truncates or creates the file; the handle is [nil] when it
    fails. *)
Definition os_Create (path : string) : M (option string * option errno) :=
  let* err := perform (Create path) (fun fs => (<[path := EmptyString]> fs, None)) in
  ret (match err with
       | None => (Some path, None)
       | Some e => (None, Some e)
       end).

(** The methods of [*os.File] return [ErrInvalid] on a [nil] receiver,
    without a system call. *)
Definition file_WriteString (file : option string) (s : string) : M (option errno) :=
  match file with
  | None => ret (Some EINVAL)
  | Some path =>
      perform (WriteString path s)
        (fun fs => (<[path := default EmptyString (fs !! path) +:+ s]> fs, None))
  end.

Definition file_Sync (file : option string) : M (option errno) :=
  match file with
  | None => ret (Some EINVAL)
  | Some path => perform (Sync path) (fun fs => (fs, None))
  end.

Definition file_Close (file : option string) : M (option errno) :=
  match file with
  | None => ret (Some EINVAL)
  | Some path => perform (Close path) (fun fs => (fs, None))
  end.

Definition os_ReadFile (path : string) : M (string + errno) :=
  fun w =>
    match perform (ReadFile path)
            (fun fs => (fs, if fs !! path is Some _ then None else Some ENOENT)) w with
    | (Done None, w') => (Done (inl (default EmptyString (files w !! path))), w')
    | (Done (Some e), w') => (Done (inr e), w')
    | (Panicked, w') => (Panicked, w')
    end.

Definition fmt_Printf (s : string) : M unit :=
  fun w =>
    (Done tt, mkWorld (files w) (stdout w ++ [s]) (faults w) (syscalls w) (uuids w)).

Definition uuid_New : M string :=
  fun w =>
    (Done (uuids w 0),
     mkWorld (files w) (stdout w) (faults w) (syscalls w) (fun n => uuids w (S n))).

Definition isNil (err : option errno) : bool :=
  match err with None => true | Some _ => false end.

(** [os.IsExist] *)
Definition os_IsExist (err : option errno) : bool :=
  match err with Some EEXIST => true | _ => false end.

Section Generator.

Context {rt : GoRuntime}.

(** ** convertNameToLabel, initiaiseAttribute (main.go 1863-1882, 1963-1987) *)

Fixpoint labelLoop (n i : nat) (nameElements : list string) (label : string) : string :=
  match nameElements with
  | [] => label
  | v :: rest =>
      if String.eqb v "dlta" then labelLoop n (S i) rest label
      else labelLoop n (S i) rest
             (label +:+ strings_Title v +:+ (if Nat.ltb i (n - 1) then " " else EmptyString))
  end.

Definition convertNameToLabel (name : string) : string :=
  let nameElements := GoStrings.Split "_"%char name in
  labelLoop (length nameElements) 0 nameElements EmptyString.

(** For [TypeString] the value is [writeJson("")], the JSON text of the empty
    string: two quotation marks. *)
Definition initiaiseAttribute (terraType : string) : goValue :=
  if String.eqb terraType "TypeString" then VString (dq +:+ dq)
  else if String.eqb terraType "TypeBool" then VBool false
  else if String.eqb terraType "TypeInt" then VInt 0
  else if String.eqb terraType "TypeFloat" then VFloatZero
  else if String.eqb terraType "TypeList" then VStrings [EmptyString]
  else if String.eqb terraType "TypeMap" then VNilMap
  else VNil.

(** ** getPalletProp (main.go 1317-1587) *)

(** [pp] after the assignments that precede the [switch], for the id [id]. *)
Definition basePalletProp (at_ : attribute) (id : string) : PaletteProp.t :=
  PaletteProp.mk id (convertNameToLabel id) None
    (translateDataType (DataTypeString at_))
    (initiaiseAttribute (DataTypeString at_)) (Some EmptyString) None false false
    None [].

Definition withOptions (pp : PaletteProp.t) (opts : list KeyValue.t) : PaletteProp.t :=
  PaletteProp.mk (PaletteProp.ID pp) (PaletteProp.Name pp) (PaletteProp.Description pp)
    (PaletteProp.Type_ pp) (PaletteProp.CurrentValue pp) (PaletteProp.FlattenName pp)
    (PaletteProp.Filter pp) (PaletteProp.Disabled pp) (PaletteProp.ReadOnly pp)
    (PaletteProp.Validators pp) (PaletteProp.Options pp ++ opts).

Definition withType (pp : PaletteProp.t) (ty : string) : PaletteProp.t :=
  PaletteProp.mk (PaletteProp.ID pp) (PaletteProp.Name pp) (PaletteProp.Description pp)
    ty (PaletteProp.CurrentValue pp) (PaletteProp.FlattenName pp)
    (PaletteProp.Filter pp) (PaletteProp.Disabled pp) (PaletteProp.ReadOnly pp)
    (PaletteProp.Validators pp) (PaletteProp.Options pp).

Definition withValue (pp : PaletteProp.t) (v : goValue) : PaletteProp.t :=
  PaletteProp.mk (PaletteProp.ID pp) (PaletteProp.Name pp) (PaletteProp.Description pp)
    (PaletteProp.Type_ pp) v (PaletteProp.FlattenName pp)
    (PaletteProp.Filter pp) (PaletteProp.Disabled pp) (PaletteProp.ReadOnly pp)
    (PaletteProp.Validators pp) (PaletteProp.Options pp).

Definition withDisabled (pp : PaletteProp.t) (d : bool) : PaletteProp.t :=
  PaletteProp.mk (PaletteProp.ID pp) (PaletteProp.Name pp) (PaletteProp.Description pp)
    (PaletteProp.Type_ pp) (PaletteProp.CurrentValue pp) (PaletteProp.FlattenName pp)
    (PaletteProp.Filter pp) d (PaletteProp.ReadOnly pp)
    (PaletteProp.Validators pp) (PaletteProp.Options pp).

(** The cases that offer a fixed list of options: the options are appended,
    the type becomes [select] when there is one, and the first option is the
    value. *)
Definition selectFrom (pp : PaletteProp.t) (opts : list KeyValue.t) : PaletteProp.t :=
  let pp := withOptions pp opts in
  let pp := if Nat.ltb 0 (length opts) then withType pp "select" else pp in
  withValue pp (VString (KeyValue.Value (nth 0 opts (KeyValue.mk EmptyString EmptyString)))).

(** The treatment of an attribute with possible values, shared by the
    [default] case and the case ["name"]; [selected] is the value the [select]
    branch assigns, if it assigns one. *)
Definition possibleValuesProp (pp : PaletteProp.t) (at_ : attribute)
    (selected : option goValue) : PaletteProp.t :=
  let pp :=
    if Nat.ltb 0 (length (PossibleValues at_)) then
      let pp := withOptions pp (options (PossibleValues at_)) in
      if String.eqb (DataTypeString at_) (schema.ValueType_String schema.TypeList)
      then withValue (withType pp "checkboxes") VNilStrings
      else match selected with
           | Some v => withValue (withType pp "select") v
           | None => withType pp "select"
           end
    else pp in
  if String.eqb (DataTypeString at_) "TypeBool" then withType pp "checkbox" else pp.

(** [getPalletProp] given [templateBlock], the value of
    [gen.terraformTemplateBlock()], which only the case
    ["dlta_terraform_template"] asks for. *)
Definition palletProp (gen : documentationGenerator) (templateBlock : string)
    (at_ : attribute) (name : string) : PaletteProp.t :=
  let pp := basePalletProp at_ name in
  if String.eqb name "name" then
    if Nat.ltb 0 (length (PossibleOptions at_)) || Nat.ltb 0 (length (PossibleValues at_))
    then
      possibleValuesProp
        (basePalletProp at_ (genVariableNameFromResourcePath (ResourcePath at_)))
        at_ (Some (VString EmptyString))
    else pp
  else if String.eqb name "AssetType" then
    PaletteProp.mk "AssetType" "Asset Type:" None "string" (VString (resourceName gen))
      (Some "AssetType") None true false None []
  else if String.eqb name "Name" then
    PaletteProp.mk "name" "Name:" None "string" (initiaiseAttribute "TypeString")
      (Some "Name") None true false
      (Some [("required", VBool true); ("minLength", VInt 3)]) []
  else if String.eqb name "location" then selectFrom pp dlta_location_options
  else if String.eqb name "dlta_application_short_code" then
    selectFrom pp dlta_application_short_code_options
  else if String.eqb name "dlta_business_short_code" then
    selectFrom pp dlta_business_short_code_options
  else if String.eqb name "dlta_environment_char" then
    selectFrom pp dlta_environment_char_options
  else if String.eqb name "dlta_instance_id" then selectFrom pp dlta_instance_id_options
  else if String.eqb name "dlta_location_short_code" then
    selectFrom pp dlta_location_short_code_options
  else if String.eqb name "dlta_vendor_asset_short_code" then
    withDisabled (withValue pp (VString (ShortCode gen))) true
  else if String.eqb name "dlta_terraform_template" then
    withType (withDisabled (withValue pp (VString templateBlock)) true) "textarea"
  else if String.eqb name "dlta_terraform_is_data_source" then
    withDisabled
      (withValue pp (VString (if isDataSource gen then "data" else "resource"))) true
  else if String.eqb name "resource_group_name" then
    if isDataSource gen
    then PaletteProp.mk "DataResourceGroup" "Resource Group:" None "string" VNil
           (Some EmptyString) None false false None []
    else PaletteProp.mk "ResourceGroup" "Resource Group:" None "string" VNil
           (Some "ResourceGroups") None true false None []
  else if String.eqb name "terraform_azurerm_azapi_source" then
    selectFrom pp terraform_azurerm_azapi_source_options
  else if String.eqb name "terraform_azurerm_azapi_version" then
    selectFrom pp terraform_azurerm_azapi_version_options
  else if String.eqb name "terraform_azurerm_azurerm_source" then
    selectFrom pp terraform_azurerm_azurerm_source_options
  else if String.eqb name "terraform_azurerm_azurerm_version" then
    selectFrom pp terraform_azurerm_azurerm_version_options
  else if String.eqb name "dlta_naming_convention" then
    withDisabled (withValue pp (VString (NamingConvention gen))) true
  else possibleValuesProp pp at_ None.


(** ** Reading the property file (main.go 705-761, 867-885) *)

Definition resourceKind (gen : documentationGenerator) : string :=
  if negb (isResource gen) then "d" else "r".

Definition notSpecial (gen : documentationGenerator) : bool :=
  negb (String.eqb (resourceName gen) "terraform_azurerm")
  && negb (String.eqb (resourceName gen) "devops_pipeline").

(** The name of the property file, [%s/%s/%s/%s/%s.json]: no leading slash. *)
Definition propertiesFileName (gen : documentationGenerator) : string :=
  catStrings [dltaPath gen; "/"; resourceKind gen; "/"; resourceName gen; "/";
              "resource"; "/"; resourceName gen; ".json"].

Definition readResourceProperties (gen : documentationGenerator)
    : M (gmap string summaryAttribute.t) :=
  if notSpecial gen then
    match filepath_Abs (propertiesFileName gen) with
    | inr err =>
        fmt_Printf (catStrings ["readResourceProperties "; dq; "1. file error"; dq;
                                ": "; err; nl]) ;;
        ret ∅
    | inl outputPath =>
        let* err := os_Stat outputPath in
        if negb (isNil err) then
          fmt_Printf (catStrings ["readResourceProperties "; dq;
                                  "2. File does not exist"; dq; ": "; outputPath; nl]) ;;
          fmt_Printf (catStrings ["readResourceProperties "; dq;
                                  "2. You may not have run init to create"; dq; ": ";
                                  outputPath; nl]) ;;
          ret ∅
        else
          let* read := os_ReadFile outputPath in
          match read with
          | inr e =>
              fmt_Printf (catStrings ["readResourceProperties "; dq; "file error"; dq;
                                      ": "; error_Error (ReadFile outputPath) e; nl]) ;;
              ret ∅
          | inl fileContent => ret (json_Unmarshal_summary fileContent)
          end
    end
  else ret ∅.

Definition getPublishedAttributes (gen : documentationGenerator)
    : M (list (string * attribute)) :=
  match resource gen with
  | Some r =>
      let inputAttributes :=
        getAllInputAttributes (schema.Schema_ r) attribute_zero false (resourceName gen) in
      let* sa := readResourceProperties gen in
      ret (getAllPublishedAttributes inputAttributes sa)
  | None => ret []
  end.

Definition injectAttributes (gen : documentationGenerator)
    : M (list (string * attribute)) :=
  let injectAttributes := getInjectAttributes gen in
  let* publishedAttributes := getPublishedAttributes gen in
  ret (mergeAttributes injectAttributes publishedAttributes).

(** ** The six blocks as the generator computes them

    Each reads the attributes and then ranges over them in an order of the
    run time's choosing.  The progress lines that the blocks print on the way
    (main.go 1097, 1302, 1304, 1364, 1578) are left out: [stdout] holds the
    messages of the functions that read and write files, and nothing below
    speaks of what a block prints. *)

Definition terraformTemplateBlock (gen : documentationGenerator) : M string :=
  let* attributes := injectAttributes gen in
  ret (templateText gen (enumerate InTemplate attributes)).

Definition terraformModuleBlock (gen : documentationGenerator) : M string :=
  let* attributes := injectAttributes gen in
  ret (moduleText gen (enumerate InModule attributes)).

Definition terraformVariableBlock (gen : documentationGenerator) : M string :=
  let* attributes := injectAttributes gen in
  ret (variableText (enumerate InVariable attributes)).

Definition terraformLocalBlock (gen : documentationGenerator) : M string :=
  let* attributes := injectAttributes gen in
  liftOption (localText gen (enumerate InLocal attributes)).

Definition terraformOutputBlock (gen : documentationGenerator) : M string :=
  match resource gen with
  | Some r =>
      let attributes :=
        getAllOutputAttributes (schema.Schema_ r) attribute_zero false (resourceName gen) in
      ret (outputText gen (enumerate InOutput attributes))
  | None => ret EmptyString
  end.

(** ** dltaPalletteCodeBlock (main.go 1589-1689) *)

Definition getPalletProp (gen : documentationGenerator) (at_ : attribute)
    (name : string) : M PaletteProp.t :=
  if String.eqb name "dlta_terraform_template" then
    let* templateBlock := terraformTemplateBlock gen in
    ret (palletProp gen templateBlock at_ name)
  else ret (palletProp gen EmptyString at_ name).

(** [for ... range m], each iteration appending to [creation.Props]. *)
Fixpoint appendEach {A : Type} (f : string -> A -> list PaletteProp.t -> M (list PaletteProp.t))
    (m : list (string * A)) (props : list PaletteProp.t) : M (list PaletteProp.t) :=
  match m with
  | [] => ret props
  | (k, v) :: m' => let* props := f k v props in appendEach f m' props
  end.

Definition paletteThird (gen : documentationGenerator) (n2 : string) (at2 : attribute)
    (props : list PaletteProp.t) : M (list PaletteProp.t) :=
  let* palletItem := getPalletProp gen at2 n2 in
  ret (props ++ [palletItem]).

Definition paletteSecond (gen : documentationGenerator) (n1 : string) (at_ : attribute)
    (props : list PaletteProp.t) : M (list PaletteProp.t) :=
  if negb (IsBlock at_) then
    let* palletItem := getPalletProp gen at_ n1 in
    ret (props ++ [palletItem])
  else appendEach (paletteThird gen) (Attributes at_) props.

(** One iteration of [for n, fs := range attributes]; every branch of the
    chain on [n] calls [getPalletProp(fs, n)]. *)
Definition paletteTop (gen : documentationGenerator) (n : string) (fs : attribute)
    (props : list PaletteProp.t) : M (list PaletteProp.t) :=
  if String.eqb n "name" then ret props
  else
    let* palletItem := getPalletProp gen fs n in
    if IsBlock fs then appendEach (paletteSecond gen) (Attributes fs) props
    else ret (props ++ [palletItem]).

Definition paletteInsert (guid resourceName : string) : string :=
  "insert into core.infra_asset (" +:+ nl
  +:+ catStrings
        [tab; tab; tab; tab; "id, "; tab; tab; "guid, infra_id, name,"; tab; "label,";
         tab; "type,"; tab; "active, "; tab; "addable,"; tab; "asset_type,"; tab;
         "reflect_type, "; tab; "palette_design, form_fields, "; tab;
         "attributes, created_at, updated_at, deleted_at, updated_by,"; tab; "rank, ";
         tab; "has_cost, svg_icon) values ("; nl]
  +:+ catStrings
        [tab; "DEFAULT, "; tab; "'"; guid; "', 1, "; tab; tab; "'"; resourceName; "', ";
         tab; "'"; resourceName; "', "; tab; "'', "; tab; "true, "; tab; tab; "true, ";
         tab; tab; "'"; resourceName; "',"; tab; tab; "'none', "; tab; tab; "null, ";
         tab; tab; tab; "'{}', "; tab; tab; tab; "null, "; tab; tab; "now(), "; tab; tab;
         "now(), "; tab; tab; "null, "; tab; tab; "1,"; tab; tab; tab; "14, "; tab;
         "false, "; tab; tab; "''"; tab; nl]
  +:+ ");" +:+ nl.

Definition paletteUpdate (json resourceName : string) : string :=
  catStrings ["UPDATE core.infra_asset SET has_cost= "; "false"; ","; nl;
              "form_fields = '"]
  +:+ json
  +:+ catStrings ["'"; nl; "where asset_type = '"; resourceName; "'"]
  +:+ ";".

(** [creation.Props] for [attributes], listed in the order the [range]
    visits them. *)
Definition paletteControls (gen : documentationGenerator)
    (attributes : list (string * attribute)) : M (list PaletteProp.t) :=
  let* assetType := getPalletProp gen attribute_zero "AssetType" in
  let props := [assetType] in
  let* props :=
    if notSpecial gen && negb (isDataSource gen) then
      let* palletItem := getPalletProp gen attribute_zero "Name" in
      ret (props ++ [palletItem])
    else ret props in
  appendEach (paletteTop gen) attributes props.

(** The function once [attributes] is known. *)
Definition paletteBlockWith (gen : documentationGenerator)
    (attributes : list (string * attribute)) : M string :=
  let* guid := uuid_New in
  let* props := paletteControls gen attributes in
  let creation := Creator.mk (resourceName gen) props in
  ret (paletteInsert guid (resourceName gen)
       +:+ paletteUpdate (json_MarshalIndent_Creator creation) (resourceName gen)).

Definition dltaPalletteCodeBlock (gen : documentationGenerator) : M string :=
  let* attributes := injectAttributes gen in
  paletteBlockWith gen (enumerate InPalette attributes).

(** ** Writing the artefacts (main.go 537-703, 793-817) *)

(** [fileName] and [subDir] of an artefact; both stay empty for
    [PublishedPropertiesSummary], which no branch of the chain names. *)
Definition artefactFile (a : Artefact) : string * string :=
  match a with
  | TerraformTemplate => ("template.json", "resource")
  | ModuleBlock => ("main.tf", "module")
  | VariableBlock => ("variables.tf", "module")
  | PalletteBlock => ("pallette.sql", "resource")
  | OutputBlock => ("output.tf", "module")
  | LocalBlock => ("local.tf", "module")
  | PublishedPropertiesSummary => (EmptyString, EmptyString)
  end.

Definition outputDirectoryName (gen : documentationGenerator) (subDir : string) : string :=
  catStrings ["/"; dltaPath gen; "/"; resourceKind gen; "/"; resourceName gen; "/";
              subDir; "/"].

Definition artefactPath (gen : documentationGenerator) (a : Artefact) : string :=
  catStrings ["/"; dltaPath gen; "/"; resourceKind gen; "/"; resourceName gen; "/";
              snd (artefactFile a); "/"; fst (artefactFile a)].

(** The line printed for the error [e] of the call [c]; [who] is the
    function that prints it. *)
Definition errorLine (who label : string) (c : syscall) (e : errno) : string :=
  catStrings [who; " "; dq; label; dq; ": "; error_Error c e; nl].

(** [if err != nil { fmt.Printf(...) }] *)
Definition printError (who label : string) (c : syscall) (err : option errno) : M unit :=
  match err with
  | Some e => fmt_Printf (errorLine who label c e)
  | None => ret tt
  end.

(** The part that [writeResource] and [writeInitResourceProperties] share,
    in three pieces.  With [-force], a file that is there is removed first. *)
Definition clearIfForced (forced : bool) (outputPath : string) : M unit :=
  if forced then
    let* err := os_Stat outputPath in
    if isNil err then (os_Remove outputPath ;; ret tt) else ret tt
  else ret tt.

(** The branch taken when the second [os.Stat] fails: no error stops it. *)
Definition createAndWrite (who outputDirectoryPath outputPath content : string) : M unit :=
  let* err := os_MkdirAll outputDirectoryPath in
  printError who "4.1 directory error" (MkdirAll outputDirectoryPath) err ;;
  let* (file, err) := os_Create outputPath in
  printError who "4. file error" (Create outputPath) err ;;
  let* file :=
    if os_IsExist err then
      os_Remove outputPath ;;
      let* (file, err) := os_Create outputPath in
      printError who "5. file error" (Create outputPath) err ;;
      ret file
    else ret file in
  file_WriteString file content ;;
  file_Sync file ;;
  file_Close file ;;
  ret tt.

(** [who] is the prefix of the messages, [existsMessage] the line printed
    when the file is there, [content] the text to write. *)
Definition writeFile (who existsMessage : string) (forced : bool)
    (outputDirectoryPath outputPath content : string) : M unit :=
  clearIfForced forced outputPath ;;
  let* err := os_Stat outputPath in
  if isNil err then fmt_Printf existsMessage
  else createAndWrite who outputDirectoryPath outputPath content.

Definition writeResource (gen : documentationGenerator) (s : string) (a : Artefact)
    : M string :=
  let outputPath := artefactPath gen a in
  writeFile "writeResource"
    (catStrings ["writeResource "; dq; "3. File exists error"; dq; "  on path: ";
                 outputPath; nl])
    (isForced gen) (outputDirectoryName gen (snd (artefactFile a))) outputPath s ;;
  ret EmptyString.

Definition writeInitResourceProperties (gen : documentationGenerator) : M string :=
  (if notSpecial gen then
     let attributes :=
       match resource gen with
       | Some r => Some (getAllInputAttributes (schema.Schema_ r) attribute_zero false
                           (resourceName gen))
       | None => None
       end in
     let* attributes := liftOption attributes in
     let flatted :=
       summariseAttributes (enumerate InSummary attributes) (resourceName gen) true in
     let content := json_MarshalIndent_summary flatted in
     let outputPath := propertiesFileName gen in
     writeFile "initResourceProperties"
       (catStrings ["initResourceProperties "; dq; "3. File exists error"; dq; ": ";
                    outputPath; nl])
       (isForced gen) (outputDirectoryName gen "resource") outputPath
       (strings_TrimSpace content)
   else ret tt) ;;
  ret EmptyString.

Definition scaffoldConfiguation (gen : documentationGenerator) : M string :=
  let* s := terraformTemplateBlock gen in
  writeResource gen s TerraformTemplate ;;
  let* s := terraformModuleBlock gen in
  writeResource gen s ModuleBlock ;;
  let* s := terraformVariableBlock gen in
  writeResource gen s VariableBlock ;;
  let* s := terraformLocalBlock gen in
  writeResource gen s LocalBlock ;;
  let* s := dltaPalletteCodeBlock gen in
  writeResource gen s PalletteBlock ;;
  let* s := terraformOutputBlock gen in
  writeResource gen s OutputBlock ;;
  ret EmptyString.

(** ** Resolving the name and dispatching (main.go 271-423) *)

(** A typed service lists its data sources and resources by their
    [ResourceType()], each with what wrapping it yields: the resource, or the
    text of the error.  An untyped service maps names to resources. *)
Record TypedService := mkTyped {
  DataSources : list (string * (schema.Resource + string));
  Resources : list (string * (schema.Resource + string))
}.

Record UntypedService := mkUntyped {
  SupportedDataSources : list (string * schema.Resource);
  SupportedResources : list (string * schema.Resource)
}.

Record Provider := mkProvider {
  SupportedTypedServices : list TypedService;
  SupportedUntypedServices : list UntypedService
}.

(** The two nested loops over the typed services: the first entry of a
    service that carries the name is wrapped, an error of the wrapper is
    returned at once, and the inner [break] lets later services overwrite. *)
Fixpoint resolveTyped (kind : string) (entries : list (list (string * (schema.Resource + string))))
    (resourceName : string) (found : option schema.Resource)
    : string + option schema.Resource :=
  match entries with
  | [] => inr found
  | service :: rest =>
      match AList.lookup resourceName service with
      | Some (inl wrapped) => resolveTyped kind rest resourceName (Some wrapped)
      | Some (inr err) =>
          inl (catStrings ["wrapping "; kind; " "; fmt_q resourceName; ": "; err])
      | None => resolveTyped kind rest resourceName found
      end
  end.

Definition resolveUntyped (entries : list (list (string * schema.Resource)))
    (resourceName : string) (found : option schema.Resource) : option schema.Resource :=
  fold_left
    (fun found service =>
       match AList.lookup resourceName service with
       | Some r => Some r
       | None => found
       end)
    entries found.

(** The generator after the lookup, or the error [getContent] returns. *)
Definition resolve (provider : Provider) (resourceName : string) (isResource : bool)
    : string + option schema.Resource :=
  if negb (String.eqb resourceName "terraform_azurerm")
     && negb (String.eqb resourceName "devops_pipeline")
  then
    let kind := if isResource then "Resource" else "Data Source" in
    let typed :=
      map (if isResource then Resources else DataSources)
        (SupportedTypedServices provider) in
    let untyped :=
      map (if isResource then SupportedResources else SupportedDataSources)
        (SupportedUntypedServices provider) in
    match resolveTyped kind typed resourceName None with
    | inl err => inl err
    | inr found =>
        match resolveUntyped untyped resourceName found with
        | Some r => inr (Some r)
        | None => inl (catStrings [kind; " "; fmt_q resourceName; " was not registered!"])
        end
    end
  else inr None.

(** [getContent] returns a nil content in every case; its result here is the
    error, [None] for nil. *)
Definition getContent (provider : Provider) (resourceName : string) (isResource : bool)
    (dltaPath outputType : string) (isForced : bool) : M (option string) :=
  match resolve provider resourceName isResource with
  | inl err => ret (Some err)
  | inr res =>
      let* shortCode := liftOption (getResourceShortCode resourceName) in
      let gen :=
        mkGenerator res resourceName (negb isResource) dltaPath isResource isForced
          shortCode (getResourceNamingConvention resourceName (negb isResource)) in
      (if String.eqb outputType "init" then
         writeInitResourceProperties gen ;; ret tt
       else if String.eqb outputType "scaffold" then
         scaffoldConfiguation gen ;; ret tt
       else ret tt) ;;
      ret None
  end.

Definition run (provider : Provider) (resourceName : string) (isResource : bool)
    (dltaPath outputType : string) (isForced : bool) : M (option string) :=
  let* err := getContent provider resourceName isResource dltaPath outputType isForced in
  ret (match err with
       | Some e => Some ("building content: " +:+ e)
       | None => None
       end).

(** How the process ends: normally, by [os.Exit(1)] after a message on the
    log, or by a panic carrying the error of [run]. *)
Inductive exit :=
| ExitOK
| ExitError (message : string)
| ExitPanic (err : string).

(** [main] on the values of the flags [-name], [-type], [-dlta-path],
    [-output-type] and [-force]. *)
Definition main (provider : Provider) (resourceName resourceType dltaPath outputType force : string)
    : M exit :=
  if String.eqb resourceName EmptyString then
    ret (ExitError "The name of the Data Source/Resource must be specified via `-name`")
  else if String.eqb resourceType EmptyString then
    ret (ExitError "The type of the Data Source/Resource must be specified via `-type`")
  else if negb (String.eqb resourceType "data") && negb (String.eqb resourceType "resource") then
    ret (ExitError "The type of the Data Source/Resource specified via `-type` must be either `data` or `resource`")
  else if negb (String.eqb outputType "init") && negb (String.eqb outputType "scaffold")
          && negb (String.eqb outputType "config") then
    ret (ExitError "`-output-type` must be either `init`, `scaffold` or `config`")
  else if String.eqb dltaPath EmptyString then
    ret (ExitError "The Relative Website Path must be specified via `-dlta-path`")
  else if String.eqb force EmptyString then
    ret (ExitError "The Relative Website Path must be specified via `-dlta-path`")
  else
    let isForced := String.eqb force "y" in
    let isResource := String.eqb resourceType "resource" in
    let* err := run provider resourceName isResource dltaPath outputType isForced in
    ret (match err with
         | Some e => ExitPanic e
         | None => ExitOK
         end).

(** The text [writeInitResourceProperties] writes for a resource with the
    schema [r]. *)
Definition initContent (gen : documentationGenerator) (r : schema.Resource) : string :=
  strings_TrimSpace
    (json_MarshalIndent_summary
       (summariseAttributes
          (enumerate InSummary
             (getAllInputAttributes (schema.Schema_ r) attribute_zero false
                (resourceName gen)))
          (resourceName gen) true)).

End Generator.

(** ** A run time that visits every map in the order it is listed

    The libraries are replaced by stand-ins, the decoder by one that yields
    [sa] for the property file: the statements below hold for every run
    time, and this one serves to run the generator on examples. *)

Fixpoint sameAttribute_refl (a : attribute) : sameAttribute a a :=
  match a as a0 return sameAttribute a0 a0 with
  | mkAttribute d b ma mi rq op co fn pv po ty attrs df cw rp =>
      sameAttribute_intro (mkAttribute d b ma mi rq op co fn pv po ty attrs df cw rp)
        attrs attrs (Permutation_refl attrs)
        ((fix each (l : list (string * attribute))
            : Forall2 (fun x y => fst x = fst y /\ sameAttribute (snd x) (snd y)) l l :=
            match l with
            | [] => List.Forall2_nil _
            | (k, a') :: l' =>
                List.Forall2_cons (k, a') (k, a') (conj eq_refl (sameAttribute_refl a')) (each l')
            end) attrs)
  end.

Definition sameEntries_refl (m : list (string * attribute)) : sameEntries m m :=
  ex_intro _ m
    (conj (Permutation_refl m)
       ((fix each (l : list (string * attribute))
           : Forall2 (fun x y => fst x = fst y /\ sameAttribute (snd x) (snd y)) l l :=
           match l with
           | [] => List.Forall2_nil _
           | (k, a') :: l' =>
               List.Forall2_cons (k, a') (k, a') (conj eq_refl (sameAttribute_refl a')) (each l')
           end) m)).

Definition decoding (sa : gmap string summaryAttribute.t) : GoRuntime := {|
  enumerate := fun _ m => m;
  enumerate_same := fun _ m => sameEntries_refl m;
  strings_Title := fun s => s;
  strings_TrimSpace := fun s => s;
  json_MarshalIndent_summary := fun _ => "{}";
  json_MarshalIndent_Creator := fun _ => "{}";
  json_Unmarshal_summary := fun _ => sa;
  fmt_q := fun s => dq +:+ s +:+ dq;
  filepath_Abs := fun p => inl p;
  error_Error := fun _ _ => "error"
|}.

Definition listedOrder : GoRuntime := decoding ∅.

(** A world with the given files in which no system call is made to fail. *)
Definition calmWorld (fs : gmap string string) : World :=
  mkWorld fs [] [] [] (fun _ => "00000000-0000-0000-0000-000000000000").

(** ** The INSERT statement, column by column

    The statement as one reads it: the columns and the values, paired by
    position.  [sqlList] lays the items out with the white space the source
    has before each of them. *)

Definition insertColumns : list string :=
  ["id"; "guid"; "infra_id"; "name"; "label"; "type"; "active"; "addable";
   "asset_type"; "reflect_type"; "palette_design"; "form_fields"; "attributes";
   "created_at"; "updated_at"; "deleted_at"; "updated_by"; "rank"; "has_cost";
   "svg_icon"].

Definition sqlQuote (s : string) : string := "'" +:+ s +:+ "'".

Definition insertValues (guid resourceName : string) : list string :=
  ["DEFAULT"; sqlQuote guid; "1"; sqlQuote resourceName; sqlQuote resourceName;
   "''"; "true"; "true"; sqlQuote resourceName; "'none'"; "null"; "'{}'"; "null";
   "now()"; "now()"; "null"; "1"; "14"; "false"; "''"].

Fixpoint sqlList (gaps items : list string) : string :=
  match gaps, items with
  | gap :: gaps', [item] => gap +:+ item
  | gap :: gaps', item :: items' => gap +:+ item +:+ "," +:+ sqlList gaps' items'
  | _, _ => EmptyString
  end.

Definition columnGaps : list string :=
  [tab +:+ tab +:+ tab +:+ tab; " " +:+ tab +:+ tab; " "; " "; tab; tab; tab;
   " " +:+ tab; tab; tab; " " +:+ tab; " "; " " +:+ tab; " "; " "; " "; " "; tab;
   " " +:+ tab; " "].

Definition valueGaps : list string :=
  [tab; " " +:+ tab; " "; " " +:+ tab +:+ tab; " " +:+ tab; " " +:+ tab;
   " " +:+ tab; " " +:+ tab +:+ tab; " " +:+ tab +:+ tab; tab +:+ tab;
   " " +:+ tab +:+ tab; " " +:+ tab +:+ tab +:+ tab; " " +:+ tab +:+ tab +:+ tab;
   " " +:+ tab +:+ tab; " " +:+ tab +:+ tab; " " +:+ tab +:+ tab;
   " " +:+ tab +:+ tab; tab +:+ tab +:+ tab; " " +:+ tab; " " +:+ tab +:+ tab].

Definition insertStatement (guid resourceName : string) : string :=
  "insert into core.infra_asset (" +:+ nl
  +:+ sqlList columnGaps insertColumns +:+ ") values (" +:+ nl
  +:+ sqlList valueGaps (insertValues guid resourceName) +:+ tab +:+ nl
  +:+ ");" +:+ nl.

(** The UPDATE statement that follows it. *)
Definition updateStatement (formFields resourceName : string) : string :=
  "UPDATE core.infra_asset SET has_cost= false," +:+ nl
  +:+ "form_fields = " +:+ sqlQuote formFields +:+ nl
  +:+ "where asset_type = " +:+ sqlQuote resourceName +:+ ";".

(** A computation that returns in every world. *)
Definition total {A : Type} (m : M A) : Prop :=
  forall w, exists a w', m w = (Done a, w').

(** ** The lines of the template for [resource_group_name] *)

Definition resourceGroupLine (gen : documentationGenerator) : string :=
  if isDataSource gen
  then catStrings [tab; "resource_group_name"; tab; tab; "= "; dq;
                   "${DataResourceGroup}"; dq; nl]
  else catStrings [tab; "resource_group_name"; tab; tab;
                   "= module.${ResourceGroup}.name"; nl].

Definition genericLine (name : string) : string :=
  catStrings [tab; name; tab; tab; "= "; dq; "${"; name; "}"; dq; nl].

(** A resource with a required [resource_group_name], its property file and
    what the decoder reads from it. *)
Definition groupSchema : list (string * schema.Schema) :=
  [("resource_group_name",
    schema.mkSchema schema.TypeString false true false true EmptyString 0 0 [] []
      schema.ElemNil)].

Definition groupGen : documentationGenerator :=
  mkGenerator (Some (schema.mkResource groupSchema)) "azurerm_example" false "dlta"
    true false "ae" EmptyString.

Definition groupSummary : gmap string summaryAttribute.t :=
  {[ "azurerm_example.resource_group_name" :=
       summaryAttribute.mk true false true false false EmptyString ]}.

Definition groupWorld : World :=
  calmWorld {[ "dlta/r/azurerm_example/resource/azurerm_example.json" := "{}" ]}.

(** A resource whose block [sku] holds a field [resource_group_name]. *)
Definition nestedGroupGen : documentationGenerator :=
  mkGenerator None "azurerm_example" false "dlta" true false "ae" EmptyString.

Definition stringAttribute (path : string) : attribute :=
  mkAttribute EmptyString false 0 0 true false false false [] [] "TypeString" []
    EmptyString [] path.

Definition nestedGroupAttributes : list (string * attribute) :=
  [("sku",
    mkAttribute EmptyString true 1 0 true false false false [] [] "TypeList"
      [("resource_group_name",
        stringAttribute "azurerm_example.sku.resource_group_name")]
      EmptyString [] "azurerm_example.sku")].

(** ** The names a provider registers *)

Definition registeredNames (provider : Provider) (isResource : bool) : list string :=
  concat (map (fun s => AList.keys ((if isResource then Resources else DataSources) s))
            (SupportedTypedServices provider))
  ++ concat (map (fun s => AList.keys
                             ((if isResource then SupportedResources
                               else SupportedDataSources) s))
               (SupportedUntypedServices provider)).

Definition exampleProvider : Provider :=
  mkProvider [mkTyped [] [("azurerm_example", inl (schema.mkResource groupSchema))]]
    [mkUntyped [("azurerm_subnet", schema.mkResource [])] []].

(** A world in which the template of [groupGen] has been written before. *)
Definition templateThere : World :=
  calmWorld {[ "/dlta/r/azurerm_example/resource/template.json" := "old" ]}.

(** From [w] to [w'] the system calls [t] were made and the lines [o]
    printed. *)
Definition since (w w' : World) (t : list (syscall * option errno)) (o : list string)
    : Prop :=
  syscalls w' = syscalls w ++ t /\ stdout w' = stdout w ++ o.

Definition extends (w w' : World) : Prop := exists t o, since w w' t o.

(** Between [w] and [w'] the file at [path] was looked for. *)
Definition attempted (w w' : World) (path : string) : Prop :=
  exists t o e, since w w' t o /\ In (Stat path, e) t.

(** A computation that leaves the files as they are, and a world without
    faults without faults. *)
Definition reads {A : Type} (m : M A) : Prop :=
  forall w r w',
    m w = (r, w') ->
    files w' = files w /\ (faults w = [] -> faults w' = []) /\ extends w w'.

(** A computation whose calls [t] and output [o] satisfy [P], whatever the
    world it starts in. *)
Definition keeps {A : Type} (P : list (syscall * option errno) -> list string -> Prop)
    (m : M A) : Prop :=
  forall w r w', m w = (r, w') -> exists t o, since w w' t o /\ P t o.

(** The calls that create something, and the property that each of them
    that failed has its line on the output. *)
Definition creation (c : syscall) : bool :=
  match c with
  | MkdirAll _ | Create _ => true
  | _ => false
  end.

Definition logged {rt : GoRuntime} (who : string) (t : list (syscall * option errno))
    (o : list string) : Prop :=
  forall c e, In (c, Some e) t -> creation c = true ->
  exists label, In (errorLine who label c e) o.

(** The artefacts [scaffoldConfiguation] writes, in its order, and where. *)
Definition scaffoldArtefacts : list Artefact :=
  [TerraformTemplate; ModuleBlock; VariableBlock; LocalBlock; PalletteBlock; OutputBlock].

Definition artefactPrefix (gen : documentationGenerator) : string :=
  catStrings ["/"; dltaPath gen; "/"; resourceKind gen; "/"; resourceName gen; "/"].

Definition artefactSuffix (a : Artefact) : string :=
  snd (artefactFile a) +:+ "/" +:+ fst (artefactFile a).

(** The files after [scaffoldConfiguation] has written its six texts. *)
Definition scaffoldFiles (gen : documentationGenerator) (fs : gmap string string)
    (template module_ variable local_ pallette output : string) : gmap string string :=
  <[artefactPath gen OutputBlock := output]>
    (<[artefactPath gen PalletteBlock := pallette]>
       (<[artefactPath gen LocalBlock := local_]>
          (<[artefactPath gen VariableBlock := variable]>
             (<[artefactPath gen ModuleBlock := module_]>
                (<[artefactPath gen TerraformTemplate := template]> fs))))).

(** The generator [getContent] builds once the name is resolved. *)
Definition generatorFor (res : option schema.Resource) (resourceName : string)
    (isResource : bool) (dltaPath : string) (isForced : bool) (shortCode : string)
    : documentationGenerator :=
  mkGenerator res resourceName (negb isResource) dltaPath isResource isForced shortCode
    (getResourceNamingConvention resourceName (negb isResource)).

(** A world in which the write to the template of [groupGen] fails: the
    file is absent, the directory and the file are created, and the fourth
    call, the write, meets an I/O error. *)
Definition writeFails : World :=
  mkWorld ∅ [] [None; None; None; Some EIO] [] (fun _ => EmptyString).

(** ** Cutting the attribute tree

    [cutAttribute below a] keeps [below] levels of maps under [a] and empties
    the maps further down; [truncate levels m] keeps [levels] levels of
    attributes, the entries of [m] being the first. *)

Fixpoint cutAttribute (below : nat) (a : attribute) {struct a} : attribute :=
  setAttributes a
    match below with
    | 0 => []
    | S d =>
        (fix each (l : list (string * attribute)) :=
           match l with
           | [] => []
           | (k, a') :: l' => (k, cutAttribute d a') :: each l'
           end) (Attributes a)
    end.

Definition truncate (levels : nat) (m : list (string * attribute))
    : list (string * attribute) :=
  match levels with
  | 0 => []
  | S d => map (fun '(k, a) => (k, cutAttribute d a)) m
  end.

(** A resource with a field at the fourth level: [a.b.c.d]. *)
Definition deepAttributes : list (string * attribute) :=
  let block path attrs :=
    mkAttribute EmptyString true 1 0 true false false false [] [] "TypeList" attrs
      EmptyString [] path in
  [("a",
    block "azurerm_example.a"
      [("b",
        block "azurerm_example.a.b"
          [("c",
            block "azurerm_example.a.b.c"
              [("d", stringAttribute "azurerm_example.a.b.c.d")])])])].

(** ** Two runs

    Two worlds are alike when they hold the same files and impose the same
    faults; what they have printed, the calls made so far and the GUIDs to
    come may differ.  A computation is determined when alike worlds give the
    same result and stay alike, and when it draws no GUID. *)

Definition alike (w1 w2 : World) : Prop :=
  files w1 = files w2 /\ faults w1 = faults w2.

Definition determined {A : Type} (m : M A) : Prop :=
  (forall w1 w2, alike w1 w2 ->
     fst (m w1) = fst (m w2) /\ alike (snd (m w1)) (snd (m w2)))
  /\ (forall w, uuids (snd (m w)) = uuids w).

(** The world once [uuid.New()] has drawn a GUID. *)
Definition afterDraw (w : World) : World :=
  mkWorld (files w) (stdout w) (faults w) (syscalls w) (fun n => uuids w (S n)).

(** A world without files or faults whose GUIDs are all [guid]. *)
Definition worldDrawing (guid : string) : World :=
  mkWorld ∅ [] [] [] (fun _ => guid).

(** The entries listed one by one are the same map tree. *)
Fixpoint sameEach (l : list (string * attribute))
    : Forall2 (fun x y => fst x = fst y /\ sameAttribute (snd x) (snd y)) l l :=
  match l with
  | [] => List.Forall2_nil _
  | (k, a) :: l' =>
      List.Forall2_cons (k, a) (k, a) (conj eq_refl (sameAttribute_refl a)) (sameEach l')
  end.

Definition sameEntries_rev (m : list (string * attribute)) : sameEntries m (rev m) :=
  ex_intro _ (rev m) (conj (Permutation_rev m) (sameEach (rev m))).

(** A run time that visits the top-level entries of every map in the reverse
    of the order in which they are listed. *)
Definition reversedOrder : GoRuntime := {|
  enumerate := fun _ m => rev m;
  enumerate_same := fun _ m => sameEntries_rev m;
  strings_Title := fun s => s;
  strings_TrimSpace := fun s => s;
  json_MarshalIndent_summary := fun _ => "{}";
  json_MarshalIndent_Creator := fun _ => "{}";
  json_Unmarshal_summary := fun _ => ∅;
  fmt_q := fun s => dq +:+ s +:+ dq;
  filepath_Abs := fun p => inl p;
  error_Error := fun _ _ => "error"
|}.

(** ** Paths into the schema

    A field name of the SDK holds no dot, and a Go map holds a key once.
    [pathString prefix path] is the resource path of the field reached from
    [prefix] through the field names [path]; [under p key] says that [key]
    is [p] or continues it after a dot. *)

Fixpoint noDot (k : string) : bool :=
  match k with
  | EmptyString => true
  | String c k' => negb (Ascii.eqb c "."%char) && noDot k'
  end.

Definition pathString (prefix : string) (path : list string) : string :=
  fold_left (fun p f => p +:+ "." +:+ f) path prefix.

Definition under (p key : string) : Prop :=
  key = p \/ exists r, key = p +:+ "." +:+ r.

(** The attribute maps the summary is built from: keys without dots, each
    once, every attribute carrying the path of its parent extended by its
    key. *)
Inductive wfAttrs : string -> list (string * attribute) -> Prop :=
| wfAttrs_intro (prefix : string) (m : list (string * attribute)) :
    List.NoDup (AList.keys m) ->
    Forall (fun ka => noDot (fst ka) = true
                      /\ ResourcePath (snd ka) = prefix +:+ "." +:+ fst ka
                      /\ wfAttrs (ResourcePath (snd ka)) (Attributes (snd ka))) m ->
    wfAttrs prefix m.

(** [reaches m path along]: following the keys [path] from [m], through
    blocks, one meets the attributes [along]. *)
Inductive reaches : list (string * attribute) -> list string -> list attribute -> Prop :=
| reaches_here (m : list (string * attribute)) (k : string) (a : attribute) :
    In (k, a) m -> reaches m [k] [a]
| reaches_below (m : list (string * attribute)) (k : string) (a : attribute)
    (path : list string) (along : list attribute) :
    In (k, a) m -> IsBlock a = true -> reaches (Attributes a) path along ->
    reaches m (k :: path) (a :: along).

(** The same for the schema: [declares input path along]. *)
Inductive wfFields : list (string * schema.Schema) -> Prop :=
| wfFields_intro (input : list (string * schema.Schema)) :
    List.NoDup (AList.keys input) ->
    Forall (fun ks => noDot (fst ks) = true
                      /\ forall fields, schema.Elem (snd ks) = schema.ElemResource fields ->
                                        wfFields fields) input ->
    wfFields input.

Inductive declares
  : list (string * schema.Schema) -> list string -> list schema.Schema -> Prop :=
| declares_here (input : list (string * schema.Schema)) (k : string) (s : schema.Schema) :
    In (k, s) input -> declares input [k] [s]
| declares_below (input fields : list (string * schema.Schema)) (k : string)
    (s : schema.Schema) (path : list string) (along : list schema.Schema) :
    In (k, s) input -> schema.Elem s = schema.ElemResource fields ->
    declares fields path along ->
    declares input (k :: path) (s :: along).

(** A field is reflected when it is required or optional; the summary of a
    resource with the fields [input], as [writeInitResourceProperties]
    serialises it. *)
Definition reflected (s : schema.Schema) : bool :=
  schema.Required s || schema.Optional s.

Definition propertySummary {rt : GoRuntime} (input : list (string * schema.Schema))
    (resourceName : string) : gmap string summaryAttribute.t :=
  summariseAttributes
    (enumerate InSummary (getAllInputAttributes input attribute_zero false resourceName))
    resourceName true.

(** Two schemas to run the summary on: a required block [settings] with a
    required field [name] and an optional field [tier]; and a required field
    [name] beside a block [identity] that is computed only and holds an
    optional field [kind]. *)
Definition leafSchema (required optional computed : bool) : schema.Schema :=
  schema.mkSchema schema.TypeString optional required computed false EmptyString
    0 0 [] [] schema.ElemNil.

Definition blockSchema (required optional computed : bool)
    (fields : list (string * schema.Schema)) : schema.Schema :=
  schema.mkSchema schema.TypeList optional required computed false EmptyString
    1 0 [] [] (schema.ElemResource fields).

Definition settingsFields : list (string * schema.Schema) :=
  [("name", leafSchema true false false); ("tier", leafSchema false true false)].

Definition settingsSchema : list (string * schema.Schema) :=
  [("settings", blockSchema true false false settingsFields)].

Definition identityFields : list (string * schema.Schema) :=
  [("kind", leafSchema false true false)].

Definition identitySchema : list (string * schema.Schema) :=
  [("name", leafSchema true false false);
   ("identity", blockSchema false false true identityFields)].

(** [s] with every byte [old] replaced by [new]. *)
Fixpoint replaceByte (old new : ascii) (s : string) : string :=
  match s with
  | EmptyString => EmptyString
  | String c s' => String (if Ascii.eqb c old then new else c) (replaceByte old new s')
  end.

(** A provider in which a typed and an untyped service both register
    [azurerm_subnet] as a resource, and one whose wrapper of it fails. *)
Definition overlappingProvider : Provider :=
  mkProvider [mkTyped [] [("azurerm_subnet", inl (schema.mkResource groupSchema))]]
    [mkUntyped [] [("azurerm_subnet", schema.mkResource [])]].

Definition failingProvider : Provider :=
  mkProvider [mkTyped [] [("azurerm_subnet", inl (schema.mkResource groupSchema))];
              mkTyped [] [("azurerm_subnet", inr "no schema")]]
    [mkUntyped [] [("azurerm_subnet", schema.mkResource [])]].

(** A control of the palette is coherent when its type and its options
    agree: a [select] or [checkboxes] control offers options, and a control
    that offers options is a [select], [checkboxes] or [checkbox]. *)
Definition coherentControl (pp : PaletteProp.t) : Prop :=
  ((PaletteProp.Type_ pp = "select" \/ PaletteProp.Type_ pp = "checkboxes") ->
   PaletteProp.Options pp <> [])
  /\ (PaletteProp.Options pp <> [] ->
      PaletteProp.Type_ pp = "select" \/ PaletteProp.Type_ pp = "checkboxes"
      \/ PaletteProp.Type_ pp = "checkbox").

(** The outcome of a system call: the fault that the world imposes on it,
    or else what the call gives on the files as they are.  [missing] is what
    [stat] and a read give: no error when the file is there. *)
Definition callResult (imposed : list (option errno)) (natural : option errno)
    : option errno :=
  match imposed with
  | Some e :: _ => Some e
  | _ => natural
  end.

Definition missing (fs : gmap string string) (path : string) : option errno :=
  if fs !! path is Some _ then None else Some ENOENT.

(** The controls of the palette, as [dltaPalletteCodeBlock] appends them to
    [creation.Props] (main.go 1609-1678): each is [getPalletProp] of an
    attribute and a name.  First [AssetType]; then [Name], for a resource
    that is not special; then, for every attribute but [name] in the order of
    the [range]: the attribute itself when it is no block, and otherwise the
    fields of the block, a field that is a block giving way to its own
    fields. *)
Definition controlItems (gen : documentationGenerator)
    (attributes : list (string * attribute)) : list (attribute * string) :=
  (attribute_zero, "AssetType")
  :: (if notSpecial gen && negb (isDataSource gen)
      then [(attribute_zero, "Name")] else [])
  ++ flat_map
       (fun '(n, fs) =>
          if String.eqb n "name" then []
          else if IsBlock fs then
            flat_map
              (fun '(n1, at_) =>
                 if negb (IsBlock at_) then [(at_, n1)]
                 else map (fun '(n2, at2) => (at2, n2)) (Attributes at_))
              (Attributes fs)
          else [(fs, n)])
       attributes.

(** [v] is a world that reading has made of [w]: the files are the same, and
    no call is made to fail in [v] if none is in [w]. *)
Definition readFrom (w v : World) : Prop :=
  files v = files w /\ (faults w = [] -> faults v = []).

(** [pp] is the control of [item]: what [getPalletProp] makes of the
    attribute and the name, the template being the text that
    [terraformTemplateBlock] returns in a world read from [w], for the one
    name that asks for it. *)
Definition controlOf {rt : GoRuntime} (gen : documentationGenerator)
    (w : World) (item : attribute * string) (pp : PaletteProp.t) : Prop :=
  exists templateBlock,
    pp = palletProp gen templateBlock (fst item) (snd item)
    /\ if String.eqb (snd item) "dlta_terraform_template"
       then exists v v',
              readFrom w v /\ terraformTemplateBlock gen v = (Done templateBlock, v')
       else templateBlock = EmptyString.

(** The labels of the messages for a creation that failed (main.go 603,
    608, 614 and 681, 686, 692). *)
Definition creationLabels : list string :=
  ["4.1 directory error"; "4. file error"; "5. file error"].

(** The creations among the calls [t] that failed, in their order. *)
Definition failedCreations (t : list (syscall * option errno)) : list (syscall * errno) :=
  flat_map
    (fun call =>
       match snd call with
       | Some e => if creation (fst call) then [(fst call, e)] else []
       | None => []
       end) t.

(** [line] is the message printed for the failed creation [call]. *)
Definition reportOf {rt : GoRuntime} (who : string) (call : syscall * errno)
    (line : string) : Prop :=
  exists label,
    In label creationLabels /\ line = errorLine who label (fst call) (snd call).

(** The calls with which the writing functions clear the way: none without
    [-force]; with it a stat and, when the stat finds the file, the removal,
    with whatever result. *)
Definition clearing (forced : bool) (outputPath : string)
    (t : list (syscall * option errno)) : Prop :=
  if forced
  then (exists e, t = [(Stat outputPath, Some e)])
       \/ (exists r, t = [(Stat outputPath, None); (Remove outputPath, r)])
  else t = [].

(** What a writing function prints, [o], against the calls it makes, [t]:
    after the clearing comes the stat; if that succeeds it is the last call
    and the only line is [existsMessage]; if it fails, the lines are the
    messages of the creations that failed, one each and in their order, so
    that no other call that fails has a line. *)
Definition printed {rt : GoRuntime} (who existsMessage : string) (forced : bool)
    (outputPath : string) (t : list (syscall * option errno)) (o : list string) : Prop :=
  exists t1 t2,
    t = t1 ++ t2 /\ clearing forced outputPath t1
    /\ ((t2 = [(Stat outputPath, None)] /\ o = [existsMessage])
        \/ (exists e t3,
              t2 = (Stat outputPath, Some e) :: t3
              /\ Forall2 (reportOf who) (failedCreations t) o)).

(** A block of the generator followed by the write of its text: in [w] the
    [block] returns [s], and [writeResource] then leaves the world [w'], in
    which the file of the artefact [a] holds [s] and the other files are
    those of [w]. *)
Definition emits {rt : GoRuntime} (gen : documentationGenerator) (block : M string)
    (a : Artefact) (w : World) (s : string) (w' : World) : Prop :=
  exists v,
    block w = (Done s, v)
    /\ writeResource gen s a v = (Done EmptyString, w')
    /\ files w' = <[artefactPath gen a := s]> (files w)
    /\ faults w' = [].

(** A resource whose block [a__b] holds a required field [name]; the
    property summary that [init] writes for it; and a world that holds the
    property file. *)
Definition gapSchema : list (string * schema.Schema) :=
  [("a__b", blockSchema true false false [("name", leafSchema true false false)])].

Definition gapProvider : Provider :=
  mkProvider [] [mkUntyped [] [("azurerm_example", schema.mkResource gapSchema)]].

Definition gapSummary : gmap string summaryAttribute.t :=
  summariseAttributes
    (getAllInputAttributes gapSchema attribute_zero false "azurerm_example")
    "azurerm_example" true.

Definition gapWorld : World :=
  calmWorld {[ "dlta/r/azurerm_example/resource/azurerm_example.json" := "{}" ]}.

(** * Theorems *)

(** ** String concatenation *)

Lemma app_empty_l (s : string) : EmptyString +:+ s = s.
Proof. reflexivity. Qed.

Lemma app_String (c : ascii) (a b : string) :
  String c a +:+ b = String c (a +:+ b).
Proof. reflexivity. Qed.

Lemma string_app_assoc (a b c : string) : (a +:+ b) +:+ c = a +:+ (b +:+ c).
Proof.
  induction a as [|x a IH]; [reflexivity|].
  now rewrite !app_String, IH.
Qed.

Lemma string_app_nil_r (a : string) : a +:+ EmptyString = a.
Proof.
  induction a as [|x a IH]; [reflexivity|]. now rewrite app_String, IH.
Qed.

(** ** getResourceShortCode *)

Lemma slice01_firstByte (v : string) :
  v <> EmptyString -> slice01 v = Some (firstByte v).
Proof. destruct v; [congruence | reflexivity]. Qed.

Lemma initials_cons (v : string) (segs : list string) :
  initials (v :: segs) = firstByte v +:+ initials segs.
Proof.
  unfold initials. simpl. destruct (map firstByte segs) eqn:E.
  - simpl. destruct v; reflexivity.
  - destruct v; reflexivity.
Qed.

(** When the name is not one byte long no segment is skipped: the loop
    succeeds exactly when every segment is non-empty. *)
Lemma shortCodeLoop_all (parts i : nat) (segs : list string) (acc : string) :
  parts <> 1 ->
  Forall (fun v => v <> EmptyString) segs ->
  shortCodeLoop parts i segs acc = Some (acc +:+ initials segs).
Proof.
  intros Hp H. revert i acc. induction H as [|v segs Hv _ IH]; intros i acc.
  - simpl. now rewrite string_app_nil_r.
  - simpl. destruct (Nat.eqb_spec parts 1) as [->|_]; [congruence|]. simpl.
    rewrite (slice01_firstByte v Hv), IH, initials_cons.
    now rewrite string_app_assoc.
Qed.

Lemma shortCodeLoop_panics (parts i : nat) (segs : list string) (acc : string) :
  parts <> 1 ->
  ~ Forall (fun v => v <> EmptyString) segs ->
  shortCodeLoop parts i segs acc = None.
Proof.
  intros Hp. revert i acc. induction segs as [|v segs IH]; intros i acc H.
  - destruct H. constructor.
  - simpl. destruct (Nat.eqb_spec parts 1) as [->|_]; [congruence|]. simpl.
    destruct v as [|c v]; [reflexivity|]. simpl. apply IH.
    intros HF. apply H. constructor; [discriminate | exact HF].
Qed.

Lemma Forall_nonempty_dec (segs : list string) :
  {Forall (fun v => v <> EmptyString) segs} +
  {~ Forall (fun v => v <> EmptyString) segs}.
Proof.
  apply Forall_dec. intros v. destruct v; [right; congruence | left; discriminate].
Qed.

Example shortcode_service_plan :
  getResourceShortCode "azurerm_service_plan" = Some "asp".
Proof. reflexivity. Qed.

Example shortcode_doubled_underscore :
  getResourceShortCode "azurerm__plan" = None.
Proof. reflexivity. Qed.

(** C9. For a resource name of at least two bytes the slice [v[0:1]] stays in
    bounds (the function returns) exactly when no underscore-separated segment
    is empty, and the value returned is then the first byte of every segment,
    concatenated. *)
Theorem getResourceShortCode_initials (resourceName : string) :
  2 <= String.length resourceName ->
  (getResourceShortCode resourceName <> None <-> noEmptySegment resourceName) /\
  (noEmptySegment resourceName ->
   getResourceShortCode resourceName =
     Some (initials (GoStrings.Split "_"%char resourceName))).
Proof.
  intros Hlen. unfold getResourceShortCode, noEmptySegment.
  assert (Hp : String.length resourceName <> 1) by lia.
  split; [split|].
  - intros Hret.
    destruct (Forall_nonempty_dec (GoStrings.Split "_"%char resourceName)) as [H|H];
      [exact H|].
    now rewrite (shortCodeLoop_panics _ _ _ _ Hp H) in Hret.
  - intros H. now rewrite (shortCodeLoop_all _ _ _ _ Hp H).
  - intros H. now rewrite (shortCodeLoop_all _ _ _ _ Hp H).
Qed.

Lemma getResourceShortCode_initials_witness :
  2 <= String.length "azurerm_service_plan" /\
  noEmptySegment "azurerm_service_plan" /\
  getResourceShortCode "azurerm_service_plan" = Some "asp".
Proof.
  assert (Hlen : 2 <= String.length "azurerm_service_plan") by (simpl; lia).
  assert (Hseg : noEmptySegment "azurerm_service_plan")
    by (unfold noEmptySegment; simpl; repeat constructor; discriminate).
  split; [exact Hlen|]. split; [exact Hseg|].
  exact (proj2 (getResourceShortCode_initials "azurerm_service_plan" Hlen) Hseg).
Defined.

(** ** Computations that always return *)

Section Returns.

Context {rt : GoRuntime}.

Lemma total_ret {A : Type} (a : A) : total (ret a).
Proof. intros w. now exists a, w. Qed.

Lemma total_bind {A B : Type} (m : M A) (k : A -> M B) :
  total m -> (forall a, total (k a)) -> total (bind m k).
Proof.
  intros Hm Hk w. destruct (Hm w) as (a & w1 & E).
  destruct (Hk a w1) as (b & w2 & E2). exists b, w2.
  unfold bind. now rewrite E.
Qed.

Lemma total_perform (c : syscall) effect : total (perform c effect).
Proof.
  intros w. unfold perform.
  destruct (faults w) as [|[e|] rest]; try destruct (effect (files w)); eauto.
Qed.

Lemma total_fmt_Printf (s : string) : total (fmt_Printf s).
Proof. intros w. unfold fmt_Printf. eauto. Qed.

Lemma total_os_ReadFile (path : string) : total (os_ReadFile path).
Proof.
  intros w. unfold os_ReadFile.
  destruct (total_perform (ReadFile path)
              (fun fs => (fs, if fs !! path is Some _ then None else Some ENOENT)) w)
    as ([e|] & w' & E); rewrite E; eauto.
Qed.

Lemma total_readResourceProperties (gen : documentationGenerator) :
  total (readResourceProperties gen).
Proof.
  unfold readResourceProperties. destruct (notSpecial gen); [|apply total_ret].
  destruct (filepath_Abs (propertiesFileName gen)) as [outputPath|err].
  - apply total_bind; [apply total_perform|]. intros err.
    destruct (negb (isNil err)).
    + repeat (apply total_bind; [apply total_fmt_Printf|]; intros _). apply total_ret.
    + apply total_bind; [apply total_os_ReadFile|]. intros [content|e].
      * apply total_ret.
      * apply total_bind; [apply total_fmt_Printf|]. intros _. apply total_ret.
  - apply total_bind; [apply total_fmt_Printf|]. intros _. apply total_ret.
Qed.

Lemma total_injectAttributes (gen : documentationGenerator) :
  total (injectAttributes gen).
Proof.
  unfold injectAttributes, getPublishedAttributes.
  apply total_bind; [|intros; apply total_ret].
  destruct (resource gen); [|apply total_ret].
  apply total_bind; [apply total_readResourceProperties | intros; apply total_ret].
Qed.

Lemma total_terraformTemplateBlock (gen : documentationGenerator) :
  total (terraformTemplateBlock gen).
Proof.
  apply total_bind; [apply total_injectAttributes | intros; apply total_ret].
Qed.

Lemma total_getPalletProp (gen : documentationGenerator) (at_ : attribute) (name : string) :
  total (getPalletProp gen at_ name).
Proof.
  unfold getPalletProp. destruct (String.eqb name "dlta_terraform_template").
  - apply total_bind; [apply total_terraformTemplateBlock | intros; apply total_ret].
  - apply total_ret.
Qed.

Lemma total_appendEach {A : Type} f (m : list (string * A)) (props : list PaletteProp.t) :
  (forall k v props, total (f k v props)) -> total (appendEach f m props).
Proof.
  intros Hf. revert props. induction m as [|[k v] m IH]; intros props; simpl.
  - apply total_ret.
  - apply total_bind; [apply Hf | intros; apply IH].
Qed.

Lemma total_paletteTop (gen : documentationGenerator) n fs props :
  total (paletteTop gen n fs props).
Proof.
  unfold paletteTop. destruct (String.eqb n "name"); [apply total_ret|].
  apply total_bind; [apply total_getPalletProp|]. intros item.
  destruct (IsBlock fs); [|apply total_ret].
  apply total_appendEach. intros k v p. unfold paletteSecond.
  destruct (negb (IsBlock v)).
  - apply total_bind; [apply total_getPalletProp | intros; apply total_ret].
  - apply total_appendEach. intros k2 v2 p2. unfold paletteThird.
    apply total_bind; [apply total_getPalletProp | intros; apply total_ret].
Qed.

Lemma total_paletteControls (gen : documentationGenerator) attributes :
  total (paletteControls gen attributes).
Proof.
  unfold paletteControls.
  apply total_bind; [apply total_getPalletProp|]. intros assetType.
  apply total_bind.
  - destruct (notSpecial gen && negb (isDataSource gen)); [|apply total_ret].
    apply total_bind; [apply total_getPalletProp | intros; apply total_ret].
  - intros props. apply total_appendEach. apply total_paletteTop.
Qed.

End Returns.

(** ** The palette script *)

Lemma paletteInsert_columns (guid name : string) :
  paletteInsert guid name = insertStatement guid name.
Proof.
  unfold paletteInsert, insertStatement, insertValues, sqlQuote.
  cbn [catStrings fold_right sqlList columnGaps valueGaps insertColumns].
  rewrite !string_app_assoc. reflexivity.
Qed.

Lemma paletteUpdate_statement (json name : string) :
  paletteUpdate json name = updateStatement json name.
Proof.
  unfold paletteUpdate, updateStatement, sqlQuote. cbn [catStrings fold_right].
  rewrite !string_app_assoc. reflexivity.
Qed.


(** ** Loops that append text *)

Lemma emitEach_acc {A : Type} (f : string -> A -> string) (m : list (string * A))
    (text : string) :
  emitEach f m text = text +:+ emitEach f m EmptyString.
Proof.
  unfold emitEach. revert text. induction m as [|[k v] m IH]; intros text; simpl.
  - now rewrite string_app_nil_r.
  - rewrite IH, (IH (EmptyString +:+ f k v)), app_empty_l.
    now rewrite string_app_assoc.
Qed.

Lemma emitEach_app {A : Type} (f : string -> A -> string) (m1 m2 : list (string * A))
    (text : string) :
  emitEach f (m1 ++ m2) text = emitEach f m2 (emitEach f m1 text).
Proof. unfold emitEach. now rewrite fold_left_app. Qed.

Lemma emitEach_cons {A : Type} (f : string -> A -> string) k v (m : list (string * A))
    (text : string) :
  emitEach f ((k, v) :: m) text = emitEach f m (text +:+ f k v).
Proof. reflexivity. Qed.

(** An entry that the loop visits contributes its text. *)
Lemma emitEach_In {A : Type} (f : string -> A -> string) (m : list (string * A))
    (text : string) k v :
  In (k, v) m ->
  exists before after, emitEach f m text = before +:+ f k v +:+ after.
Proof.
  intros Hin. apply in_split in Hin as (m1 & m2 & ->).
  rewrite emitEach_app, emitEach_cons, emitEach_acc.
  exists (emitEach f m1 text), (emitEach f m2 EmptyString).
  now rewrite string_app_assoc.
Qed.

(** ** The template line of [resource_group_name] *)

Lemma sameAttribute_flags (a b : attribute) :
  sameAttribute a b -> Computed b = Computed a /\ IsBlock b = IsBlock a.
Proof. intros H. destruct H. now split. Qed.

Lemma sameEntries_In (m m' : list (string * attribute)) k a :
  sameEntries m m' -> In (k, a) m ->
  exists a', In (k, a') m' /\ sameAttribute a a'.
Proof.
  intros (visited & Hperm & Hall) Hin.
  apply (Permutation_in _ Hperm) in Hin. clear Hperm.
  induction Hall as [|[k1 a1] [k2 a2] l l' [Hk Hs] _ IH]; [destruct Hin|].
  destruct Hin as [Heq|Hin].
  - injection Heq as -> ->. simpl in Hk, Hs. subst k2. exists a2. split; [now left|exact Hs].
  - destruct (IH Hin) as (a' & Hin' & Hs'). exists a'. split; [now right|exact Hs'].
Qed.

Lemma templateTop_resource_group_name (gen : documentationGenerator) (a : attribute) :
  Computed a = false -> IsBlock a = false ->
  templateTop gen "resource_group_name" a = resourceGroupLine gen.
Proof.
  intros Hc Hb. unfold templateTop, templateTopField, resourceGroupLine, templateDataLine.
  rewrite Hc, Hb. destruct (isDataSource gen); reflexivity.
Qed.

Example nested_resource_group_name_text :
  templateText nestedGroupGen nestedGroupAttributes
  = templateHeader nestedGroupGen +:+ templateDltaLines
    +:+ genericLine "resource_group_name" +:+ "}" +:+ nl.
Proof. vm_compute. reflexivity. Qed.

(** A [resource_group_name] inside a block: the template has the generic line
    for it and not the hardcoded one. *)
Lemma nested_resource_group_name_generic :
  notSpecial nestedGroupGen = true
  /\ (exists sku a,
        In ("sku", sku) nestedGroupAttributes
        /\ In ("resource_group_name", a) (Attributes sku)
        /\ Computed a = false /\ IsBlock a = false)
  /\ GoStrings.Contains (templateText nestedGroupGen nestedGroupAttributes)
       (resourceGroupLine nestedGroupGen) = false
  /\ GoStrings.Contains (templateText nestedGroupGen nestedGroupAttributes)
       (genericLine "resource_group_name") = true.
Proof.
  split; [reflexivity|]. split.
  - eexists _, _. split; [left; reflexivity|]. split; [left; reflexivity|]. now split.
  - split; vm_compute; reflexivity.
Qed.

Section TemplateLine.

Context {rt : GoRuntime}.

Lemma sameAttribute_type (a a' : attribute) :
  sameAttribute a a' ->
  DataTypeString a' = DataTypeString a /\ Computed a' = Computed a
  /\ IsBlock a' = IsBlock a /\ sameEntries (Attributes a) (Attributes a').
Proof.
  intros H. destruct H as [a visited attrs Hperm Hall]. repeat split.
  now exists visited.
Qed.

Lemma templateSecond_resource_group_name (gen : documentationGenerator) (a1 : attribute) :
  IsBlock a1 = false ->
  templateSecond gen "resource_group_name" a1
  = templateGenericLine "resource_group_name" (DataTypeString a1).
Proof. intros Hb. unfold templateSecond. now rewrite Hb. Qed.

Lemma templateThird_resource_group_name (a2 : attribute) :
  templateThird "resource_group_name" a2
  = templateGenericLine "resource_group_name" (DataTypeString a2).
Proof. reflexivity. Qed.

Lemma templateText_line (gen : documentationGenerator)
    (attributes : list (string * attribute)) (n : string) (at_ : attribute)
    (b1 line a1 : string) :
  notSpecial gen = true ->
  In (n, at_) attributes ->
  templateTop gen n at_ = b1 +:+ line +:+ a1 ->
  exists before after, templateText gen attributes = before +:+ line +:+ after.
Proof.
  intros Hns Hin E.
  destruct (emitEach_In (templateTop gen) attributes
              (templateHeader gen +:+ templateLocationLine attributes +:+ templateDltaLines)
              _ _ Hin) as (b & a & Et).
  unfold templateText. unfold notSpecial in Hns. rewrite Hns, Et, E.
  exists (b +:+ b1), (a1 +:+ a +:+ "}" +:+ nl). now rewrite !string_app_assoc.
Qed.

(** C7, amended.  For a resource other than the two special names, of the
    attributes that [injectAttributes] returns: a top-level
    [resource_group_name] that is neither computed nor a block makes the
    template contain the hardcoded line, a tab, the name, two tabs and
    [= module.${ResourceGroup}.name] for a resource, [= "${DataResourceGroup}"]
    for a data source, and that line is all the iteration for the attribute
    emits; a [resource_group_name] that is a field, not itself a block, of a
    top-level block, or any field of a block inside a top-level block, makes
    the template contain the generic line for its type instead; and the
    hardcoded line is not the generic line of any type. *)
Theorem terraformTemplateBlock_resource_group_name
    (gen : documentationGenerator) (w w' : World)
    (attributes : list (string * attribute)) :
  notSpecial gen = true ->
  injectAttributes gen w = (Done attributes, w') ->
  (forall a,
     In ("resource_group_name", a) attributes ->
     Computed a = false -> IsBlock a = false ->
     exists before after,
       terraformTemplateBlock gen w
       = (Done (before +:+ resourceGroupLine gen +:+ after), w')
       /\ forall a', sameAttribute a a' ->
            templateTop gen "resource_group_name" a' = resourceGroupLine gen)
  /\ (forall n b a1,
        In (n, b) attributes ->
        String.eqb n "location" || GoStrings.Contains n "dlta" || String.eqb n "name" = false ->
        Computed b = false -> IsBlock b = true ->
        In ("resource_group_name", a1) (Attributes b) -> IsBlock a1 = false ->
        exists before after,
          terraformTemplateBlock gen w
          = (Done (before
                   +:+ templateGenericLine "resource_group_name" (DataTypeString a1)
                   +:+ after), w'))
  /\ (forall n b n1 b1 a2,
        In (n, b) attributes ->
        String.eqb n "location" || GoStrings.Contains n "dlta" || String.eqb n "name" = false ->
        Computed b = false -> IsBlock b = true ->
        In (n1, b1) (Attributes b) -> IsBlock b1 = true ->
        In ("resource_group_name", a2) (Attributes b1) ->
        exists before after,
          terraformTemplateBlock gen w
          = (Done (before
                   +:+ templateGenericLine "resource_group_name" (DataTypeString a2)
                   +:+ after), w'))
  /\ (forall dataTypeString,
        resourceGroupLine gen <> templateGenericLine "resource_group_name" dataTypeString).
Proof.
  intros Hns Hinj.
  assert (Hblock : terraformTemplateBlock gen w
                   = (Done (templateText gen (enumerate InTemplate attributes)), w')).
  { unfold terraformTemplateBlock, bind. now rewrite Hinj. }
  rewrite Hblock. pose proof (enumerate_same InTemplate attributes) as Hsame.
  split; [|split; [|split]].
  - intros a Hin Hc Hb.
    destruct (sameEntries_In _ _ _ _ Hsame Hin) as (a' & Hin' & Hs).
    destruct (sameAttribute_flags _ _ Hs) as [Hc' Hb'].
    rewrite Hc in Hc'. rewrite Hb in Hb'.
    destruct (templateText_line gen _ _ a' EmptyString (resourceGroupLine gen) EmptyString
                Hns Hin') as (before & after & E).
    { rewrite app_empty_l, string_app_nil_r.
      exact (templateTop_resource_group_name gen a' Hc' Hb'). }
    exists before, after. split; [now rewrite E|].
    intros a2 Hs2. destruct (sameAttribute_flags _ _ Hs2) as [Hc2 Hb2].
    apply templateTop_resource_group_name; congruence.
  - intros n b a1 Hin Hn Hc Hb Hin1 Hb1.
    destruct (sameEntries_In _ _ _ _ Hsame Hin) as (b' & Hin' & Hs).
    destruct (sameAttribute_type _ _ Hs) as (_ & Hc' & Hb' & Hattrs).
    destruct (sameEntries_In _ _ _ _ Hattrs Hin1) as (a1' & Hin1' & Hs1).
    destruct (sameAttribute_type _ _ Hs1) as (Ht1 & _ & Hb1' & _).
    destruct (emitEach_In (templateSecond gen) (Attributes b') EmptyString _ _ Hin1')
      as (b0 & a0 & E0).
    rewrite templateSecond_resource_group_name, Ht1 in E0 by congruence.
    destruct (templateText_line gen _ _ b' b0
                (templateGenericLine "resource_group_name" (DataTypeString a1)) a0
                Hns Hin') as (before & after & E).
    { unfold templateTop. rewrite Hn, Hc', Hc, Hb', Hb. exact E0. }
    exists before, after. now rewrite E.
  - intros n b n1 b1 a2 Hin Hn Hc Hb Hin1 Hb1 Hin2.
    destruct (sameEntries_In _ _ _ _ Hsame Hin) as (b' & Hin' & Hs).
    destruct (sameAttribute_type _ _ Hs) as (_ & Hc' & Hb' & Hattrs).
    destruct (sameEntries_In _ _ _ _ Hattrs Hin1) as (b1' & Hin1' & Hs1).
    destruct (sameAttribute_type _ _ Hs1) as (_ & _ & Hb1' & Hattrs1).
    destruct (sameEntries_In _ _ _ _ Hattrs1 Hin2) as (a2' & Hin2' & Hs2).
    destruct (sameAttribute_type _ _ Hs2) as (Ht2 & _).
    destruct (emitEach_In templateThird (Attributes b1') EmptyString _ _ Hin2')
      as (b00 & a00 & E00).
    rewrite templateThird_resource_group_name, Ht2 in E00.
    destruct (emitEach_In (templateSecond gen) (Attributes b') EmptyString _ _ Hin1')
      as (b0 & a0 & E0).
    assert (E1 : templateSecond gen n1 b1'
                 = b00 +:+ templateGenericLine "resource_group_name" (DataTypeString a2)
                   +:+ a00).
    { unfold templateSecond. rewrite Hb1', Hb1. exact E00. }
    rewrite E1 in E0.
    destruct (templateText_line gen _ _ b' (b0 +:+ b00)
                (templateGenericLine "resource_group_name" (DataTypeString a2))
                (a00 +:+ a0) Hns Hin') as (before & after & E).
    { unfold templateTop. rewrite Hn, Hc', Hc, Hb', Hb. cbn [negb].
      rewrite E0. now rewrite !string_app_assoc. }
    exists before, after. now rewrite E.
  - intros ty. unfold resourceGroupLine, templateGenericLine.
    destruct (isDataSource gen);
      destruct (String.eqb ty (schema.ValueType_String schema.TypeList)); discriminate.
Qed.

End TemplateLine.

Lemma terraformTemplateBlock_resource_group_name_witness :
  exists a attributes w' before after,
    In ("resource_group_name", a) attributes
    /\ @injectAttributes (decoding groupSummary) groupGen groupWorld = (Done attributes, w')
    /\ @terraformTemplateBlock (decoding groupSummary) groupGen groupWorld
       = (Done (before +:+ resourceGroupLine groupGen +:+ after), w').
Proof.
  pose (a := fieldAttribute (snd (nth 0 groupSchema ("", schema.mkSchema schema.TypeString false false false false EmptyString 0 0 [] [] schema.ElemNil))) "azurerm_example" "resource_group_name").
  destruct (@injectAttributes (decoding groupSummary) groupGen groupWorld)
    as [r w'] eqn:E.
  assert (Hr : exists attrs, r = Done attrs /\ In ("resource_group_name", a) attrs).
  { vm_compute in E. injection E as <- _. eexists. split; [reflexivity|].
    vm_compute. do 10 right. left. reflexivity. }
  destruct Hr as (attributes & -> & Hin).
  destruct (@terraformTemplateBlock_resource_group_name (decoding groupSummary)
              groupGen groupWorld w' attributes eq_refl E) as (Htop & _).
  destruct (Htop a Hin eq_refl eq_refl) as (before & after & Ht & _).
  exists a, attributes, w', before, after. now repeat split.
Defined.

(** ** Names that are not registered *)

Lemma AList_lookup_None {A : Type} (k : string) (m : list (string * A)) :
  ~ In k (AList.keys m) -> AList.lookup k m = None.
Proof.
  induction m as [|[k' v] m IH]; simpl; [reflexivity|]. intros Hn.
  destruct (String.eqb_spec k k') as [->|_].
  - destruct Hn. now left.
  - apply IH. intros H. apply Hn. now right.
Qed.

Section Unregistered.

Context {rt : GoRuntime}.

Lemma resolveTyped_unregistered kind entries resourceName found :
  ~ In resourceName (concat (map AList.keys entries)) ->
  resolveTyped kind entries resourceName found = inr found.
Proof.
  revert found. induction entries as [|service rest IH]; intros found Hn; simpl.
  - reflexivity.
  - simpl in Hn. rewrite in_app_iff in Hn.
    rewrite AList_lookup_None by tauto. apply IH. tauto.
Qed.

Lemma resolveUntyped_unregistered entries resourceName found :
  ~ In resourceName (concat (map (@AList.keys schema.Resource) entries)) ->
  resolveUntyped entries resourceName found = found.
Proof.
  unfold resolveUntyped. revert found.
  induction entries as [|service rest IH]; intros found Hn; simpl.
  - reflexivity.
  - simpl in Hn. rewrite in_app_iff in Hn.
    rewrite AList_lookup_None by tauto. apply IH. tauto.
Qed.

(** C4. A name other than the two special ones that no typed or untyped
    service registers as a resource (for [-type resource]) or data source (for
    [-type data]) makes [getContent] return the error saying so, in the world
    it was called in: no system call is made and no file is touched. *)
Theorem getContent_unregistered (provider : Provider) (resourceName : string)
    (isResource : bool) (dltaPath outputType : string) (isForced : bool) (w : World) :
  resourceName <> "terraform_azurerm" ->
  resourceName <> "devops_pipeline" ->
  ~ In resourceName (registeredNames provider isResource) ->
  getContent provider resourceName isResource dltaPath outputType isForced w
  = (Done (Some ((if isResource then "Resource" else "Data Source")
                 +:+ " " +:+ fmt_q resourceName +:+ " was not registered!")), w).
Proof.
  intros Ha Hd Hn. unfold getContent, resolve.
  destruct (String.eqb_spec resourceName "terraform_azurerm") as [|_]; [contradiction|].
  destruct (String.eqb_spec resourceName "devops_pipeline") as [|_]; [contradiction|].
  cbn [negb andb]. unfold registeredNames in Hn. rewrite in_app_iff in Hn.
  rewrite resolveTyped_unregistered, resolveUntyped_unregistered.
  - unfold ret. destruct isResource; reflexivity.
  - rewrite map_map. intros H. apply Hn. right. destruct isResource; exact H.
  - rewrite map_map. intros H. apply Hn. left. destruct isResource; exact H.
Qed.

End Unregistered.

Lemma getContent_unregistered_witness :
  @getContent listedOrder exampleProvider "azurerm_missing" true "dlta" "scaffold" false
    (calmWorld ∅)
  = (Done (Some ("Resource " +:+ dq +:+ "azurerm_missing" +:+ dq +:+ " was not registered!")),
     calmWorld ∅).
Proof.
  apply (@getContent_unregistered listedOrder exampleProvider "azurerm_missing" true
           "dlta" "scaffold" false (calmWorld ∅)).
  - discriminate.
  - discriminate.
  - vm_compute. intros [H|[]]. discriminate.
Defined.

(** ** System calls in a world without faults *)

Lemma perform_calm (c : syscall) effect fs out sc uu :
  perform c effect (mkWorld fs out [] sc uu)
  = (Done (snd (effect fs)), mkWorld (fst (effect fs)) out [] (sc ++ [(c, snd (effect fs))]) uu).
Proof. unfold perform. simpl. now destruct (effect fs). Qed.

Lemma os_Stat_calm_present path fs out sc uu :
  is_Some (fs !! path) ->
  os_Stat path (mkWorld fs out [] sc uu)
  = (Done None, mkWorld fs out [] (sc ++ [(Stat path, None)]) uu).
Proof. intros [v Hv]. unfold os_Stat. rewrite perform_calm. simpl. now rewrite Hv. Qed.

Lemma os_Stat_calm_absent path fs out sc uu :
  fs !! path = None ->
  os_Stat path (mkWorld fs out [] sc uu)
  = (Done (Some ENOENT), mkWorld fs out [] (sc ++ [(Stat path, Some ENOENT)]) uu).
Proof. intros Hv. unfold os_Stat. rewrite perform_calm. simpl. now rewrite Hv. Qed.

Lemma os_Remove_calm_present path fs out sc uu :
  is_Some (fs !! path) ->
  os_Remove path (mkWorld fs out [] sc uu)
  = (Done None, mkWorld (delete path fs) out [] (sc ++ [(Remove path, None)]) uu).
Proof. intros [v Hv]. unfold os_Remove. rewrite perform_calm. now rewrite Hv. Qed.

Lemma os_MkdirAll_calm path fs out sc uu :
  os_MkdirAll path (mkWorld fs out [] sc uu)
  = (Done None, mkWorld fs out [] (sc ++ [(MkdirAll path, None)]) uu).
Proof. unfold os_MkdirAll. now rewrite perform_calm. Qed.

Lemma os_Create_calm path fs out sc uu :
  os_Create path (mkWorld fs out [] sc uu)
  = (Done (Some path, None),
     mkWorld (<[path := EmptyString]> fs) out [] (sc ++ [(Create path, None)]) uu).
Proof. unfold os_Create, bind. now rewrite perform_calm. Qed.

Lemma file_WriteString_calm path s fs out sc uu :
  file_WriteString (Some path) s (mkWorld fs out [] sc uu)
  = (Done None,
     mkWorld (<[path := default EmptyString (fs !! path) +:+ s]> fs) out []
       (sc ++ [(WriteString path s, None)]) uu).
Proof. unfold file_WriteString. now rewrite perform_calm. Qed.

Lemma file_Sync_calm path fs out sc uu :
  file_Sync (Some path) (mkWorld fs out [] sc uu)
  = (Done None, mkWorld fs out [] (sc ++ [(Sync path, None)]) uu).
Proof. unfold file_Sync. now rewrite perform_calm. Qed.

Lemma file_Close_calm path fs out sc uu :
  file_Close (Some path) (mkWorld fs out [] sc uu)
  = (Done None, mkWorld fs out [] (sc ++ [(Close path, None)]) uu).
Proof. unfold file_Close. now rewrite perform_calm. Qed.

Section Writing.

Context {rt : GoRuntime}.

(** What [os.Create] and the calls after it do once the file is known to be
    absent. *)
Lemma writeFile_calm_create who existsMessage dir path content fs out sc uu :
  fs !! path = None ->
  writeFile who existsMessage false dir path content (mkWorld fs out [] sc uu)
  = (Done tt,
     mkWorld (<[path := content]> fs) out []
       (sc ++ [(Stat path, Some ENOENT); (MkdirAll dir, None); (Create path, None);
               (WriteString path content, None); (Sync path, None); (Close path, None)])
       uu).
Proof.
  intros Habs. unfold writeFile, clearIfForced, createAndWrite.
  unfold bind at 1. unfold ret at 1.
  unfold bind at 1. rewrite (os_Stat_calm_absent _ _ _ _ _ Habs). cbn [isNil].
  unfold bind at 1. rewrite os_MkdirAll_calm. cbn [printError].
  unfold bind at 1. unfold ret at 1.
  unfold bind at 1. rewrite os_Create_calm. cbn [printError os_IsExist].
  unfold bind at 1. unfold ret at 1.
  unfold bind at 1. unfold ret at 1.
  unfold bind at 1. rewrite file_WriteString_calm.
  unfold bind at 1. rewrite file_Sync_calm.
  unfold bind at 1. rewrite file_Close_calm.
  rewrite lookup_insert_eq, insert_insert_eq. cbn [default]. rewrite app_empty_l.
  unfold ret. repeat rewrite <- app_assoc. reflexivity.
Qed.

Lemma writeFile_forced who existsMessage dir path content (w : World) :
  writeFile who existsMessage true dir path content w
  = match (let* err := os_Stat path in
           if isNil err then (os_Remove path ;; ret tt) else ret tt) w with
    | (Done _, w') => writeFile who existsMessage false dir path content w'
    | (Panicked, w') => (Panicked, w')
    end.
Proof.
  unfold writeFile, clearIfForced. unfold bind at 1.
  destruct ((let* err := os_Stat path in
             if isNil err then (os_Remove path ;; ret tt) else ret tt) w)
    as [[[]|] w']; reflexivity.
Qed.

(** The file is there and [-force] is not given: one [stat], one message. *)
Lemma writeFile_calm_kept who existsMessage dir path content fs out sc uu :
  is_Some (fs !! path) ->
  writeFile who existsMessage false dir path content (mkWorld fs out [] sc uu)
  = (Done tt, mkWorld fs (out ++ [existsMessage]) [] (sc ++ [(Stat path, None)]) uu).
Proof.
  intros Hpres. unfold writeFile, clearIfForced.
  unfold bind at 1. unfold ret at 1.
  unfold bind at 1. rewrite (os_Stat_calm_present _ _ _ _ _ Hpres). reflexivity.
Qed.

(** The file is there and [-force] is given: it is removed, created anew and
    written. *)
Lemma writeFile_calm_replaced who existsMessage dir path content fs out sc uu :
  is_Some (fs !! path) ->
  writeFile who existsMessage true dir path content (mkWorld fs out [] sc uu)
  = (Done tt,
     mkWorld (<[path := content]> fs) out []
       (sc ++ [(Stat path, None); (Remove path, None); (Stat path, Some ENOENT);
               (MkdirAll dir, None); (Create path, None);
               (WriteString path content, None); (Sync path, None); (Close path, None)])
       uu).
Proof.
  intros Hpres. rewrite writeFile_forced.
  unfold bind at 1. rewrite (os_Stat_calm_present _ _ _ _ _ Hpres). cbn [isNil].
  unfold bind at 1. rewrite os_Remove_calm_present by (rewrite app_nil_r || exact Hpres).
  unfold ret at 1.
  rewrite writeFile_calm_create by apply lookup_delete_eq.
  rewrite insert_delete_eq. repeat rewrite <- app_assoc. reflexivity.
Qed.

(** The file is absent and [-force] is given: nothing to remove. *)
Lemma writeFile_calm_forced_absent who existsMessage dir path content fs out sc uu :
  fs !! path = None ->
  writeFile who existsMessage true dir path content (mkWorld fs out [] sc uu)
  = (Done tt,
     mkWorld (<[path := content]> fs) out []
       (sc ++ [(Stat path, Some ENOENT); (Stat path, Some ENOENT);
               (MkdirAll dir, None); (Create path, None);
               (WriteString path content, None); (Sync path, None); (Close path, None)])
       uu).
Proof.
  intros Habs. rewrite writeFile_forced.
  unfold bind at 1. rewrite (os_Stat_calm_absent _ _ _ _ _ Habs). cbn [isNil].
  unfold ret at 1. rewrite writeFile_calm_create by exact Habs.
  repeat rewrite <- app_assoc. reflexivity.
Qed.

Lemma writeInitResourceProperties_writeFile gen r (w : World) :
  notSpecial gen = true -> resource gen = Some r ->
  writeInitResourceProperties gen w
  = match writeFile "initResourceProperties"
            (catStrings ["initResourceProperties "; dq; "3. File exists error"; dq; ": ";
                         propertiesFileName gen; nl])
            (isForced gen) (outputDirectoryName gen "resource") (propertiesFileName gen)
            (initContent gen r) w with
    | (Done _, w') => (Done EmptyString, w')
    | (Panicked, w') => (Panicked, w')
    end.
Proof.
  intros Hns Hr. unfold writeInitResourceProperties. rewrite Hns, Hr.
  unfold liftOption. unfold bind at 1. unfold bind at 1. unfold ret at 1.
  fold (initContent gen r).
  destruct (writeFile _ _ _ _ _ _ w) as [[[]|] w']; reflexivity.
Qed.

Lemma writeResource_writeFile gen s a (w : World) :
  writeResource gen s a w
  = match writeFile "writeResource"
            (catStrings ["writeResource "; dq; "3. File exists error"; dq; "  on path: ";
                         artefactPath gen a; nl])
            (isForced gen) (outputDirectoryName gen (snd (artefactFile a)))
            (artefactPath gen a) s w with
    | (Done _, w') => (Done EmptyString, w')
    | (Panicked, w') => (Panicked, w')
    end.
Proof.
  unfold writeResource. unfold bind at 1.
  destruct (writeFile _ _ _ _ _ _ w) as [[[]|] w']; reflexivity.
Qed.


End Writing.


(** ** Computations that leave the files alone *)

Lemma since_refl (w : World) : since w w [] [].
Proof. split; now rewrite app_nil_r. Qed.

Lemma since_trans (w w1 w2 : World) t1 o1 t2 o2 :
  since w w1 t1 o1 -> since w1 w2 t2 o2 -> since w w2 (t1 ++ t2) (o1 ++ o2).
Proof.
  intros [Ht1 Ho1] [Ht2 Ho2]. split.
  - now rewrite Ht2, Ht1, <- app_assoc.
  - now rewrite Ho2, Ho1, <- app_assoc.
Qed.

Lemma extends_refl (w : World) : extends w w.
Proof. exists [], []. apply since_refl. Qed.

Lemma extends_trans (w w1 w2 : World) : extends w w1 -> extends w1 w2 -> extends w w2.
Proof.
  intros (t1 & o1 & H1) (t2 & o2 & H2). exists (t1 ++ t2), (o1 ++ o2).
  exact (since_trans _ _ _ _ _ _ _ H1 H2).
Qed.

(** Every system call returns, having recorded itself with its outcome. *)
Lemma perform_since (c : syscall) effect (w : World) :
  exists err w', perform c effect w = (Done err, w') /\ since w w' [(c, err)] [].
Proof.
  unfold perform.
  destruct (faults w) as [|[e|] rest]; try destruct (effect (files w)) as [fs' err];
    eexists _, _; (split; [reflexivity|]); split; simpl; now rewrite ?app_nil_r.
Qed.

Lemma fmt_Printf_since (s : string) (w : World) :
  exists w', fmt_Printf s w = (Done tt, w') /\ since w w' [] [s].
Proof.
  eexists. split; [reflexivity|]. split; simpl; now rewrite ?app_nil_r.
Qed.

(** The outcome of a system call in full: the fault imposed on it, or what
    the files make of it. *)
Lemma perform_result (c : syscall) effect (w : World) :
  exists fs' fl',
    perform c effect w
    = (Done (callResult (faults w) (snd (effect (files w)))),
       mkWorld fs' (stdout w) fl'
         (syscalls w ++ [(c, callResult (faults w) (snd (effect (files w))))]) (uuids w))
    /\ fl' = tail (faults w)
    /\ (callResult (faults w) (snd (effect (files w))) = snd (effect (files w)) \/ fs' = files w)
    /\ (fst (effect (files w)) = files w -> fs' = files w).
Proof.
  unfold perform. destruct w as [fs out fl sc uu]. cbn [faults files stdout syscalls uuids].
  destruct fl as [|[e|] fl']; cbn [callResult tail].
  - destruct (effect fs) as [fs' err] eqn:E. eexists _, _. cbn [fst snd]. repeat split; auto.
  - eexists _, _. cbn [fst snd]. repeat split; auto.
  - destruct (effect fs) as [fs' err] eqn:E. eexists _, _. cbn [fst snd]. repeat split; auto.
Qed.

Lemma perform_imposed (c : syscall) effect (w : World) f rest :
  faults w = f :: rest ->
  perform c effect w
  = (Done (match f with Some e => Some e | None => snd (effect (files w)) end),
     mkWorld (match f with Some _ => files w | None => fst (effect (files w)) end)
       (stdout w) rest
       (syscalls w ++ [(c, match f with Some e => Some e | None => snd (effect (files w)) end)])
       (uuids w)).
Proof.
  intros Hf. unfold perform. rewrite Hf. destruct f; [reflexivity|].
  now destruct (effect (files w)).
Qed.

Lemma reads_ret {A : Type} (a : A) : reads (ret a).
Proof. intros w r w' E. injection E as _ <-. repeat split; auto using extends_refl. Qed.

Lemma reads_panic {A : Type} : reads (@panic A).
Proof. intros w r w' E. injection E as _ <-. repeat split; auto using extends_refl. Qed.

Lemma reads_bind {A B : Type} (m : M A) (k : A -> M B) :
  reads m -> (forall a, reads (k a)) -> reads (bind m k).
Proof.
  intros Hm Hk w r w' E. unfold bind in E.
  destruct (m w) as [[a|] w1] eqn:E1.
  - destruct (Hm _ _ _ E1) as (Hf1 & Hc1 & He1).
    destruct (Hk a _ _ _ E) as (Hf2 & Hc2 & He2).
    split; [congruence | split; [auto | eauto using extends_trans]].
  - injection E as _ <-. exact (Hm _ _ _ E1).
Qed.

Lemma reads_perform (c : syscall) effect :
  (forall fs, fst (effect fs) = fs) -> reads (perform c effect).
Proof.
  intros Heff w r w' E.
  assert (Hext : extends w w').
  { destruct (perform_since c effect w) as (err & w1 & E1 & Hs).
    rewrite E1 in E. injection E as _ <-. now exists [(c, err)], []. }
  split; [|split; [|exact Hext]]; unfold perform in E;
    destruct (faults w) as [|[e|] rest] eqn:Ef;
    try (specialize (Heff (files w)); destruct (effect (files w)) as [fs' err]);
    injection E as _ <-; simpl in *; congruence.
Qed.

Lemma reads_fmt_Printf (s : string) : reads (fmt_Printf s).
Proof.
  intros w r w' E. destruct (fmt_Printf_since s w) as (w1 & E1 & Hs).
  rewrite E1 in E. injection E as _ <-.
  repeat split; [| |now exists [], [s]]; injection E1 as <-; auto.
Qed.

Lemma reads_uuid_New : reads uuid_New.
Proof.
  intros w r w' E. injection E as _ <-. repeat split; auto.
  exists [], []. split; simpl; now rewrite app_nil_r.
Qed.

Lemma reads_os_Stat (path : string) : reads (os_Stat path).
Proof. apply reads_perform. reflexivity. Qed.

Lemma reads_os_ReadFile (path : string) : reads (os_ReadFile path).
Proof.
  intros w r w' E. unfold os_ReadFile in E.
  destruct (perform _ _ w) as [[[e|]|] w1] eqn:E1; injection E as _ <-;
    (eapply reads_perform; [|exact E1]; reflexivity).
Qed.

Section Reading.

Context {rt : GoRuntime}.

Lemma reads_readResourceProperties (gen : documentationGenerator) :
  reads (readResourceProperties gen).
Proof.
  unfold readResourceProperties. destruct (notSpecial gen); [|apply reads_ret].
  destruct (filepath_Abs (propertiesFileName gen)) as [outputPath|err].
  - apply reads_bind; [apply reads_os_Stat|]. intros err.
    destruct (negb (isNil err)).
    + repeat (apply reads_bind; [apply reads_fmt_Printf|]; intros _). apply reads_ret.
    + apply reads_bind; [apply reads_os_ReadFile|]. intros [content|e].
      * apply reads_ret.
      * apply reads_bind; [apply reads_fmt_Printf|]. intros _. apply reads_ret.
  - apply reads_bind; [apply reads_fmt_Printf|]. intros _. apply reads_ret.
Qed.

Lemma reads_injectAttributes (gen : documentationGenerator) :
  reads (injectAttributes gen).
Proof.
  unfold injectAttributes, getPublishedAttributes.
  apply reads_bind; [|intros; apply reads_ret].
  destruct (resource gen); [|apply reads_ret].
  apply reads_bind; [apply reads_readResourceProperties | intros; apply reads_ret].
Qed.

Lemma reads_terraformTemplateBlock gen : reads (terraformTemplateBlock gen).
Proof. apply reads_bind; [apply reads_injectAttributes | intros; apply reads_ret]. Qed.

Lemma reads_terraformModuleBlock gen : reads (terraformModuleBlock gen).
Proof. apply reads_bind; [apply reads_injectAttributes | intros; apply reads_ret]. Qed.

Lemma reads_terraformVariableBlock gen : reads (terraformVariableBlock gen).
Proof. apply reads_bind; [apply reads_injectAttributes | intros; apply reads_ret]. Qed.

Lemma reads_terraformLocalBlock gen : reads (terraformLocalBlock gen).
Proof.
  apply reads_bind; [apply reads_injectAttributes|]. intros attributes.
  unfold liftOption. destruct (localText _ _); [apply reads_ret | apply reads_panic].
Qed.

Lemma reads_terraformOutputBlock gen : reads (terraformOutputBlock gen).
Proof. unfold terraformOutputBlock. destruct (resource gen); apply reads_ret. Qed.

Lemma reads_getPalletProp gen at_ name : reads (getPalletProp gen at_ name).
Proof.
  unfold getPalletProp. destruct (String.eqb name "dlta_terraform_template").
  - apply reads_bind; [apply reads_terraformTemplateBlock | intros; apply reads_ret].
  - apply reads_ret.
Qed.

Lemma reads_appendEach {A : Type} f (m : list (string * A)) (props : list PaletteProp.t) :
  (forall k v props, reads (f k v props)) -> reads (appendEach f m props).
Proof.
  intros Hf. revert props. induction m as [|[k v] m IH]; intros props; simpl.
  - apply reads_ret.
  - apply reads_bind; [apply Hf | intros; apply IH].
Qed.

Lemma reads_paletteTop gen n fs props : reads (paletteTop gen n fs props).
Proof.
  unfold paletteTop. destruct (String.eqb n "name"); [apply reads_ret|].
  apply reads_bind; [apply reads_getPalletProp|]. intros item.
  destruct (IsBlock fs); [|apply reads_ret].
  apply reads_appendEach. intros k v p. unfold paletteSecond.
  destruct (negb (IsBlock v)).
  - apply reads_bind; [apply reads_getPalletProp | intros; apply reads_ret].
  - apply reads_appendEach. intros k2 v2 p2. unfold paletteThird.
    apply reads_bind; [apply reads_getPalletProp | intros; apply reads_ret].
Qed.

Lemma reads_paletteControls gen attributes : reads (paletteControls gen attributes).
Proof.
  unfold paletteControls.
  apply reads_bind; [apply reads_getPalletProp|]. intros assetType.
  apply reads_bind.
  - destruct (notSpecial gen && negb (isDataSource gen)); [|apply reads_ret].
    apply reads_bind; [apply reads_getPalletProp | intros; apply reads_ret].
  - intros props. apply reads_appendEach. apply reads_paletteTop.
Qed.

Lemma reads_dltaPalletteCodeBlock gen : reads (dltaPalletteCodeBlock gen).
Proof.
  unfold dltaPalletteCodeBlock, paletteBlockWith.
  apply reads_bind; [apply reads_injectAttributes|]. intros attributes.
  apply reads_bind; [apply reads_uuid_New|]. intros guid.
  apply reads_bind; [apply reads_paletteControls | intros; apply reads_ret].
Qed.

Lemma total_terraformModuleBlock gen : total (terraformModuleBlock gen).
Proof. apply total_bind; [apply total_injectAttributes | intros; apply total_ret]. Qed.

Lemma total_terraformVariableBlock gen : total (terraformVariableBlock gen).
Proof. apply total_bind; [apply total_injectAttributes | intros; apply total_ret]. Qed.

Lemma total_terraformOutputBlock gen : total (terraformOutputBlock gen).
Proof. unfold terraformOutputBlock. destruct (resource gen); apply total_ret. Qed.

Lemma total_dltaPalletteCodeBlock gen : total (dltaPalletteCodeBlock gen).
Proof.
  unfold dltaPalletteCodeBlock, paletteBlockWith.
  apply total_bind; [apply total_injectAttributes|]. intros attributes.
  apply total_bind; [intros w; unfold uuid_New; eauto|]. intros guid.
  apply total_bind; [apply total_paletteControls | intros; apply total_ret].
Qed.

End Reading.

(** ** The paths of the artefacts *)

Lemma string_app_inv_head (p a b : string) : p +:+ a = p +:+ b -> a = b.
Proof.
  induction p as [|c p IH]; [easy|]. rewrite !app_String. intros H.
  injection H as H. now apply IH.
Qed.

Lemma artefactPath_split (gen : documentationGenerator) (a : Artefact) :
  artefactPath gen a = artefactPrefix gen +:+ artefactSuffix a.
Proof.
  unfold artefactPath, artefactPrefix, artefactSuffix. cbn [catStrings fold_right].
  rewrite !string_app_assoc. now rewrite string_app_nil_r.
Qed.

Lemma artefactPath_inj (gen : documentationGenerator) (a b : Artefact) :
  artefactPath gen a = artefactPath gen b -> a = b.
Proof.
  rewrite !artefactPath_split. intros H. apply string_app_inv_head in H.
  destruct a, b; try reflexivity; discriminate H.
Qed.

Section Scaffold.

Context {rt : GoRuntime}.

Lemma writeResource_calm gen s a (w : World) :
  faults w = [] ->
  isForced gen = true \/ files w !! artefactPath gen a = None ->
  exists w',
    writeResource gen s a w = (Done EmptyString, w')
    /\ files w' = <[artefactPath gen a := s]> (files w)
    /\ faults w' = [].
Proof.
  intros Hcalm Hfree. destruct w as [fs out fl sc uu]. simpl in *. subst fl.
  rewrite writeResource_writeFile.
  destruct (isForced gen) eqn:Hforce.
  - destruct (fs !! artefactPath gen a) as [old|] eqn:Hold.
    + rewrite writeFile_calm_replaced by eauto. eexists. now repeat split.
    + rewrite writeFile_calm_forced_absent by exact Hold. eexists. now repeat split.
  - destruct Hfree as [|Habs]; [discriminate|].
    rewrite writeFile_calm_create by exact Habs. eexists. now repeat split.
Qed.

Lemma writeInitResourceProperties_calm gen r (w : World) :
  notSpecial gen = true -> resource gen = Some r ->
  faults w = [] ->
  isForced gen = true \/ files w !! propertiesFileName gen = None ->
  exists w',
    writeInitResourceProperties gen w = (Done EmptyString, w')
    /\ files w' = <[propertiesFileName gen := initContent gen r]> (files w).
Proof.
  intros Hns Hr Hcalm Hfree. destruct w as [fs out fl sc uu]. simpl in *. subst fl.
  rewrite (writeInitResourceProperties_writeFile gen r) by assumption.
  destruct (isForced gen) eqn:Hforce.
  - destruct (fs !! propertiesFileName gen) as [old|] eqn:Hold.
    + rewrite writeFile_calm_replaced by eauto. eexists. now split.
    + rewrite writeFile_calm_forced_absent by exact Hold. eexists. now split.
  - destruct Hfree as [|Habs]; [discriminate|].
    rewrite writeFile_calm_create by exact Habs. eexists. now split.
Qed.

End Scaffold.

(** ** What the three output types write *)

Section Artefacts.

Context {rt : GoRuntime}.

Lemma readResourceProperties_value gen (w : World) r w' :
  readResourceProperties gen w = (r, w') ->
  r = Done ∅ \/ exists content, r = Done (json_Unmarshal_summary content).
Proof.
  unfold readResourceProperties. destruct (notSpecial gen).
  2:{ intros E. injection E as <- _. now left. }
  destruct (filepath_Abs (propertiesFileName gen)) as [outputPath|err].
  2:{ intros E. injection E as <- _. now left. }
  unfold bind at 1.
  destruct (total_perform (Stat outputPath)
              (fun fs => (fs, if fs !! outputPath is Some _ then None else Some ENOENT)) w)
    as (err & w1 & E1).
  unfold os_Stat. rewrite E1. destruct err as [e|]; cbn [isNil negb].
  - intros E. injection E as <- _. now left.
  - unfold bind at 1. destruct (total_os_ReadFile outputPath w1) as ([c|e] & w2 & E2);
      rewrite E2; intros E; injection E as <- _; [right; eauto | now left].
Qed.

(** A block that returns, and the write of its text where nothing fails. *)
Lemma emits_step (block : M string) gen a (w : World) s v :
  reads block ->
  faults w = [] ->
  isForced gen = true \/ files w !! artefactPath gen a = None ->
  block w = (Done s, v) ->
  exists w',
    emits gen block a w s w'
    /\ forall k : M string, (let* s := block in writeResource gen s a ;; k) w = k w'.
Proof.
  intros Hreads Hcalm Hfree E1.
  destruct (Hreads _ _ _ E1) as (Hfiles & Hcalm1 & _). specialize (Hcalm1 Hcalm).
  destruct (writeResource_calm gen s a v Hcalm1) as (w' & E2 & Hfiles2 & Hcalm2).
  { rewrite Hfiles. exact Hfree. }
  exists w'. split.
  - exists v. split; [exact E1|]. split; [exact E2|]. split; [|exact Hcalm2].
    now rewrite Hfiles2, Hfiles.
  - intros k. unfold bind at 1. rewrite E1. unfold bind at 1. now rewrite E2.
Qed.

Lemma emits_total (block : M string) gen a (w : World) :
  reads block -> total block ->
  faults w = [] ->
  isForced gen = true \/ files w !! artefactPath gen a = None ->
  exists s w',
    emits gen block a w s w'
    /\ forall k : M string, (let* s := block in writeResource gen s a ;; k) w = k w'.
Proof.
  intros Hreads Htotal Hcalm Hfree. destruct (Htotal w) as (s & v & E).
  destruct (emits_step block gen a w s v Hreads Hcalm Hfree E) as (w' & H). now exists s, w'.
Qed.

(** C1, amended. Once the name is resolved and its short code computed, in
    a world in which no system call fails.  With output type [scaffold],
    the six files being absent or [-force] given, the generator computes and
    writes the template, the module block and the variable block, each text
    to its file; then either the local block panics, and the run with it,
    having written these three files only; or the local block, the palette
    script and the output block are computed and written as well, each in
    the world its predecessor left, and the files are then those of the
    start with the six texts at [resource/template.json], [module/main.tf],
    [module/variables.tf], [module/local.tf], [resource/pallette.sql] and
    [module/output.tf] under [/<dlta>/<r|d>/<name>/], six distinct paths.
    With output type [init]: for a registered resource, the property file
    being absent or [-force] given, the one file
    [<dlta>/<r|d>/<name>/resource/<name>.json] is written, holding the
    property summary; for a special name nothing is written.  With any other
    output type no system call is made and the files are left as they are. *)
Theorem getContent_artefacts (provider : Provider) (resourceName : string)
    (isResource : bool) (dltaPath : string) (isForced : bool)
    (res : option schema.Resource) (shortCode : string) (w : World) :
  resolve provider resourceName isResource = inr res ->
  getResourceShortCode resourceName = Some shortCode ->
  faults w = [] ->
  let gen := generatorFor res resourceName isResource dltaPath isForced shortCode in
  (isForced = true
   \/ (forall a, In a scaffoldArtefacts -> files w !! artefactPath gen a = None) ->
   exists template module_ variable w1 w2 w3,
     emits gen (terraformTemplateBlock gen) TerraformTemplate w template w1
     /\ emits gen (terraformModuleBlock gen) ModuleBlock w1 module_ w2
     /\ emits gen (terraformVariableBlock gen) VariableBlock w2 variable w3
     /\ ((exists w',
            terraformLocalBlock gen w3 = (Panicked, w')
            /\ getContent provider resourceName isResource dltaPath "scaffold" isForced w
               = (Panicked, w')
            /\ files w' = <[artefactPath gen VariableBlock := variable]>
                            (<[artefactPath gen ModuleBlock := module_]>
                               (<[artefactPath gen TerraformTemplate := template]>
                                  (files w))))
         \/ (exists local_ pallette output w4 w5 w6,
               emits gen (terraformLocalBlock gen) LocalBlock w3 local_ w4
               /\ emits gen (dltaPalletteCodeBlock gen) PalletteBlock w4 pallette w5
               /\ emits gen (terraformOutputBlock gen) OutputBlock w5 output w6
               /\ getContent provider resourceName isResource dltaPath "scaffold" isForced w
                  = (Done None, w6)
               /\ files w6 = scaffoldFiles gen (files w) template module_ variable local_
                               pallette output)))
  /\ map (artefactPath gen) scaffoldArtefacts
     = map (fun suffix => artefactPrefix gen +:+ suffix)
         ["resource/template.json"; "module/main.tf"; "module/variables.tf";
          "module/local.tf"; "resource/pallette.sql"; "module/output.tf"]
  /\ NoDup (map (artefactPath gen) scaffoldArtefacts)
  /\ (forall r,
        res = Some r ->
        isForced = true \/ files w !! propertiesFileName gen = None ->
        exists w',
          getContent provider resourceName isResource dltaPath "init" isForced w
          = (Done None, w')
          /\ files w' = <[propertiesFileName gen := initContent gen r]> (files w))
  /\ (res = None ->
      getContent provider resourceName isResource dltaPath "init" isForced w
      = (Done None, w))
  /\ (forall outputType,
        outputType <> "init" -> outputType <> "scaffold" ->
        getContent provider resourceName isResource dltaPath outputType isForced w
        = (Done None, w)).
Proof.
  intros Hres Hshort Hcalm gen.
  assert (Hget : forall outputType,
            getContent provider resourceName isResource dltaPath outputType isForced w
            = ((if String.eqb outputType "init"
                then writeInitResourceProperties gen ;; ret tt
                else if String.eqb outputType "scaffold"
                     then scaffoldConfiguation gen ;; ret tt
                     else ret tt) ;; ret None) w).
  { intros outputType. unfold getContent. rewrite Hres, Hshort. reflexivity. }
  split; [|split; [|split; [|split; [|split]]]].
  - intros Hfree.
    assert (Hfresh : forall a b s (fs : gmap string string),
              a <> b ->
              isForced = true \/ fs !! artefactPath gen b = None ->
              isForced = true
              \/ <[artefactPath gen a := s]> fs !! artefactPath gen b = None).
    { intros a b s fs Hab [Hf|Hn]; [now left | right].
      rewrite lookup_insert_ne; [exact Hn|]. intros H. apply Hab.
      now apply artefactPath_inj in H. }
    assert (Hfree' : forall a, In a scaffoldArtefacts ->
              isForced = true \/ files w !! artefactPath gen a = None).
    { intros a Ha. destruct Hfree as [Hf|Hn]; [now left | right; now apply Hn]. }
    pose proof (Hget "scaffold") as Hrun. cbn [String.eqb Ascii.eqb Bool.eqb] in Hrun.
    unfold scaffoldConfiguation in Hrun.
    destruct (emits_total (terraformTemplateBlock gen) gen TerraformTemplate w
                (reads_terraformTemplateBlock gen) (total_terraformTemplateBlock gen) Hcalm)
      as (t & w1 & Ht & E1); [apply Hfree'; simpl; tauto|].
    pose proof Ht as (_ & _ & _ & Hf1 & Hc1).
    destruct (emits_total (terraformModuleBlock gen) gen ModuleBlock w1
                (reads_terraformModuleBlock gen) (total_terraformModuleBlock gen) Hc1)
      as (m & w2 & Hm & E2).
    { rewrite Hf1. apply Hfresh; [discriminate|]. apply Hfree'; simpl; tauto. }
    pose proof Hm as (_ & _ & _ & Hf2 & Hc2).
    destruct (emits_total (terraformVariableBlock gen) gen VariableBlock w2
                (reads_terraformVariableBlock gen) (total_terraformVariableBlock gen) Hc2)
      as (v & w3 & Hv & E3).
    { rewrite Hf2, Hf1. do 2 (apply Hfresh; [discriminate|]). apply Hfree'; simpl; tauto. }
    pose proof Hv as (_ & _ & _ & Hf3 & Hc3).
    exists t, m, v, w1, w2, w3. do 3 (split; [assumption|]).
    unfold bind at 1 in Hrun. unfold bind at 1 in Hrun. rewrite E1, E2, E3 in Hrun.
    destruct (terraformLocalBlock gen w3) as [[l|] w3'] eqn:E4.
    + right.
      destruct (emits_step (terraformLocalBlock gen) gen LocalBlock w3 l w3'
                  (reads_terraformLocalBlock gen) Hc3) as (w4 & Hl & E4'); [|exact E4|].
      { rewrite Hf3, Hf2, Hf1. do 3 (apply Hfresh; [discriminate|]).
        apply Hfree'; simpl; tauto. }
      pose proof Hl as (_ & _ & _ & Hf4 & Hc4).
      destruct (emits_total (dltaPalletteCodeBlock gen) gen PalletteBlock w4
                  (reads_dltaPalletteCodeBlock gen) (total_dltaPalletteCodeBlock gen) Hc4)
        as (p & w5 & Hp & E5).
      { rewrite Hf4, Hf3, Hf2, Hf1. do 4 (apply Hfresh; [discriminate|]).
        apply Hfree'; simpl; tauto. }
      pose proof Hp as (_ & _ & _ & Hf5 & Hc5).
      destruct (emits_total (terraformOutputBlock gen) gen OutputBlock w5
                  (reads_terraformOutputBlock gen) (total_terraformOutputBlock gen) Hc5)
        as (o & w6 & Ho & E6).
      { rewrite Hf5, Hf4, Hf3, Hf2, Hf1. do 5 (apply Hfresh; [discriminate|]).
        apply Hfree'; simpl; tauto. }
      pose proof Ho as (_ & _ & _ & Hf6 & _).
      exists l, p, o, w4, w5, w6. do 3 (split; [assumption|]).
      rewrite Hrun, E4', E5, E6. split; [reflexivity|].
      unfold scaffoldFiles. now rewrite Hf6, Hf5, Hf4, Hf3, Hf2, Hf1.
    + left. exists w3'. split; [reflexivity|]. split.
      * rewrite Hrun. unfold bind at 1. now rewrite E4.
      * destruct (reads_terraformLocalBlock gen _ _ _ E4) as (Hf & _).
        now rewrite Hf, Hf3, Hf2, Hf1.
  - unfold scaffoldArtefacts. cbn [map]. rewrite !artefactPath_split. reflexivity.
  - apply NoDup_fmap_2; [intros a b; apply artefactPath_inj|].
    unfold scaffoldArtefacts. apply NoDup_ListNoDup.
    repeat (constructor; [simpl; intuition discriminate|]). constructor.
  - intros r -> Hfree.
    assert (Hns : notSpecial gen = true).
    { change (notSpecial gen)
        with (negb (String.eqb resourceName "terraform_azurerm")
              && negb (String.eqb resourceName "devops_pipeline")).
      unfold resolve in Hres.
      destruct (negb (String.eqb resourceName "terraform_azurerm")
                && negb (String.eqb resourceName "devops_pipeline")); [reflexivity|].
      discriminate. }
    destruct (writeInitResourceProperties_calm gen r w Hns eq_refl Hcalm Hfree)
      as (w' & E & Hfiles).
    exists w'. rewrite Hget. cbn [String.eqb Ascii.eqb Bool.eqb].
    unfold bind. rewrite E. now split.
  - intros ->. rewrite Hget. cbn [String.eqb Ascii.eqb Bool.eqb].
    assert (Hns : notSpecial gen = false).
    { change (notSpecial gen)
        with (negb (String.eqb resourceName "terraform_azurerm")
              && negb (String.eqb resourceName "devops_pipeline")).
      unfold resolve in Hres.
      destruct (negb (String.eqb resourceName "terraform_azurerm")
                && negb (String.eqb resourceName "devops_pipeline")); [|reflexivity].
      destruct (resolveTyped _ _ _ _); [discriminate|].
      destruct (resolveUntyped _ _ _); discriminate. }
    unfold writeInitResourceProperties. rewrite Hns. reflexivity.
  - intros outputType Hi Hs. rewrite Hget.
    destruct (String.eqb_spec outputType "init"); [contradiction|].
    destruct (String.eqb_spec outputType "scaffold"); [contradiction|].
    reflexivity.
Qed.

End Artefacts.

Lemma total_terraformLocalBlock_example (w : World) :
  exists s w',
    @terraformLocalBlock listedOrder
      (generatorFor (Some (schema.mkResource groupSchema)) "azurerm_example" true "dlta"
         false "ae") w
    = (Done s, w').
Proof.
  unfold terraformLocalBlock, injectAttributes, getPublishedAttributes.
  cbn [resource generatorFor]. unfold bind.
  destruct (@readResourceProperties listedOrder _ w) as [r w'] eqn:E.
  apply (@readResourceProperties_value listedOrder) in E.
  destruct E as [-> | (content & ->)]; eexists _, w'; reflexivity.
Qed.

Lemma getContent_artefacts_witness :
  exists w',
    @getContent listedOrder exampleProvider "azurerm_example" true "dlta" "scaffold" false
      (calmWorld ∅)
    = (Done None, w')
    /\ forall a, In a scaffoldArtefacts ->
         is_Some (files w' !! artefactPath
                    (generatorFor (Some (schema.mkResource groupSchema)) "azurerm_example"
                       true "dlta" false "ae") a).
Proof.
  destruct (proj1 (@getContent_artefacts listedOrder exampleProvider "azurerm_example" true
                     "dlta" false (Some (schema.mkResource groupSchema)) "ae" (calmWorld ∅)
                     eq_refl eq_refl eq_refl))
    as (t & m & v & w1 & w2 & w3 & _ & _ & _ & [(w' & Hp & _)|H]).
  - right. intros a _. apply lookup_empty.
  - exfalso. destruct (total_terraformLocalBlock_example w3) as (s & w4 & E). congruence.
  - destruct H as (l & p & o & w4 & w5 & w6 & _ & _ & _ & E & Hfiles).
    exists w6. split; [exact E|]. intros a Ha. rewrite Hfiles. unfold scaffoldFiles.
    simpl in Ha.
    destruct Ha as [<-|[<-|[<-|[<-|[<-|[<-|[]]]]]]];
      repeat first [ rewrite lookup_insert_eq; eauto
                   | rewrite lookup_insert_ne
                       by (intros H; apply artefactPath_inj in H; discriminate H) ].
Defined.

(** A registered resource, after [init], on which [scaffold] panics: the
    template, the module block and the variable block are written and the
    other three artefacts are not.  And for a special name [init] writes
    nothing. *)
Lemma scaffold_panics_after_three_files :
  @resolve listedOrder gapProvider "azurerm_example" true
  = inr (Some (schema.mkResource gapSchema))
  /\ getResourceShortCode "azurerm_example" = Some "ae"
  /\ (exists w',
        @getContent (decoding gapSummary) gapProvider "azurerm_example" true "dlta"
          "scaffold" false gapWorld = (Panicked, w')
        /\ is_Some (files w' !! "/dlta/r/azurerm_example/resource/template.json")
        /\ is_Some (files w' !! "/dlta/r/azurerm_example/module/main.tf")
        /\ is_Some (files w' !! "/dlta/r/azurerm_example/module/variables.tf")
        /\ files w' !! "/dlta/r/azurerm_example/module/local.tf" = None
        /\ files w' !! "/dlta/r/azurerm_example/resource/pallette.sql" = None
        /\ files w' !! "/dlta/r/azurerm_example/module/output.tf" = None)
  /\ @resolve listedOrder gapProvider "terraform_azurerm" true = inr None
  /\ @getContent listedOrder gapProvider "terraform_azurerm" true "dlta" "init" false
       (calmWorld ∅) = (Done None, calmWorld ∅).
Proof.
  split; [reflexivity|]. split; [reflexivity|]. split.
  - eexists. split; [vm_compute; reflexivity|].
    do 3 (split; [vm_compute; eauto|]). repeat split; vm_compute; reflexivity.
  - split; [reflexivity | vm_compute; reflexivity].
Qed.

(** ** What the writing functions do whatever fails *)

Section Keeps.

Context {rt : GoRuntime}.

Variable who : string.
Variable P : list (syscall * option errno) -> list string -> Prop.

Hypothesis P_nil : P [] [].
Hypothesis P_app :
  forall t1 o1 t2 o2, P t1 o1 -> P t2 o2 -> P (t1 ++ t2) (o1 ++ o2).
Hypothesis P_print : forall s, P [] [s].
Hypothesis P_other : forall c err, creation c = false -> P [(c, err)] [].
Hypothesis P_done : forall c, P [(c, None)] [].
Hypothesis P_failed :
  forall c e label,
    creation c = true -> In label creationLabels ->
    P [(c, Some e)] [errorLine who label c e].

Lemma keeps_ret {A : Type} (a : A) : keeps P (ret a).
Proof.
  intros w r w' E. injection E as _ <-. exists [], []. split; [apply since_refl | exact P_nil].
Qed.

Lemma keeps_bind {A B : Type} (m : M A) (k : A -> M B) :
  keeps P m -> (forall a, keeps P (k a)) -> keeps P (bind m k).
Proof.
  intros Hm Hk w r w' E. unfold bind in E.
  destruct (m w) as [[a|] w1] eqn:E1.
  - destruct (Hm _ _ _ E1) as (t1 & o1 & Hs1 & HP1).
    destruct (Hk a _ _ _ E) as (t2 & o2 & Hs2 & HP2).
    exists (t1 ++ t2), (o1 ++ o2). split; [eapply since_trans; eassumption | auto].
  - injection E as _ <-. exact (Hm _ _ _ E1).
Qed.

Lemma keeps_fmt_Printf (s : string) : keeps P (fmt_Printf s).
Proof.
  intros w r w' E. destruct (fmt_Printf_since s w) as (w1 & E1 & Hs).
  rewrite E1 in E. injection E as _ <-. exists [], [s]. split; [exact Hs | apply P_print].
Qed.

Lemma keeps_perform (c : syscall) effect :
  creation c = false -> keeps P (perform c effect).
Proof.
  intros Hc w r w' E. destruct (perform_since c effect w) as (err & w1 & E1 & Hs).
  rewrite E1 in E. injection E as _ <-. exists [(c, err)], []. split; [exact Hs | now apply P_other].
Qed.

Lemma keeps_file_WriteString file s : keeps P (file_WriteString file s).
Proof. destruct file; [now apply keeps_perform | apply keeps_ret]. Qed.

Lemma keeps_file_Sync file : keeps P (file_Sync file).
Proof. destruct file; [now apply keeps_perform | apply keeps_ret]. Qed.

Lemma keeps_file_Close file : keeps P (file_Close file).
Proof. destruct file; [now apply keeps_perform | apply keeps_ret]. Qed.

(** A creating call followed by the report of its error. *)
Lemma keeps_reported {A : Type} (c : syscall) effect label (k : option errno -> M A) :
  creation c = true -> In label creationLabels ->
  (forall err, keeps P (k err)) ->
  keeps P (let* err := perform c effect in printError who label c err ;; k err).
Proof.
  intros Hc Hl Hk w r w' E. unfold bind at 1 in E.
  destruct (perform_since c effect w) as (err & w1 & E1 & Hs1). rewrite E1 in E.
  destruct err as [e|]; cbn [printError] in E; unfold bind at 1 in E.
  - destruct (fmt_Printf_since (errorLine who label c e) w1) as (w2 & E2 & Hs2).
    rewrite E2 in E. destruct (Hk _ _ _ _ E) as (t & o & Hs & HP).
    exists ([(c, Some e)] ++ [] ++ t), ([] ++ [errorLine who label c e] ++ o). split.
    + eapply since_trans; [exact Hs1|]. eapply since_trans; eassumption.
    + apply (P_app [(c, Some e)] [errorLine who label c e]); [now apply P_failed | exact HP].
  - unfold ret at 1 in E. destruct (Hk _ _ _ _ E) as (t & o & Hs & HP).
    exists ([(c, None)] ++ t), ([] ++ o). split.
    + eapply since_trans; eassumption.
    + apply (P_app [(c, None)] []); [apply P_done | exact HP].
Qed.

Lemma keeps_created {A : Type} path label (k : option string -> option errno -> M A) :
  In label creationLabels ->
  (forall file err, keeps P (k file err)) ->
  keeps P (let* (file, err) := os_Create path in
           printError who label (Create path) err ;; k file err).
Proof.
  intros Hl Hk w r w' E.
  apply (keeps_reported (Create path)
           (fun fs => (<[path := EmptyString]> fs, None)) label
           (fun err => k (match err with None => Some path | Some _ => None end) err)
           eq_refl Hl (fun err => Hk _ err) w r w').
  rewrite <- E. unfold os_Create. unfold bind at 1 3 4.
  destruct (perform _ _ w) as [[[e|]|] w1]; reflexivity.
Qed.

Lemma keeps_clearIfForced forced path : keeps P (clearIfForced forced path).
Proof.
  unfold clearIfForced. destruct forced; [|apply keeps_ret].
  apply keeps_bind; [now apply keeps_perform|]. intros err.
  destruct (isNil err); [|apply keeps_ret].
  apply keeps_bind; [now apply keeps_perform | intros; apply keeps_ret].
Qed.

Lemma keeps_createAndWrite dir path content :
  keeps P (createAndWrite who dir path content).
Proof.
  unfold createAndWrite, os_MkdirAll.
  apply keeps_reported; [reflexivity | now left |]. intros _.
  apply keeps_created; [now right; left|]. intros file err.
  apply keeps_bind.
  - destruct (os_IsExist err); [|apply keeps_ret].
    apply keeps_bind; [now apply keeps_perform|]. intros _.
    apply keeps_created; [now right; right; left|]. intros file' err'. apply keeps_ret.
  - intros file'.
    apply keeps_bind; [apply keeps_file_WriteString|]. intros _.
    apply keeps_bind; [apply keeps_file_Sync|]. intros _.
    apply keeps_bind; [apply keeps_file_Close|]. intros _. apply keeps_ret.
Qed.

Lemma keeps_writeFile existsMessage forced dir path content :
  keeps P (writeFile who existsMessage forced dir path content).
Proof.
  unfold writeFile.
  apply keeps_bind; [apply keeps_clearIfForced|]. intros _.
  apply keeps_bind; [now apply keeps_perform|]. intros err.
  destruct (isNil err); [apply keeps_fmt_Printf | apply keeps_createAndWrite].
Qed.

End Keeps.

Section Failures.

Context {rt : GoRuntime}.

Lemma logged_nil who : logged who [] [].
Proof. intros c e []. Qed.

Lemma logged_app who t1 o1 t2 o2 :
  logged who t1 o1 -> logged who t2 o2 -> logged who (t1 ++ t2) (o1 ++ o2).
Proof.
  intros H1 H2 c e Hin Hc. apply in_app_iff in Hin as [Hin|Hin].
  - destruct (H1 c e Hin Hc) as (label & Hl). exists label. apply in_app_iff. now left.
  - destruct (H2 c e Hin Hc) as (label & Hl). exists label. apply in_app_iff. now right.
Qed.

Lemma writeFile_logged who existsMessage forced dir path content :
  keeps (logged who) (writeFile who existsMessage forced dir path content).
Proof.
  apply keeps_writeFile.
  - apply logged_nil.
  - apply logged_app.
  - intros s c e [].
  - intros c err Hc c' e [H|[]] Hc'. injection H as <- _. congruence.
  - intros c c' e [H|[]]. discriminate.
  - intros c e label _ _ c' e' [H|[]] _. injection H as <- <-. exists label. now left.
Qed.

Lemma total_printError who label c err : total (printError who label c err).
Proof. destruct err; [apply total_fmt_Printf | apply total_ret]. Qed.

Lemma total_os_Create path : total (os_Create path).
Proof. apply total_bind; [apply total_perform | intros; apply total_ret]. Qed.

Lemma total_file_WriteString file s : total (file_WriteString file s).
Proof. destruct file; [apply total_perform | apply total_ret]. Qed.

Lemma total_file_Sync file : total (file_Sync file).
Proof. destruct file; [apply total_perform | apply total_ret]. Qed.

Lemma total_file_Close file : total (file_Close file).
Proof. destruct file; [apply total_perform | apply total_ret]. Qed.

Lemma total_writeFile who existsMessage forced dir path content :
  total (writeFile who existsMessage forced dir path content).
Proof.
  unfold writeFile, clearIfForced, createAndWrite.
  apply total_bind.
  - destruct forced; [|apply total_ret].
    apply total_bind; [apply total_perform|]. intros err.
    destruct (isNil err); [|apply total_ret].
    apply total_bind; [apply total_perform | intros; apply total_ret].
  - intros _. apply total_bind; [apply total_perform|]. intros err.
    destruct (isNil err); [apply total_fmt_Printf|].
    apply total_bind; [apply total_perform|]. intros err1.
    apply total_bind; [apply total_printError|]. intros _.
    apply total_bind; [apply total_os_Create|]. intros [file err2].
    apply total_bind; [apply total_printError|]. intros _.
    apply total_bind.
    + destruct (os_IsExist err2); [|apply total_ret].
      apply total_bind; [apply total_perform|]. intros _.
      apply total_bind; [apply total_os_Create|]. intros [file' err3].
      apply total_bind; [apply total_printError | intros; apply total_ret].
    + intros file'.
      apply total_bind; [apply total_file_WriteString|]. intros _.
      apply total_bind; [apply total_file_Sync|]. intros _.
      apply total_bind; [apply total_file_Close | intros; apply total_ret].
Qed.

(** Whatever fails, [writeFile] looks for the file. *)
Lemma writeFile_attempted who existsMessage forced dir path content (w : World) r w' :
  writeFile who existsMessage forced dir path content w = (r, w') ->
  attempted w w' path.
Proof.
  intros E. unfold writeFile in E. unfold bind at 1 in E.
  destruct (clearIfForced forced path w) as [[[]|] w1] eqn:E1.
  2:{ exfalso. revert E1. unfold clearIfForced. destruct forced; [|discriminate].
      unfold bind at 1. destruct (perform_since (Stat path)
        (fun fs => (fs, if fs !! path is Some _ then None else Some ENOENT)) w)
        as (err & w2 & E2 & _). unfold os_Stat. rewrite E2.
      destruct (isNil err); [|discriminate]. unfold bind.
      destruct (perform_since (Remove path)
        (fun fs => if fs !! path is Some _ then (delete path fs, None)
                   else (fs, Some ENOENT)) w2) as (err' & w3 & E3 & _).
      unfold os_Remove. rewrite E3. discriminate. }
  destruct (keeps_clearIfForced (fun _ _ => True) I (fun _ _ _ _ _ _ => I)
              (fun _ _ _ => I) forced path _ _ _ E1) as (t1 & o1 & Hs1 & _).
  unfold bind at 1 in E. unfold os_Stat in E.
  destruct (perform_since (Stat path)
              (fun fs => (fs, if fs !! path is Some _ then None else Some ENOENT)) w1)
    as (err & w2 & E2 & Hs2).
  rewrite E2 in E.
  assert (Hrest : exists t3 o3, since w2 w' t3 o3).
  { destruct (isNil err).
    - destruct (keeps_fmt_Printf (fun _ _ => True) (fun _ => I) _ _ _ _ E)
        as (t3 & o3 & Hs3 & _). eauto.
    - destruct (keeps_createAndWrite who (fun _ _ => True) I (fun _ _ _ _ _ _ => I)
                  (fun _ _ _ => I) (fun _ => I) (fun _ _ _ _ _ => I) _ _ _ _ _ _ E)
        as (t3 & o3 & Hs3 & _). eauto. }
  destruct Hrest as (t3 & o3 & Hs3).
  exists (t1 ++ [(Stat path, err)] ++ t3), (o1 ++ [] ++ o3), err. split.
  - eapply since_trans; [exact Hs1|]. eapply since_trans; eassumption.
  - apply in_app_iff. right. now left.
Qed.

Lemma attempted_extends (w w' : World) path : attempted w w' path -> extends w w'.
Proof. intros (t & o & e & Hs & _). now exists t, o. Qed.

Lemma attempted_after (w w1 w2 : World) path :
  extends w w1 -> attempted w1 w2 path -> attempted w w2 path.
Proof.
  intros (t1 & o1 & Hs1) (t2 & o2 & e & Hs2 & Hin).
  exists (t1 ++ t2), (o1 ++ o2), e. split; [eapply since_trans; eassumption|].
  apply in_app_iff. now right.
Qed.

Lemma attempted_before (w w1 w2 : World) path :
  attempted w w1 path -> extends w1 w2 -> attempted w w2 path.
Proof.
  intros (t1 & o1 & e & Hs1 & Hin) (t2 & o2 & Hs2).
  exists (t1 ++ t2), (o1 ++ o2), e. split; [eapply since_trans; eassumption|].
  apply in_app_iff. now left.
Qed.

(** [writeResource] returns the empty string whatever fails, having looked
    for its file and reported every creation that failed. *)
Lemma writeResource_any gen s a (w : World) :
  exists w' t o,
    writeResource gen s a w = (Done EmptyString, w')
    /\ since w w' t o
    /\ logged "writeResource" t o
    /\ attempted w w' (artefactPath gen a).
Proof.
  rewrite writeResource_writeFile.
  destruct (total_writeFile "writeResource"
              (catStrings ["writeResource "; dq; "3. File exists error"; dq; "  on path: ";
                           artefactPath gen a; nl])
              (isForced gen) (outputDirectoryName gen (snd (artefactFile a)))
              (artefactPath gen a) s w) as ([] & w' & E).
  rewrite E. destruct (writeFile_logged _ _ _ _ _ _ _ _ _ E) as (t & o & Hs & Hl).
  exists w', t, o. repeat split; try assumption; try apply Hs.
  exact (writeFile_attempted _ _ _ _ _ _ _ _ _ E).
Qed.

(** One block and its write, whatever fails: the write is attempted and the
    function goes on, unless the block itself panics. *)
Lemma scaffold_step_any (block k : M string) gen a (w : World) r w' :
  reads block ->
  (let* s := block in writeResource gen s a ;; k) w = (r, w') ->
  (exists w2, attempted w w2 (artefactPath gen a) /\ k w2 = (r, w'))
  \/ (r = Panicked /\ block w = (Panicked, w')).
Proof.
  intros Hreads E. unfold bind at 1 in E.
  destruct (block w) as [[s|] w1] eqn:E1.
  - left. destruct (Hreads _ _ _ E1) as (_ & _ & Hext).
    destruct (writeResource_any gen s a w1) as (w2 & t & o & E2 & _ & _ & Hatt).
    unfold bind at 1 in E. rewrite E2 in E.
    exists w2. split; [|exact E]. exact (attempted_after _ _ _ _ Hext Hatt).
  - right. injection E as <- <-. now split.
Qed.

Lemma total_not_panicked {A : Type} (m : M A) (w w' : World) :
  total m -> m w <> (Panicked, w').
Proof. intros Ht E. destruct (Ht w) as (a & w1 & E1). congruence. Qed.

Lemma failedCreations_app t1 t2 :
  failedCreations (t1 ++ t2) = failedCreations t1 ++ failedCreations t2.
Proof. apply flat_map_app. Qed.

Lemma createAndWrite_reports who dir path content :
  keeps (fun t o => Forall2 (reportOf who) (failedCreations t) o)
    (createAndWrite who dir path content).
Proof.
  apply keeps_createAndWrite.
  - constructor.
  - intros t1 o1 t2 o2 H1 H2. rewrite failedCreations_app. now apply Forall2_app.
  - intros c err Hc. unfold failedCreations. cbn [flat_map fst snd app].
    destruct err; [rewrite Hc|]; constructor.
  - intros c. constructor.
  - intros c e label Hc Hl. unfold failedCreations. cbn [flat_map fst snd app].
    rewrite Hc. constructor; [|constructor]. now exists label.
Qed.

Lemma clearIfForced_clearing forced path (w : World) :
  exists w' t,
    clearIfForced forced path w = (Done tt, w')
    /\ since w w' t [] /\ clearing forced path t.
Proof.
  unfold clearIfForced, clearing. destruct forced.
  - unfold os_Stat, bind at 1.
    destruct (perform_since (Stat path)
                (fun fs => (fs, if fs !! path is Some _ then None else Some ENOENT)) w)
      as (err & w1 & E1 & Hs1).
    rewrite E1. destruct err as [e|]; cbn [isNil].
    + exists w1, [(Stat path, Some e)]. split; [reflexivity|]. split; [exact Hs1|].
      left. now exists e.
    + unfold os_Remove, bind.
      destruct (perform_since (Remove path)
                  (fun fs => if fs !! path is Some _ then (delete path fs, None)
                             else (fs, Some ENOENT)) w1) as (r & w2 & E2 & Hs2).
      rewrite E2. exists w2, [(Stat path, None); (Remove path, r)].
      split; [reflexivity|]. split.
      * exact (since_trans _ _ _ _ _ _ _ Hs1 Hs2).
      * right. now exists r.
  - exists w, []. split; [reflexivity|]. split; [apply since_refl | reflexivity].
Qed.

Lemma clearing_no_creation forced path t :
  clearing forced path t -> failedCreations t = [].
Proof.
  unfold clearing. destruct forced.
  - intros [(e & ->)|(r & ->)]; [reflexivity|]. now destruct r.
  - now intros ->.
Qed.

(** What [writeFile] prints, whatever fails. *)
Lemma writeFile_printed who existsMessage forced dir path content (w : World) :
  exists w' t o,
    writeFile who existsMessage forced dir path content w = (Done tt, w')
    /\ since w w' t o
    /\ printed who existsMessage forced path t o.
Proof.
  unfold writeFile.
  destruct (clearIfForced_clearing forced path w) as (w1 & t1 & E1 & Hs1 & Hc1).
  unfold bind at 1. rewrite E1. unfold os_Stat, bind at 1.
  destruct (perform_since (Stat path)
              (fun fs => (fs, if fs !! path is Some _ then None else Some ENOENT)) w1)
    as (err & w2 & E2 & Hs2).
  rewrite E2. destruct err as [e|]; cbn [isNil].
  - destruct (createAndWrite who dir path content w2) as [r w3] eqn:E3.
    destruct (createAndWrite_reports who dir path content _ _ _ E3)
      as (t3 & o3 & Hs3 & H3).
    assert (r = Done tt) as ->.
    { revert E3. clear. intros E3.
      assert (Ht : total (createAndWrite who dir path content)).
      { unfold createAndWrite.
        apply total_bind; [apply total_perform|]. intros err1.
        apply total_bind; [apply total_printError|]. intros _.
        apply total_bind; [apply total_os_Create|]. intros [file err2].
        apply total_bind; [apply total_printError|]. intros _.
        apply total_bind.
        - destruct (os_IsExist err2); [|apply total_ret].
          apply total_bind; [apply total_perform|]. intros _.
          apply total_bind; [apply total_os_Create|]. intros [file' err3].
          apply total_bind; [apply total_printError | intros; apply total_ret].
        - intros file'.
          apply total_bind; [apply total_file_WriteString|]. intros _.
          apply total_bind; [apply total_file_Sync|]. intros _.
          apply total_bind; [apply total_file_Close | intros; apply total_ret]. }
      destruct (Ht w2) as ([] & w4 & E4). congruence. }
    exists w3, (t1 ++ [(Stat path, Some e)] ++ t3), ([] ++ [] ++ o3).
    split; [reflexivity|]. split.
    + eapply since_trans; [exact Hs1|]. eapply since_trans; eassumption.
    + exists t1, ((Stat path, Some e) :: t3). split; [reflexivity|].
      split; [exact Hc1|]. right. exists e, t3. split; [reflexivity|].
      rewrite failedCreations_app, (clearing_no_creation _ _ _ Hc1). exact H3.
  - destruct (fmt_Printf_since existsMessage w2) as (w3 & E3 & Hs3). rewrite E3.
    exists w3, (t1 ++ [(Stat path, None)] ++ []), ([] ++ [] ++ [existsMessage]).
    split; [reflexivity|]. split.
    + eapply since_trans; [exact Hs1|]. eapply since_trans; eassumption.
    + exists t1, [(Stat path, None)]. split; [reflexivity|].
      split; [exact Hc1|]. left. now split.
Qed.

(** With [-force], a removal that fails leaves the file there: the stat
    that follows finds it, and the line for a file that exists is all that
    is printed. *)
Lemma writeFile_removal_fails who existsMessage dir path content (w : World) e rest :
  is_Some (files w !! path) ->
  faults w = None :: Some e :: rest ->
  callResult rest None = None ->
  exists w',
    writeFile who existsMessage true dir path content w = (Done tt, w')
    /\ files w' = files w
    /\ since w w' [(Stat path, None); (Remove path, Some e); (Stat path, None)]
         [existsMessage].
Proof.
  intros [x Hx] Hf Hrest. unfold writeFile, clearIfForced, os_Stat, os_Remove.
  unfold bind at 1. unfold bind at 1.
  rewrite (perform_imposed _ _ w None (Some e :: rest) Hf). cbn [fst snd]. rewrite Hx.
  cbn [isNil]. set (w1 := mkWorld _ _ _ _ _).
  unfold bind at 1.
  rewrite (perform_imposed _ _ w1 (Some e) rest eq_refl). cbn [fst snd ret].
  set (w2 := mkWorld _ _ _ _ _).
  unfold bind at 1.
  destruct (perform_result (Stat path)
              (fun fs => (fs, if fs !! path is Some _ then None else Some ENOENT)) w2)
    as (fs' & fl' & E3 & _ & _ & Hfs).
  rewrite E3. subst w2 w1. cbn [files faults stdout syscalls uuids fst snd] in *.
  rewrite Hx, Hrest. cbn [isNil]. eexists. split; [reflexivity|].
  cbn [files stdout syscalls]. split; [now apply Hfs|]. split.
  - now rewrite <- !app_assoc.
  - reflexivity.
Qed.


End Failures.


(** ** The emitters stop at the third level *)

Lemma cutAttribute_eq (below : nat) (a : attribute) :
  cutAttribute below a
  = setAttributes a
      match below with
      | 0 => []
      | S d => map (fun '(k, a') => (k, cutAttribute d a')) (Attributes a)
      end.
Proof.
  destruct a as [d b ma mi rq op co fn pv po ty attrs df cw rp].
  destruct below as [|n]; [reflexivity|].
  cbn [cutAttribute setAttributes Attributes]. f_equal.
  induction attrs as [|[k a'] l IH]; [reflexivity|]. cbn [map]. now rewrite <- IH.
Qed.

Lemma emitEach_map {A : Type} (f g : string -> A -> string) (h : A -> A)
    (m : list (string * A)) (text : string) :
  (forall k v, g k (h v) = f k v) ->
  emitEach g (map (fun '(k, v) => (k, h v)) m) text = emitEach f m text.
Proof.
  intros H. unfold emitEach. revert text.
  induction m as [|[k v] m IH]; intros text; [reflexivity|].
  cbn [map fold_left]. now rewrite H, IH.
Qed.

Lemma emitEachOpt_map {A : Type} (f g : string -> A -> option string) (h : A -> A)
    (m : list (string * A)) (text : string) :
  (forall k v, g k (h v) = f k v) ->
  emitEachOpt g (map (fun '(k, v) => (k, h v)) m) text = emitEachOpt f m text.
Proof.
  intros H. revert text.
  induction m as [|[k v] m IH]; intros text; [reflexivity|].
  cbn [map emitEachOpt]. rewrite H. destruct (f k v); [apply IH | reflexivity].
Qed.

Lemma AList_lookup_map {A : Type} (h : A -> A) (key : string) (m : list (string * A)) :
  AList.lookup key (map (fun '(k, v) => (k, h v)) m) = option_map h (AList.lookup key m).
Proof.
  induction m as [|[k v] m IH]; [reflexivity|]. cbn [map AList.lookup].
  destruct (String.eqb key k); [reflexivity | exact IH].
Qed.

Lemma templateThird_cut n2 at2 : templateThird n2 (cutAttribute 0 at2) = templateThird n2 at2.
Proof. now rewrite cutAttribute_eq. Qed.

Lemma templateSecond_cut gen n1 at1 :
  templateSecond gen n1 (cutAttribute 1 at1) = templateSecond gen n1 at1.
Proof.
  rewrite cutAttribute_eq. unfold templateSecond. cbn [IsBlock DataTypeString Attributes setAttributes].
  destruct (negb (IsBlock at1)); [reflexivity|].
  apply emitEach_map, templateThird_cut.
Qed.

Lemma templateTop_cut gen n at_ :
  templateTop gen n (cutAttribute 2 at_) = templateTop gen n at_.
Proof.
  rewrite cutAttribute_eq. unfold templateTop.
  cbn [IsBlock Computed DataTypeString Attributes setAttributes].
  destruct (_ || _); [reflexivity|]. destruct (negb (Computed at_)); [|reflexivity].
  destruct (negb (IsBlock at_)); [reflexivity|].
  apply emitEach_map, templateSecond_cut.
Qed.

Lemma templateText_truncate gen attributes :
  templateText gen (truncate 3 attributes) = templateText gen attributes.
Proof.
  unfold templateText. destruct (_ && _); [|reflexivity].
  unfold truncate. rewrite (emitEach_map (templateTop gen) (templateTop gen) (cutAttribute 2))
    by apply templateTop_cut.
  unfold templateLocationLine. rewrite AList_lookup_map.
  destruct (AList.lookup "location" attributes) as [a|]; [|reflexivity].
  cbn [option_map default]. now rewrite cutAttribute_eq.
Qed.

Lemma moduleThird_cut k2 a2 : moduleThird k2 (cutAttribute 0 a2) = moduleThird k2 a2.
Proof. now rewrite cutAttribute_eq. Qed.

Lemma moduleSecond_cut k a : moduleSecond k (cutAttribute 1 a) = moduleSecond k a.
Proof.
  rewrite cutAttribute_eq. unfold moduleSecond.
  cbn [IsBlock ResourcePath Attributes setAttributes].
  destruct (negb (IsBlock a)); [reflexivity|].
  now rewrite (emitEach_map moduleThird moduleThird (cutAttribute 0)) by apply moduleThird_cut.
Qed.

Lemma moduleTop_cut n at_ : moduleTop n (cutAttribute 2 at_) = moduleTop n at_.
Proof.
  rewrite cutAttribute_eq. unfold moduleTop.
  cbn [IsBlock Computed DataTypeString Attributes setAttributes].
  destruct (Computed at_); [reflexivity|]. destruct (String.eqb n "name"); [reflexivity|].
  destruct (GoStrings.Contains n "dlta_"); [reflexivity|].
  destruct (negb (IsBlock at_)); [reflexivity|].
  now rewrite (emitEach_map moduleSecond moduleSecond (cutAttribute 1)) by apply moduleSecond_cut.
Qed.

Lemma moduleText_truncate gen attributes :
  moduleText gen (truncate 3 attributes) = moduleText gen attributes.
Proof.
  unfold moduleText, truncate.
  generalize (catStrings ["resource "; dq; resourceName gen; dq; " "; dq; "this"; dq; " {"; nl]
              +:+ tab +:+ "name = local.name" +:+ nl, EmptyString).
  induction attributes as [|[n a] l IH]; intros acc; [reflexivity|].
  cbn [map fold_left]. destruct acc as [mb ab]. rewrite moduleTop_cut. apply IH.
Qed.

Lemma variableThird_cut at_ n2 at2 below :
  variableThird (cutAttribute below at_) n2 (cutAttribute 0 at2) = variableThird at_ n2 at2.
Proof. now rewrite !cutAttribute_eq. Qed.

Lemma variableSecond_cut at_ n1 at1 below :
  variableSecond (cutAttribute below at_) n1 (cutAttribute 1 at1) = variableSecond at_ n1 at1.
Proof.
  rewrite (cutAttribute_eq 1). unfold variableSecond.
  cbn [IsBlock Attributes setAttributes].
  destruct (negb (IsBlock at1)).
  - destruct (String.eqb n1 "name"); [reflexivity|]. now rewrite cutAttribute_eq.
  - apply emitEach_map. intros k v. apply variableThird_cut.
Qed.

Lemma variableTop_cut n at_ : variableTop n (cutAttribute 2 at_) = variableTop n at_.
Proof.
  assert (Hc : Computed (cutAttribute 2 at_) = Computed at_) by now rewrite cutAttribute_eq.
  assert (Hb : IsBlock (cutAttribute 2 at_) = IsBlock at_) by now rewrite cutAttribute_eq.
  assert (Ha : Attributes (cutAttribute 2 at_)
               = map (fun '(k, a') => (k, cutAttribute 1 a')) (Attributes at_))
    by now rewrite cutAttribute_eq.
  assert (Hd : variableDecl n (cutAttribute 2 at_) (cutAttribute 2 at_)
               = variableDecl n at_ at_) by now rewrite cutAttribute_eq.
  unfold variableTop. rewrite Hc, Hb, Ha, Hd.
  destruct (String.eqb n "name"); [reflexivity|].
  destruct (_ && _); [|reflexivity].
  destruct (negb (Computed at_)); [|reflexivity].
  destruct (negb (IsBlock at_)); [reflexivity|].
  apply emitEach_map. intros k v. apply variableSecond_cut.
Qed.

Lemma variableText_truncate attributes :
  variableText (truncate 3 attributes) = variableText attributes.
Proof. unfold variableText, truncate. apply emitEach_map, variableTop_cut. Qed.

Lemma localSecond_cut k a : localSecond k (cutAttribute 1 a) = localSecond k a.
Proof. now rewrite cutAttribute_eq. Qed.

Lemma localTop_cut gen n at_ : localTop gen n (cutAttribute 2 at_) = localTop gen n at_.
Proof.
  rewrite cutAttribute_eq. unfold localTop. cbn [IsBlock Attributes setAttributes].
  destruct (IsBlock at_); [|reflexivity].
  apply emitEachOpt_map, localSecond_cut.
Qed.

Lemma localText_truncate gen attributes :
  localText gen (truncate 3 attributes) = localText gen attributes.
Proof.
  unfold localText, truncate.
  now rewrite (emitEachOpt_map (localTop gen) (localTop gen) (cutAttribute 2))
    by apply localTop_cut.
Qed.

Section Depth.

Context {rt : GoRuntime}.

Lemma appendEach_map {A : Type}
    (f g : string -> A -> list PaletteProp.t -> M (list PaletteProp.t)) (h : A -> A)
    (m : list (string * A)) (props : list PaletteProp.t) (w : World) :
  (forall k v props w, g k (h v) props w = f k v props w) ->
  appendEach g (map (fun '(k, v) => (k, h v)) m) props w = appendEach f m props w.
Proof.
  intros H. revert props w.
  induction m as [|[k v] m IH]; intros props w; [reflexivity|].
  cbn [map appendEach]. unfold bind. rewrite H.
  destruct (f k v props w) as [[p|] w1]; [apply IH | reflexivity].
Qed.

Lemma getPalletProp_cut gen a below name :
  getPalletProp gen (cutAttribute below a) name = getPalletProp gen a name.
Proof. rewrite cutAttribute_eq. reflexivity. Qed.

Lemma paletteThird_cut gen n2 at2 props w :
  paletteThird gen n2 (cutAttribute 0 at2) props w = paletteThird gen n2 at2 props w.
Proof. unfold paletteThird. now rewrite getPalletProp_cut. Qed.

Lemma paletteSecond_cut gen n1 at1 props w :
  paletteSecond gen n1 (cutAttribute 1 at1) props w = paletteSecond gen n1 at1 props w.
Proof.
  unfold paletteSecond. rewrite getPalletProp_cut. rewrite cutAttribute_eq.
  cbn [IsBlock Attributes setAttributes].
  destruct (negb (IsBlock at1)); [reflexivity|].
  apply appendEach_map. intros. apply paletteThird_cut.
Qed.

Lemma paletteTop_cut gen n fs props w :
  paletteTop gen n (cutAttribute 2 fs) props w = paletteTop gen n fs props w.
Proof.
  unfold paletteTop. rewrite getPalletProp_cut. rewrite cutAttribute_eq.
  cbn [IsBlock Attributes setAttributes].
  destruct (String.eqb n "name"); [reflexivity|].
  unfold bind. destruct (getPalletProp gen fs n w) as [[item|] w1]; [|reflexivity].
  destruct (IsBlock fs); [|reflexivity].
  apply appendEach_map. intros. apply paletteSecond_cut.
Qed.

Lemma bind_ext {A B : Type} (m : M A) (k1 k2 : A -> M B) (w : World) :
  (forall a w', k1 a w' = k2 a w') -> bind m k1 w = bind m k2 w.
Proof. intros H. unfold bind. destruct (m w) as [[a|] w1]; [apply H | reflexivity]. Qed.

Lemma paletteBlockWith_truncate gen attributes w :
  paletteBlockWith gen (truncate 3 attributes) w = paletteBlockWith gen attributes w.
Proof.
  unfold paletteBlockWith.
  apply bind_ext. intros guid w1. unfold bind.
  assert (E : paletteControls gen (truncate 3 attributes) w1
              = paletteControls gen attributes w1).
  { unfold paletteControls, truncate.
    apply bind_ext. intros assetType w2.
    apply bind_ext. intros props w3.
    apply appendEach_map. apply paletteTop_cut. }
  now rewrite E.
Qed.

(** C5. The template, module, variable and palette blocks (and the local
    block) are computed from the first three levels of the attribute tree
    only: emptying every map below the third level changes none of them, so
    no attribute nested more deeply is emitted. *)
Theorem emitters_stop_at_depth_three (gen : documentationGenerator)
    (attributes : list (string * attribute)) :
  templateText gen (truncate 3 attributes) = templateText gen attributes
  /\ moduleText gen (truncate 3 attributes) = moduleText gen attributes
  /\ variableText (truncate 3 attributes) = variableText attributes
  /\ localText gen (truncate 3 attributes) = localText gen attributes
  /\ forall w, paletteBlockWith gen (truncate 3 attributes) w
              = paletteBlockWith gen attributes w.
Proof.
  split; [apply templateText_truncate|]. split; [apply moduleText_truncate|].
  split; [apply variableText_truncate|]. split; [apply localText_truncate|].
  intros w. apply paletteBlockWith_truncate.
Qed.

End Depth.

(** The third level is emitted and the fourth is not: cutting [a.b.c.d] to
    three levels keeps [c], which the template names, and drops [d], which
    the template does not name. *)
Example third_level_emitted_fourth_not :
  map fst (Attributes (snd (nth 0 (Attributes (snd (nth 0 (Attributes
       (snd (nth 0 (truncate 3 deepAttributes) (EmptyString, attribute_zero))))
       (EmptyString, attribute_zero)))) (EmptyString, attribute_zero)))) = []
  /\ GoStrings.Contains (templateText nestedGroupGen deepAttributes)
       (templateGenericLine "c" "TypeList") = true
  /\ GoStrings.Contains (templateText nestedGroupGen deepAttributes) (genericLine "d") = false
  /\ templateText nestedGroupGen (truncate 2 deepAttributes)
     <> templateText nestedGroupGen deepAttributes.
Proof.
  split; [reflexivity|]. split; [vm_compute; reflexivity|].
  split; [vm_compute; reflexivity|]. vm_compute. discriminate.
Qed.

(** ** Two runs of the generator *)

Lemma determined_ret {A : Type} (a : A) : determined (ret a).
Proof. split; [intros w1 w2 H; now split | reflexivity]. Qed.

Lemma determined_panic {A : Type} : determined (@panic A).
Proof. split; [intros w1 w2 H; now split | reflexivity]. Qed.

Lemma determined_bind {A B : Type} (m : M A) (k : A -> M B) :
  determined m -> (forall a, determined (k a)) -> determined (bind m k).
Proof.
  intros [Hm Um] Hk. split.
  - intros w1 w2 H. destruct (Hm w1 w2 H) as [Hr Ha]. unfold bind.
    destruct (m w1) as [[a1|] v1], (m w2) as [[a2|] v2]; simpl in Hr, Ha;
      try discriminate.
    + injection Hr as <-. exact (proj1 (Hk a1) v1 v2 Ha).
    + now split.
  - intros w. unfold bind. specialize (Um w).
    destruct (m w) as [[a|] v]; simpl in Um |- *; [|exact Um].
    now rewrite (proj2 (Hk a) v).
Qed.

Lemma determined_perform (c : syscall) effect : determined (perform c effect).
Proof.
  split.
  - intros [fs1 o1 f1 s1 u1] [fs2 o2 f2 s2 u2] [Hf Hc]. simpl in Hf, Hc. subst fs2 f2.
    unfold perform. simpl.
    destruct f1 as [|[e|] rest]; try destruct (effect fs1); now repeat split.
  - intros w. unfold perform.
    destruct (faults w) as [|[e|] rest]; try destruct (effect (files w)); reflexivity.
Qed.

Lemma determined_fmt_Printf (s : string) : determined (fmt_Printf s).
Proof.
  split; [|reflexivity]. intros w1 w2 [Hf Hc]. now repeat split.
Qed.

Lemma determined_os_ReadFile (path : string) : determined (os_ReadFile path).
Proof.
  pose proof (determined_perform (ReadFile path)
                (fun fs => (fs, if fs !! path is Some _ then None else Some ENOENT)))
    as [Hp Up].
  split.
  - intros w1 w2 H. destruct (Hp w1 w2 H) as [Hr Ha]. unfold os_ReadFile.
    destruct H as [Hf _].
    destruct (perform _ _ w1) as [[[e1|]|] v1], (perform _ _ w2) as [[[e2|]|] v2];
      simpl in Hr, Ha |- *; try discriminate; try (injection Hr as <-);
      split; try assumption; try reflexivity.
    now rewrite Hf.
  - intros w. unfold os_ReadFile. specialize (Up w).
    destruct (perform _ _ w) as [[[e|]|] v]; exact Up.
Qed.

Section TwoRuns.

Context {rt : GoRuntime}.

Lemma determined_readResourceProperties gen : determined (readResourceProperties gen).
Proof.
  unfold readResourceProperties. destruct (notSpecial gen); [|apply determined_ret].
  destruct (filepath_Abs (propertiesFileName gen)) as [outputPath|err].
  - apply determined_bind; [apply determined_perform|]. intros err.
    destruct (negb (isNil err)).
    + repeat (apply determined_bind; [apply determined_fmt_Printf|]; intros _).
      apply determined_ret.
    + apply determined_bind; [apply determined_os_ReadFile|]. intros [content|e].
      * apply determined_ret.
      * apply determined_bind; [apply determined_fmt_Printf|]. intros _.
        apply determined_ret.
  - apply determined_bind; [apply determined_fmt_Printf|]. intros _. apply determined_ret.
Qed.

Lemma determined_injectAttributes gen : determined (injectAttributes gen).
Proof.
  unfold injectAttributes, getPublishedAttributes.
  apply determined_bind; [|intros; apply determined_ret].
  destruct (resource gen); [|apply determined_ret].
  apply determined_bind; [apply determined_readResourceProperties|].
  intros; apply determined_ret.
Qed.

Lemma determined_terraformTemplateBlock gen : determined (terraformTemplateBlock gen).
Proof.
  apply determined_bind; [apply determined_injectAttributes|].
  intros; apply determined_ret.
Qed.

Lemma determined_getPalletProp gen at_ name : determined (getPalletProp gen at_ name).
Proof.
  unfold getPalletProp. destruct (String.eqb name "dlta_terraform_template").
  - apply determined_bind; [apply determined_terraformTemplateBlock|].
    intros; apply determined_ret.
  - apply determined_ret.
Qed.

Lemma determined_appendEach {A : Type} f (m : list (string * A)) (props : list PaletteProp.t) :
  (forall k v props, determined (f k v props)) -> determined (appendEach f m props).
Proof.
  intros Hf. revert props. induction m as [|[k v] m IH]; intros props; simpl.
  - apply determined_ret.
  - apply determined_bind; [apply Hf | intros; apply IH].
Qed.

Lemma determined_paletteControls gen attributes :
  determined (paletteControls gen attributes).
Proof.
  unfold paletteControls.
  apply determined_bind; [apply determined_getPalletProp|]. intros assetType.
  apply determined_bind.
  - destruct (notSpecial gen && negb (isDataSource gen)); [|apply determined_ret].
    apply determined_bind; [apply determined_getPalletProp|].
    intros; apply determined_ret.
  - intros props. apply determined_appendEach. intros n fs p. unfold paletteTop.
    destruct (String.eqb n "name"); [apply determined_ret|].
    apply determined_bind; [apply determined_getPalletProp|]. intros item.
    destruct (IsBlock fs); [|apply determined_ret].
    apply determined_appendEach. intros k v q. unfold paletteSecond.
    destruct (negb (IsBlock v)).
    + apply determined_bind; [apply determined_getPalletProp|].
      intros; apply determined_ret.
    + apply determined_appendEach. intros k2 v2 q2. unfold paletteThird.
      apply determined_bind; [apply determined_getPalletProp|].
      intros; apply determined_ret.
Qed.

Lemma dltaPalletteCodeBlock_value gen (w : World) :
  exists attributes v props y,
    injectAttributes gen w = (Done attributes, v)
    /\ paletteControls gen (enumerate InPalette attributes) (afterDraw v) = (Done props, y)
    /\ dltaPalletteCodeBlock gen w
       = (Done (paletteInsert (uuids v 0) (resourceName gen)
                +:+ paletteUpdate
                      (json_MarshalIndent_Creator (Creator.mk (resourceName gen) props))
                      (resourceName gen)), y).
Proof.
  destruct (total_injectAttributes gen w) as (attributes & v & E).
  destruct (total_paletteControls gen (enumerate InPalette attributes) (afterDraw v))
    as (props & y & F).
  exists attributes, v, props, y. split; [exact E|]. split; [exact F|].
  unfold dltaPalletteCodeBlock. unfold bind at 1. rewrite E.
  unfold paletteBlockWith. unfold bind at 1. unfold uuid_New. cbn beta iota.
  fold (afterDraw v). unfold bind. now rewrite F.
Qed.

(** C10, amended. In two runs with the same generator (flags and schema),
    the same files, the same faults and the same order of iteration over the
    maps, the template, module, variable, local and output blocks are the
    same text, and the two palette scripts are the same but for the GUID of
    the INSERT statement, which is the one each run draws.  (The property
    summary, [initContent], does not depend on the world at all.) *)
Theorem artefact_texts_determined (gen : documentationGenerator) (w1 w2 : World) :
  files w1 = files w2 -> faults w1 = faults w2 ->
  fst (terraformTemplateBlock gen w1) = fst (terraformTemplateBlock gen w2)
  /\ fst (terraformModuleBlock gen w1) = fst (terraformModuleBlock gen w2)
  /\ fst (terraformVariableBlock gen w1) = fst (terraformVariableBlock gen w2)
  /\ fst (terraformLocalBlock gen w1) = fst (terraformLocalBlock gen w2)
  /\ fst (terraformOutputBlock gen w1) = fst (terraformOutputBlock gen w2)
  /\ exists update,
       fst (dltaPalletteCodeBlock gen w1)
       = Done (insertStatement (uuids w1 0) (resourceName gen) +:+ update)
       /\ fst (dltaPalletteCodeBlock gen w2)
          = Done (insertStatement (uuids w2 0) (resourceName gen) +:+ update).
Proof.
  intros Hf Hc. assert (H : alike w1 w2) by now split.
  assert (Hblock : forall f : list (string * attribute) -> option string,
            determined (let* attributes := injectAttributes gen in
                        liftOption (f attributes))).
  { intros f. apply determined_bind; [apply determined_injectAttributes|].
    intros a. unfold liftOption. destruct (f a); [apply determined_ret | apply determined_panic]. }
  split; [exact (proj1 (proj1 (determined_terraformTemplateBlock gen) w1 w2 H))|].
  split; [exact (proj1 (proj1 (Hblock (fun a => Some (moduleText gen (enumerate InModule a))))
                          w1 w2 H))|].
  split; [exact (proj1 (proj1 (Hblock (fun a => Some (variableText (enumerate InVariable a))))
                          w1 w2 H))|].
  split; [exact (proj1 (proj1 (Hblock (fun a => localText gen (enumerate InLocal a)))
                          w1 w2 H))|].
  split; [unfold terraformOutputBlock; now destruct (resource gen)|].
  destruct (dltaPalletteCodeBlock_value gen w1) as (a1 & v1 & p1 & y1 & E1 & F1 & G1).
  destruct (dltaPalletteCodeBlock_value gen w2) as (a2 & v2 & p2 & y2 & E2 & F2 & G2).
  destruct (determined_injectAttributes gen) as [Hi Ui].
  destruct (Hi w1 w2 H) as [Hr Ha]. pose proof (Ui w1) as U1. pose proof (Ui w2) as U2.
  rewrite E1, E2 in *. simpl in Hr, Ha, U1, U2. injection Hr as <-.
  assert (Hx : alike (afterDraw v1) (afterDraw v2)) by exact Ha.
  destruct (proj1 (determined_paletteControls gen (enumerate InPalette a1)) _ _ Hx)
    as [Hp _].
  rewrite F1, F2 in Hp. simpl in Hp. injection Hp as <-.
  rewrite G1, G2, U1, U2. simpl. rewrite !paletteInsert_columns. eauto.
Qed.

End TwoRuns.

(** ** The controls of the palette *)

Section Palette.

Context {rt : GoRuntime}.

Lemma readFrom_refl (w : World) : readFrom w w.
Proof. now split. Qed.

Lemma readFrom_reads {A : Type} (m : M A) (w v : World) r v' :
  reads m -> readFrom w v -> m v = (r, v') -> readFrom w v'.
Proof.
  intros Hm [Hf Hc] E. destruct (Hm _ _ _ E) as (Hf' & Hc' & _). split.
  - now rewrite Hf'.
  - intros H. apply Hc', Hc, H.
Qed.

Lemma getPalletProp_controlOf (gen : documentationGenerator) (w : World)
    (at_ : attribute) (name : string) (v : World) :
  readFrom w v ->
  exists pp v',
    getPalletProp gen at_ name v = (Done pp, v')
    /\ readFrom w v'
    /\ controlOf gen w (at_, name) pp.
Proof.
  intros Hv. unfold getPalletProp, controlOf. cbn [fst snd].
  destruct (String.eqb name "dlta_terraform_template") eqn:En.
  - destruct (total_terraformTemplateBlock gen v) as (tb & v' & E).
    unfold bind. rewrite E. exists (palletProp gen tb at_ name), v'.
    split; [reflexivity|].
    split; [exact (readFrom_reads _ _ _ _ _ (reads_terraformTemplateBlock gen) Hv E)|].
    exists tb. split; [reflexivity|]. now exists v, v'.
  - exists (palletProp gen EmptyString at_ name), v. split; [reflexivity|].
    split; [exact Hv|]. now exists EmptyString.
Qed.

Lemma appendEach_items {A : Type} (gen : documentationGenerator) (w : World)
    (f : string -> A -> list PaletteProp.t -> M (list PaletteProp.t))
    (itemsOf : string * A -> list (attribute * string)) :
  (forall k a props v,
     readFrom w v ->
     exists new v',
       f k a props v = (Done (props ++ new), v')
       /\ readFrom w v' /\ Forall2 (controlOf gen w) (itemsOf (k, a)) new) ->
  forall m props v,
    readFrom w v ->
    exists new v',
      appendEach f m props v = (Done (props ++ new), v')
      /\ readFrom w v' /\ Forall2 (controlOf gen w) (flat_map itemsOf m) new.
Proof.
  intros Hf. induction m as [|[k a] m IH]; intros props v Hv; cbn [appendEach flat_map].
  - exists [], v. rewrite app_nil_r. split; [reflexivity|]. split; [exact Hv | constructor].
  - destruct (Hf k a props v Hv) as (new1 & v1 & E1 & Hv1 & H1).
    destruct (IH (props ++ new1) v1 Hv1) as (new2 & v2 & E2 & Hv2 & H2).
    exists (new1 ++ new2), v2. unfold bind. rewrite E1, E2, <- app_assoc.
    split; [reflexivity|]. split; [exact Hv2|]. now apply Forall2_app.
Qed.

Lemma paletteThird_items (gen : documentationGenerator) (w : World)
    (n2 : string) (at2 : attribute) (props : list PaletteProp.t) (v : World) :
  readFrom w v ->
  exists new v',
    paletteThird gen n2 at2 props v = (Done (props ++ new), v')
    /\ readFrom w v'
    /\ Forall2 (controlOf gen w) ((fun '(n2, at2) => [(at2, n2)]) (n2, at2)) new.
Proof.
  intros Hv. unfold paletteThird.
  destruct (getPalletProp_controlOf gen w at2 n2 v Hv) as (pp & v' & E & Hf & Hc).
  exists [pp], v'. unfold bind. rewrite E. split; [reflexivity|].
  split; [exact Hf|]. now repeat constructor.
Qed.

Lemma flat_map_singleton {A B : Type} (g : A -> B) (l : list A) :
  flat_map (fun x => [g x]) l = map g l.
Proof. induction l as [|x l IH]; [reflexivity|]. cbn. now rewrite IH. Qed.

Lemma paletteSecond_items (gen : documentationGenerator) (w : World)
    (n1 : string) (at_ : attribute) (props : list PaletteProp.t) (v : World) :
  readFrom w v ->
  exists new v',
    paletteSecond gen n1 at_ props v = (Done (props ++ new), v')
    /\ readFrom w v'
    /\ Forall2 (controlOf gen w)
         ((fun '(n1, at_) =>
             if negb (IsBlock at_) then [(at_, n1)]
             else map (fun '(n2, at2) => (at2, n2)) (Attributes at_)) (n1, at_)) new.
Proof.
  intros Hv. unfold paletteSecond. destruct (negb (IsBlock at_)).
  - destruct (getPalletProp_controlOf gen w at_ n1 v Hv) as (pp & v' & E & Hf & Hc).
    exists [pp], v'. unfold bind. rewrite E. split; [reflexivity|].
    split; [exact Hf|]. now repeat constructor.
  - destruct (appendEach_items gen w (paletteThird gen)
                (fun '(n2, at2) => [(at2, n2)])
                (fun k a p u Hu => paletteThird_items gen w k a p u Hu)
                (Attributes at_) props v Hv) as (new & v' & E & Hf & Hc).
    exists new, v'. split; [exact E|]. split; [exact Hf|].
    replace (map (fun '(n2, at2) => (at2, n2)) (Attributes at_))
      with (flat_map (fun '(n2, at2) => [(at2, n2)]) (Attributes at_)); [exact Hc|].
    rewrite <- flat_map_singleton. apply flat_map_ext. now intros [n2 at2].
Qed.

Lemma paletteTop_items (gen : documentationGenerator) (w : World)
    (n : string) (at_ : attribute) (props : list PaletteProp.t) (v : World) :
  readFrom w v ->
  exists new v',
    paletteTop gen n at_ props v = (Done (props ++ new), v')
    /\ readFrom w v'
    /\ Forall2 (controlOf gen w)
         ((fun '(n, fs) =>
             if String.eqb n "name" then []
             else if IsBlock fs then
               flat_map
                 (fun '(n1, at_) =>
                    if negb (IsBlock at_) then [(at_, n1)]
                    else map (fun '(n2, at2) => (at2, n2)) (Attributes at_))
                 (Attributes fs)
             else [(fs, n)]) (n, at_)) new.
Proof.
  intros Hv. unfold paletteTop. destruct (String.eqb n "name").
  - exists [], v. rewrite app_nil_r. split; [reflexivity|]. split; [exact Hv | constructor].
  - destruct (getPalletProp_controlOf gen w at_ n v Hv) as (pp & v1 & E & Hf & Hc).
    unfold bind at 1. rewrite E. destruct (IsBlock at_).
    + apply (appendEach_items gen w (paletteSecond gen) _
               (fun k a p u Hu => paletteSecond_items gen w k a p u Hu)).
      exact Hf.
    + exists [pp], v1. split; [reflexivity|]. split; [exact Hf|].
      now repeat constructor.
Qed.

Lemma paletteControls_items (gen : documentationGenerator) (w : World)
    (attributes : list (string * attribute)) (v : World) :
  readFrom w v ->
  exists controls v',
    paletteControls gen attributes v = (Done controls, v')
    /\ readFrom w v'
    /\ Forall2 (controlOf gen w) (controlItems gen attributes) controls.
Proof.
  intros Hv. unfold paletteControls, controlItems.
  destruct (getPalletProp_controlOf gen w attribute_zero "AssetType" v Hv)
    as (p1 & v1 & E1 & Hf1 & Hc1).
  unfold bind at 1. rewrite E1.
  assert (Hname : exists new v2,
             (if notSpecial gen && negb (isDataSource gen)
              then let* palletItem := getPalletProp gen attribute_zero "Name" in
                   ret ([p1] ++ [palletItem])
              else ret [p1]) v1 = (Done ([p1] ++ new), v2)
             /\ readFrom w v2
             /\ Forall2 (controlOf gen w)
                  (if notSpecial gen && negb (isDataSource gen)
                   then [(attribute_zero, "Name")] else []) new).
  { destruct (notSpecial gen && negb (isDataSource gen)).
    - destruct (getPalletProp_controlOf gen w attribute_zero "Name" v1 Hf1)
        as (p2 & v2 & E2 & Hf2 & Hc2).
      exists [p2], v2. unfold bind. rewrite E2. split; [reflexivity|].
      split; [exact Hf2|]. now repeat constructor.
    - exists [], v1. split; [reflexivity|]. split; [exact Hf1 | constructor]. }
  destruct Hname as (new2 & v2 & E2 & Hf2 & Hc2).
  unfold bind at 1. rewrite E2.
  destruct (appendEach_items gen w (paletteTop gen) _
              (fun k a p u Hu => paletteTop_items gen w k a p u Hu)
              attributes ([p1] ++ new2) v2 Hf2) as (new3 & v3 & E3 & Hf3 & Hc3).
  exists (([p1] ++ new2) ++ new3), v3. split; [exact E3|]. split; [exact Hf3|].
  cbn [app]. constructor; [exact Hc1|]. now apply Forall2_app.
Qed.

(** C6. The script returned by [dltaPalletteCodeBlock] is an INSERT into
    core.infra_asset whose columns name, label and asset_type carry the quoted
    resource name, followed by an UPDATE of core.infra_asset that sets
    form_fields to the JSON text of the creator object, whose controls are
    those of [controlItems] for the attributes that [injectAttributes]
    returned, one by one and in that order, and that is filtered by
    asset_type equal to the resource name; the INSERT ends in a semicolon and
    a new line, the UPDATE in a semicolon.  The GUID of the INSERT is the
    first that [uuid.New()] yields. *)
Theorem dltaPalletteCodeBlock_statements (gen : documentationGenerator) (w : World) :
  exists attributes w1 controls w',
    injectAttributes gen w = (Done attributes, w1)
    /\ dltaPalletteCodeBlock gen w =
         (Done (insertStatement (uuids w 0) (resourceName gen)
                +:+ updateStatement
                      (json_MarshalIndent_Creator (Creator.mk (resourceName gen) controls))
                      (resourceName gen)), w')
    /\ Forall2 (controlOf gen w)
         (controlItems gen (enumerate InPalette attributes)) controls
    /\ forall i column,
         nth_error insertColumns i = Some column ->
         In column ["name"; "label"; "asset_type"] ->
         nth_error (insertValues (uuids w 0) (resourceName gen)) i
         = Some (sqlQuote (resourceName gen)).
Proof.
  unfold dltaPalletteCodeBlock.
  destruct (total_injectAttributes gen w) as (attributes & w1 & E1).
  pose proof (readFrom_reads _ _ _ _ _ (reads_injectAttributes gen) (readFrom_refl w) E1)
    as Hf1.
  assert (Hu1 : uuids w1 = uuids w).
  { pose proof (proj2 (determined_injectAttributes gen) w) as H. now rewrite E1 in H. }
  unfold bind at 1. rewrite E1. unfold paletteBlockWith.
  unfold bind at 1. unfold uuid_New at 1. cbn beta iota.
  set (w2 := mkWorld _ _ _ _ _).
  assert (Hf2 : readFrom w w2) by exact Hf1.
  destruct (paletteControls_items gen w (enumerate InPalette attributes) w2 Hf2)
    as (controls & w3 & E3 & Hf3 & Hc3).
  unfold bind at 1. rewrite E3. rewrite Hu1.
  exists attributes, w1, controls, w3. split; [reflexivity|]. split; [|split].
  - unfold ret. now rewrite paletteInsert_columns, paletteUpdate_statement.
  - exact Hc3.
  - intros i column Hi Hc.
    do 20 (destruct i as [|i];
           [ injection Hi as <-; simpl in Hc;
             first [ reflexivity
                   | exfalso; repeat destruct Hc as [Hc|Hc]; discriminate || assumption ]
           | ]).
    destruct i; discriminate.
Qed.

End Palette.

Lemma artefact_texts_determined_witness :
  fst (@terraformTemplateBlock listedOrder groupGen (worldDrawing "guid-1"))
  = fst (@terraformTemplateBlock listedOrder groupGen (worldDrawing "guid-2")).
Proof.
  exact (proj1 (@artefact_texts_determined listedOrder groupGen (worldDrawing "guid-1")
                  (worldDrawing "guid-2") eq_refl eq_refl)).
Defined.

(** Two runs with the same flags, the same schema and the same (empty) file
    system whose GUIDs differ: the palette scripts they write differ. *)
Lemma palette_differs_between_runs :
  files (worldDrawing "guid-1") = files (worldDrawing "guid-2")
  /\ files (snd (@main listedOrder exampleProvider "azurerm_example" "resource" "dlta"
                   "scaffold" "n" (worldDrawing "guid-1")))
       !! "/dlta/r/azurerm_example/resource/pallette.sql"
     <> files (snd (@main listedOrder exampleProvider "azurerm_example" "resource" "dlta"
                      "scaffold" "n" (worldDrawing "guid-2")))
          !! "/dlta/r/azurerm_example/resource/pallette.sql".
Proof. split; [reflexivity|]. vm_compute. discriminate. Qed.

(** The order in which the run time visits the map decides the order of the
    lines: the same attributes, visited in reverse, give another template. *)
Example template_depends_on_order :
  templateText nestedGroupGen
    (@enumerate reversedOrder InTemplate
       [("sku_name", stringAttribute "azurerm_example.sku_name");
        ("zone", stringAttribute "azurerm_example.zone")])
  <> templateText nestedGroupGen
       (@enumerate listedOrder InTemplate
          [("sku_name", stringAttribute "azurerm_example.sku_name");
           ("zone", stringAttribute "azurerm_example.zone")]).
Proof. vm_compute. discriminate. Qed.

(** ** Resource paths *)

Lemma noDot_app_inj (k k' r r' : string) :
  noDot k = true -> noDot k' = true ->
  (r = EmptyString \/ exists x, r = "." +:+ x) ->
  (r' = EmptyString \/ exists x, r' = "." +:+ x) ->
  k +:+ r = k' +:+ r' -> k = k'.
Proof.
  revert k'. induction k as [|c k IH]; intros [|c' k'] Hk Hk' Hr Hr' E.
  - reflexivity.
  - rewrite app_empty_l, app_String in E. simpl in Hk'.
    apply andb_prop in Hk' as [Hc' _].
    destruct Hr as [->|[x ->]]; [discriminate|]. injection E as <- _. discriminate.
  - rewrite app_empty_l, app_String in E. simpl in Hk.
    apply andb_prop in Hk as [Hc _].
    destruct Hr' as [->|[x ->]]; [discriminate|]. injection E as -> _. discriminate.
  - rewrite !app_String in E. injection E as <- E. simpl in Hk, Hk'.
    apply andb_prop in Hk as [_ Hk]. apply andb_prop in Hk' as [_ Hk'].
    f_equal. eapply IH; eassumption.
Qed.

Lemma under_refl (p : string) : under p p.
Proof. now left. Qed.

Lemma under_field (p f key : string) : under (p +:+ "." +:+ f) key -> under p key.
Proof.
  intros [->|[r ->]]; right.
  - now exists f.
  - exists (f +:+ "." +:+ r). now rewrite !string_app_assoc.
Qed.

Lemma under_field_neq (p f key : string) : under (p +:+ "." +:+ f) key -> key <> p.
Proof.
  intros H E. subst key.
  assert (Hx : exists x, p +:+ EmptyString = p +:+ "." +:+ x).
  { rewrite string_app_nil_r. destruct H as [H|[r H]].
    - now exists f.
    - exists (f +:+ "." +:+ r). now rewrite H at 1; rewrite !string_app_assoc. }
  destruct Hx as [x Hx]. apply string_app_inv_head in Hx. discriminate.
Qed.

Lemma under_disjoint (p k k' key : string) :
  noDot k = true -> noDot k' = true -> k <> k' ->
  under (p +:+ "." +:+ k) key -> under (p +:+ "." +:+ k') key -> False.
Proof.
  intros Hk Hk' Hne H H'. apply Hne.
  assert (Hr : exists r, key = p +:+ "." +:+ k +:+ r
                         /\ (r = EmptyString \/ exists x, r = "." +:+ x)).
  { destruct H as [->|[x ->]].
    - exists EmptyString. rewrite !string_app_nil_r. now split; [|left].
    - exists ("." +:+ x). rewrite !string_app_assoc. split; [reflexivity | right; eauto]. }
  assert (Hr' : exists r, key = p +:+ "." +:+ k' +:+ r
                          /\ (r = EmptyString \/ exists x, r = "." +:+ x)).
  { destruct H' as [->|[x ->]].
    - exists EmptyString. rewrite !string_app_nil_r. now split; [|left].
    - exists ("." +:+ x). rewrite !string_app_assoc. split; [reflexivity | right; eauto]. }
  destruct Hr as (r & -> & Hr), Hr' as (r' & E & Hr').
  do 2 apply string_app_inv_head in E.
  exact (noDot_app_inj k k' r r' Hk Hk' Hr Hr' E).
Qed.

Lemma pathString_cons (prefix f : string) (path : list string) :
  pathString prefix (f :: path) = pathString (prefix +:+ "." +:+ f) path.
Proof. reflexivity. Qed.

Lemma pathString_under (prefix : string) (path : list string) :
  under prefix (pathString prefix path).
Proof.
  revert prefix. induction path as [|f path IH]; intros prefix.
  - apply under_refl.
  - rewrite pathString_cons. eapply under_field, IH.
Qed.

(** ** The summary of an attribute tree *)

Lemma summariseAttribute_eq (k : string) (a : attribute) (rn : string)
    (parentRequired : bool) (ret : gmap string summaryAttribute.t) :
  summariseAttribute k a rn parentRequired ret
  = let published := parentRequired && Required a in
    let ret1 :=
      <[ResourcePath a :=
          summaryAttribute.mk published (IsBlock a) (Required a) (Optional a)
            (Computed a) EmptyString]> ret in
    if IsBlock a
    then (liftSummary <$> summariseAttributes (Attributes a) (rn +:+ "." +:+ k) published)
           ∪ ret1
    else ret1.
Proof.
  destruct a as [d b ma mi rq op co fn pv po ty attrs df cw rp].
  cbn [summariseAttribute IsBlock Required Optional Computed ResourcePath Attributes].
  cbv zeta. destruct b; [|reflexivity]. f_equal. f_equal.
  unfold summariseAttributes. generalize (∅ : gmap string summaryAttribute.t).
  induction attrs as [|[k' a'] l IH]; intros acc; [reflexivity|]. cbn [fold_left].
  apply IH.
Qed.

Lemma attribute_nested_ind (P : attribute -> Prop) :
  (forall a, Forall (fun ka => P (snd ka)) (Attributes a) -> P a) ->
  forall a, P a.
Proof.
  intros H. fix IH 1. intros a. apply H.
  destruct a as [d b ma mi rq op co fn pv po ty attrs df cw rp]. simpl.
  induction attrs as [|[k a'] l IHl]; constructor; [apply IH | exact IHl].
Qed.

Lemma wfAttrs_inv (prefix : string) (m : list (string * attribute)) :
  wfAttrs prefix m ->
  List.NoDup (AList.keys m)
  /\ forall k a, In (k, a) m ->
       noDot k = true /\ ResourcePath a = prefix +:+ "." +:+ k
       /\ wfAttrs (ResourcePath a) (Attributes a).
Proof.
  intros H. inversion H as [p m' Hnd Hall]; subst. split; [exact Hnd|].
  intros k a Hin. rewrite List.Forall_forall in Hall. exact (Hall (k, a) Hin).
Qed.

(** Summarising touches only the keys under the paths of the entries. *)
Lemma summarise_frame_list (m : list (string * attribute)) (rn : string) (pr : bool)
    (ret : gmap string summaryAttribute.t) (key : string) :
  Forall (fun ka => forall k rn pr ret,
            ~ under (ResourcePath (snd ka)) key ->
            summariseAttribute k (snd ka) rn pr ret !! key = ret !! key) m ->
  (forall k a, In (k, a) m -> ~ under (ResourcePath a) key) ->
  fold_left (fun ret '(k, a) => summariseAttribute k a rn pr ret) m ret !! key = ret !! key.
Proof.
  revert ret. induction m as [|[k a] m IH]; intros ret Hall Hno; [reflexivity|].
  cbn [fold_left]. inversion Hall as [|x l Hx Hl]; subst.
  rewrite IH; [|exact Hl|intros k' a' Hin; apply (Hno k' a'); now right].
  apply Hx. apply (Hno k a). now left.
Qed.

Lemma summarise_frame (a : attribute) :
  wfAttrs (ResourcePath a) (Attributes a) ->
  forall k rn pr ret key,
    ~ under (ResourcePath a) key ->
    summariseAttribute k a rn pr ret !! key = ret !! key.
Proof.
  induction a as [a IH] using attribute_nested_ind. intros Hwf k rn pr ret key Hno.
  rewrite summariseAttribute_eq. cbv zeta.
  assert (Hne : ResourcePath a <> key) by (intros <-; apply Hno, under_refl).
  destruct (IsBlock a); [|now rewrite lookup_insert_ne].
  destruct (wfAttrs_inv _ _ Hwf) as [_ Hin].
  rewrite lookup_union_r; [now rewrite lookup_insert_ne|].
  rewrite lookup_fmap. unfold summariseAttributes.
  rewrite summarise_frame_list; [now rewrite lookup_empty| |].
  - rewrite List.Forall_forall in IH |- *. intros [k' a'] Hk'. simpl.
    intros k0 rn0 pr0 ret0 Hu.
    apply (IH (k', a') Hk'); [apply (Hin k' a' Hk') | exact Hu].
  - intros k' a' Hk' Hu. apply Hno. destruct (Hin k' a' Hk') as (_ & Hp & _).
    rewrite Hp in Hu. exact (under_field _ _ _ Hu).
Qed.

Lemma summarise_frame_entries (prefix : string) (m : list (string * attribute))
    (rn : string) (pr : bool) (ret : gmap string summaryAttribute.t) (key : string) :
  wfAttrs prefix m ->
  (forall k a, In (k, a) m -> ~ under (prefix +:+ "." +:+ k) key) ->
  fold_left (fun ret '(k, a) => summariseAttribute k a rn pr ret) m ret !! key = ret !! key.
Proof.
  intros Hwf Hno. destruct (wfAttrs_inv _ _ Hwf) as [_ Hin].
  apply summarise_frame_list.
  - rewrite List.Forall_forall. intros [k a] Hk. simpl. intros k' rn' pr' ret'.
    apply summarise_frame. apply (Hin k a Hk).
  - intros k a Hk. destruct (Hin k a Hk) as (_ & -> & _). exact (Hno k a Hk).
Qed.

(** Under the path of an entry, the summary is what the iteration for that
    entry made of a map that held nothing there. *)
Lemma summarise_entry (prefix : string) (m : list (string * attribute))
    (k : string) (a : attribute) (rn : string) (pr : bool) (key : string) :
  wfAttrs prefix m -> In (k, a) m -> under (prefix +:+ "." +:+ k) key ->
  exists ret,
    summariseAttributes m rn pr !! key = summariseAttribute k a rn pr ret !! key
    /\ ret !! key = None.
Proof.
  intros Hwf Hin Hu. destruct (wfAttrs_inv _ _ Hwf) as [Hnd Hall].
  destruct (Hall k a Hin) as (Hk & _ & _).
  apply in_split in Hin as (m1 & m2 & ->).
  assert (Hother : forall k' a', In (k', a') (m1 ++ m2) ->
                     ~ under (ResourcePath a') key
                     /\ wfAttrs (ResourcePath a') (Attributes a')).
  { intros k' a' Hin'.
    assert (Hm : In (k', a') (m1 ++ (k, a) :: m2)).
    { apply in_app_iff in Hin' as [H|H]; apply in_app_iff; [now left | right; now right]. }
    destruct (Hall k' a' Hm) as (Hk' & Hp & Hw). split; [|exact Hw].
    rewrite Hp. intros Hu'. apply (under_disjoint prefix k k' key Hk Hk'); try assumption.
    intros <-. unfold AList.keys in Hnd. rewrite map_app in Hnd. cbn [map fst] in Hnd.
    apply NoDup_remove_2 in Hnd. apply Hnd. rewrite <- map_app.
    exact (in_map fst _ _ Hin'). }
  assert (Hframe : forall l ret,
            (forall k' a', In (k', a') l -> In (k', a') (m1 ++ m2)) ->
            fold_left (fun ret '(k, a) => summariseAttribute k a rn pr ret) l ret !! key
            = ret !! key).
  { intros l ret Hl. apply summarise_frame_list.
    - rewrite List.Forall_forall. intros [k' a'] Hin'. simpl. intros k0 rn0 pr0 ret0.
      apply summarise_frame. apply (Hother k' a'). now apply Hl.
    - intros k' a' Hin'. apply (Hother k' a'). now apply Hl. }
  exists (fold_left (fun ret '(k, a) => summariseAttribute k a rn pr ret) m1 ∅).
  unfold summariseAttributes. rewrite fold_left_app. cbn [fold_left]. split.
  - apply Hframe. intros k' a' H. apply in_app_iff. now right.
  - rewrite Hframe; [apply lookup_empty|]. intros k' a' H. apply in_app_iff. now left.
Qed.

(** Every attribute reached through blocks has its path in the summary, and
    it is published exactly when it and all the blocks around it are
    required. *)
Lemma summarise_reaches (m : list (string * attribute)) (path : list string)
    (along : list attribute) :
  reaches m path along ->
  forall prefix rn pr,
    wfAttrs prefix m ->
    exists v,
      summariseAttributes m rn pr !! pathString prefix path = Some v
      /\ summaryAttribute.Published v = pr && forallb Required along.
Proof.
  induction 1 as [m k a Hin | m k a path along Hin Hblock Hreach IH];
    intros prefix rn pr Hwf.
  - destruct (summarise_entry prefix m k a rn pr (prefix +:+ "." +:+ k) Hwf Hin
                (under_refl _)) as (ret & E & Hret).
    destruct (wfAttrs_inv _ _ Hwf) as [_ Hall]. destruct (Hall k a Hin) as (_ & Hp & Hw).
    cbn [pathString fold_left]. rewrite E, summariseAttribute_eq. cbv zeta.
    rewrite <- Hp.
    assert (Hnested : forall rn' pr',
              summariseAttributes (Attributes a) rn' pr' !! ResourcePath a = None).
    { intros rn' pr'. unfold summariseAttributes.
      rewrite summarise_frame_entries with (prefix := ResourcePath a);
        [apply lookup_empty | exact Hw |].
      intros k' a' _ Hu. exact (under_field_neq _ _ _ Hu eq_refl). }
    exists (summaryAttribute.mk (pr && Required a) (IsBlock a) (Required a) (Optional a)
              (Computed a) EmptyString).
    split.
    + destruct (IsBlock a).
      * rewrite lookup_union_r by (rewrite lookup_fmap, Hnested; reflexivity).
        apply lookup_insert_eq.
      * apply lookup_insert_eq.
    + cbn [summaryAttribute.Published forallb]. now rewrite andb_true_r.
  - rewrite pathString_cons.
    destruct (summarise_entry prefix m k a rn pr
                (pathString (prefix +:+ "." +:+ k) path) Hwf Hin (pathString_under _ _))
      as (ret & E & Hret).
    destruct (wfAttrs_inv _ _ Hwf) as [_ Hall]. destruct (Hall k a Hin) as (_ & Hp & Hw).
    rewrite <- Hp in *.
    destruct (IH (ResourcePath a) (rn +:+ "." +:+ k) (pr && Required a) Hw)
      as (v & Hv & Hpub).
    rewrite E, summariseAttribute_eq. cbv zeta. rewrite Hblock.
    exists (liftSummary v). split.
    + apply lookup_union_Some_l. now rewrite lookup_fmap, Hv.
    + cbn [liftSummary summaryAttribute.Published forallb]. rewrite Hpub.
      now rewrite andb_assoc.
Qed.

(** ** The same tree in another order *)

Lemma sameAttribute_fields (a a' : attribute) :
  sameAttribute a a' ->
  Required a' = Required a /\ IsBlock a' = IsBlock a
  /\ ResourcePath a' = ResourcePath a
  /\ sameEntries (Attributes a) (Attributes a').
Proof.
  intros H. destruct H as [a visited attrs Hperm Hall]. repeat split; try reflexivity.
  now exists visited.
Qed.

Lemma Forall2_In_r {A B : Type} (R : A -> B -> Prop) (l : list A) (l' : list B) (y : B) :
  Forall2 R l l' -> In y l' -> exists x, In x l /\ R x y.
Proof.
  induction 1 as [|x y' l l' HR _ IH]; intros Hin; [destruct Hin|].
  destruct Hin as [->|Hin]; [exists x; split; [now left | exact HR]|].
  destruct (IH Hin) as (x' & Hx & HR'). exists x'. split; [now right | exact HR'].
Qed.

Lemma Forall2_keys (l l' : list (string * attribute)) :
  Forall2 (fun x y => fst x = fst y /\ sameAttribute (snd x) (snd y)) l l' ->
  AList.keys l' = AList.keys l.
Proof.
  induction 1 as [|x y l l' [Hk _] _ IH]; [reflexivity|].
  unfold AList.keys in *. cbn [map]. now rewrite IH, Hk.
Qed.

Lemma reaches_same (m : list (string * attribute)) (path : list string)
    (along : list attribute) :
  reaches m path along ->
  forall m', sameEntries m m' ->
  exists along',
    reaches m' path along'
    /\ forallb Required along' = forallb Required along.
Proof.
  induction 1 as [m k a Hin | m k a path along Hin Hblock Hreach IH]; intros m' Hsame.
  - destruct (sameEntries_In _ _ _ _ Hsame Hin) as (a' & Hin' & Hs).
    destruct (sameAttribute_fields _ _ Hs) as (Hr & _).
    exists [a']. split; [now constructor|]. cbn [forallb]. now rewrite Hr.
  - destruct (sameEntries_In _ _ _ _ Hsame Hin) as (a' & Hin' & Hs).
    destruct (sameAttribute_fields _ _ Hs) as (Hr & Hb & _ & Hattrs).
    destruct (IH _ Hattrs) as (along' & Hreach' & Hall).
    exists (a' :: along'). split.
    + constructor; [exact Hin' | congruence | exact Hreach'].
    + cbn [forallb]. now rewrite Hr, Hall.
Qed.

Lemma wfAttrs_same_list (prefix : string) (m m' : list (string * attribute)) :
  Forall (fun ka => forall a', sameAttribute (snd ka) a' ->
            wfAttrs (ResourcePath (snd ka)) (Attributes (snd ka)) ->
            wfAttrs (ResourcePath a') (Attributes a')) m ->
  sameEntries m m' -> wfAttrs prefix m -> wfAttrs prefix m'.
Proof.
  intros HP (visited & Hperm & Hall) Hwf.
  destruct (wfAttrs_inv _ _ Hwf) as [Hnd Hin]. constructor.
  - rewrite (Forall2_keys _ _ Hall). unfold AList.keys.
    eapply Permutation_NoDup; [apply Permutation_map, Hperm | exact Hnd].
  - rewrite List.Forall_forall. intros [k' a'] Hin'.
    destruct (Forall2_In_r _ _ _ _ Hall Hin') as ([k a] & Hv & Hk & Hs).
    simpl in Hk, Hs |- *. subst k'.
    assert (Hm : In (k, a) m) by (eapply Permutation_in; [symmetry; exact Hperm | exact Hv]).
    destruct (Hin k a Hm) as (Hnodot & Hp & Hw).
    destruct (sameAttribute_fields _ _ Hs) as (_ & _ & Hrp & _).
    split; [exact Hnodot|]. split; [congruence|].
    rewrite List.Forall_forall in HP. exact (HP (k, a) Hm a' Hs Hw).
Qed.

Lemma wfAttrs_same_attribute (a : attribute) :
  forall a', sameAttribute a a' ->
  wfAttrs (ResourcePath a) (Attributes a) -> wfAttrs (ResourcePath a') (Attributes a').
Proof.
  induction a as [a IH] using attribute_nested_ind. intros a' Hs Hwf.
  destruct (sameAttribute_fields _ _ Hs) as (_ & _ & Hrp & Hattrs).
  rewrite Hrp. exact (wfAttrs_same_list _ _ _ IH Hattrs Hwf).
Qed.

Lemma wfAttrs_same (prefix : string) (m m' : list (string * attribute)) :
  sameEntries m m' -> wfAttrs prefix m -> wfAttrs prefix m'.
Proof.
  apply wfAttrs_same_list. rewrite List.Forall_forall. intros [k a] _.
  apply wfAttrs_same_attribute.
Qed.

(** ** Reflecting the fields of a schema *)

Lemma AList_lookup_insert {A : Type} (k k' : string) (v : A) (m : list (string * A)) :
  AList.lookup k (AList.insert k' v m)
  = if String.eqb k k' then Some v else AList.lookup k m.
Proof.
  induction m as [|[k0 v0] m IH]; cbn [AList.insert AList.lookup].
  - reflexivity.
  - destruct (String.eqb_spec k' k0) as [->|Hne]; cbn [AList.lookup].
    + destruct (String.eqb k k0); reflexivity.
    + rewrite IH. destruct (String.eqb_spec k k0) as [->|Hne'].
      * destruct (String.eqb_spec k0 k') as [E|_]; [congruence | reflexivity].
      * reflexivity.
Qed.

Lemma AList_keys_insert {A : Type} (k : string) (v : A) (m : list (string * A)) (x : string) :
  In x (AList.keys (AList.insert k v m)) -> x = k \/ In x (AList.keys m).
Proof.
  unfold AList.keys. induction m as [|[k0 v0] m IH]; cbn [AList.insert map fst In].
  - intros [<-|[]]. now left.
  - destruct (String.eqb_spec k k0) as [->|Hne]; cbn [map fst In].
    + intros [<-|H]; [now left | right; now right].
    + intros [<-|H]; [right; now left|]. destruct (IH H) as [->|H']; [now left | right; now right].
Qed.

Lemma AList_NoDup_insert {A : Type} (k : string) (v : A) (m : list (string * A)) :
  List.NoDup (AList.keys m) -> List.NoDup (AList.keys (AList.insert k v m)).
Proof.
  induction m as [|[k0 v0] m IH]; cbn [AList.insert]; intros Hnd.
  - unfold AList.keys. cbn [map fst]. constructor; [intros [] | constructor].
  - destruct (String.eqb_spec k k0) as [->|Hne]; [exact Hnd|].
    unfold AList.keys in *. cbn [map fst] in *. inversion Hnd as [|x l Hnotin Hnd']; subst.
    constructor; [|now apply IH].
    intros Hin. destruct (AList_keys_insert _ _ _ _ Hin) as [E|Hin']; [congruence | contradiction].
Qed.

Lemma AList_lookup_In {A : Type} (k : string) (v : A) (m : list (string * A)) :
  AList.lookup k m = Some v -> In (k, v) m.
Proof.
  induction m as [|[k0 v0] m IH]; cbn [AList.lookup]; [discriminate|].
  destruct (String.eqb_spec k k0) as [->|Hne].
  - intros [= ->]. now left.
  - intros H. right. now apply IH.
Qed.

Lemma AList_In_lookup {A : Type} (k : string) (v : A) (m : list (string * A)) :
  List.NoDup (AList.keys m) -> In (k, v) m -> AList.lookup k m = Some v.
Proof.
  unfold AList.keys. induction m as [|[k0 v0] m IH]; cbn [AList.lookup map fst]; [intros _ []|].
  intros Hnd [E|Hin].
  - injection E as -> ->. now rewrite String.eqb_refl.
  - inversion Hnd as [|x l Hnotin Hnd']; subst.
    destruct (String.eqb_spec k k0) as [->|Hne].
    + exfalso. apply Hnotin. change k0 with (fst (k0, v)). now apply in_map.
    + now apply IH.
Qed.

Lemma insertSorted_In (k x : string) (l : list string) :
  In x (insertSorted k l) <-> x = k \/ In x l.
Proof.
  induction l as [|k' l IH]; cbn [insertSorted In].
  - intuition congruence.
  - destruct (String.leb k k'); cbn [In]; [intuition congruence|].
    rewrite IH. intuition congruence.
Qed.

Lemma sortStrings_In (x : string) (l : list string) :
  In x (sortStrings l) <-> In x l.
Proof.
  unfold sortStrings. induction l as [|k l IH]; cbn [fold_right In]; [reflexivity|].
  rewrite insertSorted_In, IH. intuition congruence.
Qed.

Section Collecting.

Variable fields : list (string * (schema.Schema * attribute)).

Lemma collect_NoDup (names : list string) (acc : list (string * attribute)) :
  List.NoDup (AList.keys acc) -> List.NoDup (AList.keys (fold_left
      (fun retAttributes fieldName =>
        match AList.lookup fieldName fields with
        | Some (s0, a0) =>
            if schema.Required s0 || schema.Optional s0
            then AList.insert fieldName a0 retAttributes
            else retAttributes
        | None => retAttributes
        end)
      names acc)).
Proof.
  revert acc. induction names as [|n names IH]; intros acc Hnd; cbn [fold_left]; [exact Hnd|].
  apply IH. destruct (AList.lookup n fields) as [[s a]|]; [|exact Hnd].
  destruct (schema.Required s || schema.Optional s); [|exact Hnd].
  now apply AList_NoDup_insert.
Qed.

Lemma collect_sound (names : list string) (acc : list (string * attribute))
    (k : string) (a : attribute) :
  AList.lookup k (fold_left
      (fun retAttributes fieldName =>
        match AList.lookup fieldName fields with
        | Some (s0, a0) =>
            if schema.Required s0 || schema.Optional s0
            then AList.insert fieldName a0 retAttributes
            else retAttributes
        | None => retAttributes
        end)
      names acc) = Some a ->
  AList.lookup k acc = Some a
  \/ exists s, AList.lookup k fields = Some (s, a) /\ reflected s = true.
Proof.
  revert acc. induction names as [|n names IH]; intros acc H; cbn [fold_left] in H; [now left|].
  destruct (IH _ H) as [Hacc|Hex]; [|now right].
  destruct (AList.lookup n fields) as [[s a']|] eqn:En; [|now left].
  destruct (schema.Required s || schema.Optional s) eqn:Er; [|now left].
  rewrite AList_lookup_insert in Hacc. destruct (String.eqb_spec k n) as [->|Hne]; [|now left].
  injection Hacc as ->. right. exists s. split; [exact En | exact Er].
Qed.

Lemma collect_complete (names : list string) (acc : list (string * attribute))
    (k : string) (s : schema.Schema) (a : attribute) :
  AList.lookup k fields = Some (s, a) -> reflected s = true ->
  In k names \/ AList.lookup k acc = Some a ->
  AList.lookup k (fold_left
      (fun retAttributes fieldName =>
        match AList.lookup fieldName fields with
        | Some (s0, a0) =>
            if schema.Required s0 || schema.Optional s0
            then AList.insert fieldName a0 retAttributes
            else retAttributes
        | None => retAttributes
        end)
      names acc) = Some a.
Proof.
  intros Hk Hr. revert acc. induction names as [|n names IH]; intros acc H; cbn [fold_left].
  - destruct H as [[]|H]. exact H.
  - apply IH. destruct (String.eqb_spec k n) as [<-|Hne].
    + right. rewrite Hk. unfold reflected in Hr. rewrite Hr.
      rewrite AList_lookup_insert. now rewrite String.eqb_refl.
    + destruct H as [[E|Hin]|Hacc]; [congruence | now left | right].
      destruct (AList.lookup n fields) as [[s' a']|]; [|exact Hacc].
      destruct (schema.Required s' || schema.Optional s'); [|exact Hacc].
      rewrite AList_lookup_insert. destruct (String.eqb_spec k n); [congruence | exact Hacc].
Qed.

Hypothesis fields_NoDup : List.NoDup (AList.keys fields).

Lemma collectInputAttributes_NoDup :
  List.NoDup (AList.keys (collectInputAttributes fields)).
Proof. unfold collectInputAttributes. apply collect_NoDup. constructor. Qed.

Lemma collectInputAttributes_In (k : string) (a : attribute) :
  In (k, a) (collectInputAttributes fields)
  <-> exists s, In (k, (s, a)) fields /\ reflected s = true.
Proof.
  split.
  - intros Hin. apply (AList_In_lookup _ _ _ collectInputAttributes_NoDup) in Hin.
    unfold collectInputAttributes in Hin.
    destruct (collect_sound _ _ _ _ Hin) as [Hnil|(s & Hk & Hr)]; [discriminate|].
    exists s. split; [now apply AList_lookup_In | exact Hr].
  - intros (s & Hin & Hr). apply AList_lookup_In. unfold collectInputAttributes.
    apply (collect_complete _ _ k s a); [now apply AList_In_lookup | exact Hr |].
    left. unfold sortFields. apply sortStrings_In. unfold AList.keys.
    change k with (fst (k, (s, a))). now apply in_map.
Qed.

End Collecting.

Lemma fieldAttribute_eq (s : schema.Schema) (parentPath fieldName : string) :
  ResourcePath (fieldAttribute s parentPath fieldName) = parentPath +:+ "." +:+ fieldName
  /\ Required (fieldAttribute s parentPath fieldName) = schema.Required s
  /\ IsBlock (fieldAttribute s parentPath fieldName) = isBlock s
  /\ Attributes (fieldAttribute s parentPath fieldName)
     = match schema.Elem s with
       | schema.ElemResource fields =>
           getAllInputAttributes fields
             (cloneSchemaToAttributes attribute_zero s true parentPath fieldName)
             true (parentPath +:+ "." +:+ fieldName)
       | _ => []
       end.
Proof.
  destruct s as [ty op rq co fn d ma mi cw vv el].
  destruct el as [|t|b|fields]; cbn; repeat split.
  unfold getAllInputAttributes. f_equal.
  induction fields as [|[k s'] l IH]; [reflexivity|]. cbn [map]. now rewrite IH.
Qed.

Lemma schema_nested_ind (P : schema.Schema -> Prop) :
  (forall s,
     (forall fields, schema.Elem s = schema.ElemResource fields ->
                     Forall (fun ks => P (snd ks)) fields) -> P s) ->
  forall s, P s.
Proof.
  intros H. fix IH 1. intros s. apply H.
  destruct s as [ty op rq co fn d ma mi cw vv el]. cbn [schema.Elem].
  destruct el as [|t|b|fields0]; try discriminate.
  assert (Hall : Forall (fun ks => P (snd ks)) fields0).
  { induction fields0 as [|[k s'] l IHl]; constructor; [apply IH | exact IHl]. }
  intros fields E. injection E as <-. exact Hall.
Qed.

Lemma wfFields_inv (input : list (string * schema.Schema)) :
  wfFields input ->
  List.NoDup (AList.keys input)
  /\ forall k s, In (k, s) input ->
       noDot k = true
       /\ forall fields, schema.Elem s = schema.ElemResource fields -> wfFields fields.
Proof.
  intros H. inversion H as [input' Hnd Hall]; subst. split; [exact Hnd|].
  intros k s Hin. rewrite List.Forall_forall in Hall. exact (Hall (k, s) Hin).
Qed.

Lemma reflect_keys (input : list (string * schema.Schema)) (parentPath : string) :
  AList.keys (map (fun '(k, s) => (k, (s, fieldAttribute s parentPath k))) input)
  = AList.keys input.
Proof.
  unfold AList.keys. rewrite map_map. apply map_ext. now intros [k s].
Qed.

Lemma getAllInputAttributes_NoDup (input : list (string * schema.Schema))
    (parent : attribute) (isChild : bool) (parentPath : string) :
  List.NoDup (AList.keys input) ->
  List.NoDup (AList.keys (getAllInputAttributes input parent isChild parentPath)).
Proof.
  intros Hnd. unfold getAllInputAttributes. apply collectInputAttributes_NoDup.
Qed.

Lemma getAllInputAttributes_In (input : list (string * schema.Schema))
    (parent : attribute) (isChild : bool) (parentPath : string) (k : string) (a : attribute) :
  List.NoDup (AList.keys input) ->
  (In (k, a) (getAllInputAttributes input parent isChild parentPath)
   <-> exists s, In (k, s) input /\ reflected s = true
                 /\ a = fieldAttribute s parentPath k).
Proof.
  intros Hnd. unfold getAllInputAttributes.
  rewrite collectInputAttributes_In by (now rewrite reflect_keys).
  split.
  - intros (s & Hin & Hr). exists s. apply in_map_iff in Hin.
    destruct Hin as ([k' s'] & E & Hin). injection E as -> -> <-. now repeat split.
  - intros (s & Hin & Hr & ->). exists s. split; [|exact Hr].
    apply in_map_iff. now exists (k, s).
Qed.

Lemma wfAttrs_reflect_list (input : list (string * schema.Schema)) :
  Forall (fun ks => forall p k,
            (forall fields, schema.Elem (snd ks) = schema.ElemResource fields ->
                            wfFields fields) ->
            wfAttrs (p +:+ "." +:+ k) (Attributes (fieldAttribute (snd ks) p k))) input ->
  wfFields input ->
  forall parent isChild p, wfAttrs p (getAllInputAttributes input parent isChild p).
Proof.
  intros HP Hwf parent isChild p. destruct (wfFields_inv _ Hwf) as [Hnd Hin].
  constructor; [now apply getAllInputAttributes_NoDup|].
  rewrite List.Forall_forall. intros [k a] Ha. cbn [fst snd].
  apply getAllInputAttributes_In in Ha; [|exact Hnd].
  destruct Ha as (s & Hs & _ & ->). destruct (Hin k s Hs) as [Hno Hsub].
  destruct (fieldAttribute_eq s p k) as (Hrp & _). rewrite Hrp.
  split; [exact Hno|]. split; [reflexivity|].
  rewrite List.Forall_forall in HP. exact (HP (k, s) Hs p k Hsub).
Qed.

Lemma wfAttrs_fieldAttribute (s : schema.Schema) :
  forall p k,
    (forall fields, schema.Elem s = schema.ElemResource fields -> wfFields fields) ->
    wfAttrs (p +:+ "." +:+ k) (Attributes (fieldAttribute s p k)).
Proof.
  induction s as [s IH] using schema_nested_ind. intros p k Hwf.
  destruct (fieldAttribute_eq s p k) as (_ & _ & _ & Hattrs). rewrite Hattrs.
  destruct (schema.Elem s) as [|t|b|fields] eqn:E;
    try (constructor; constructor).
  apply wfAttrs_reflect_list; [exact (IH fields eq_refl) | exact (Hwf fields eq_refl)].
Qed.

Lemma wfAttrs_getAllInputAttributes (input : list (string * schema.Schema))
    (parent : attribute) (isChild : bool) (p : string) :
  wfFields input -> wfAttrs p (getAllInputAttributes input parent isChild p).
Proof.
  intros Hwf. apply wfAttrs_reflect_list; [|exact Hwf].
  rewrite List.Forall_forall. intros [k s] _. apply wfAttrs_fieldAttribute.
Qed.

Lemma reaches_getAllInputAttributes (input : list (string * schema.Schema))
    (path : list string) (along : list schema.Schema) :
  declares input path along ->
  forall parent isChild p,
    wfFields input ->
    Forall (fun s => reflected s = true) along ->
    exists along',
      reaches (getAllInputAttributes input parent isChild p) path along'
      /\ forallb Required along' = forallb schema.Required along.
Proof.
  induction 1 as [input k s Hin | input fields k s path along Hin Helem Hdecl IH];
    intros parent isChild p Hwf Hall; destruct (wfFields_inv _ Hwf) as [Hnd Hsub];
    inversion Hall as [|s0 l0 Hr Hall']; subst;
    destruct (fieldAttribute_eq s p k) as (_ & Hreq & Hblock & Hattrs).
  - exists [fieldAttribute s p k]. split.
    + constructor. apply getAllInputAttributes_In; [exact Hnd|]. now exists s.
    + cbn [forallb]. now rewrite Hreq.
  - destruct (Hsub k s Hin) as [_ Hfields].
    destruct (IH (cloneSchemaToAttributes attribute_zero s true p k) true
                 (p +:+ "." +:+ k) (Hfields fields Helem) Hall')
      as (along' & Hreach & Hsame).
    exists (fieldAttribute s p k :: along'). split.
    + constructor.
      * apply getAllInputAttributes_In; [exact Hnd|]. now exists s.
      * rewrite Hblock. unfold isBlock. now rewrite Helem.
      * rewrite Hattrs, Helem. exact Hreach.
    + cbn [forallb]. now rewrite Hreq, Hsame.
Qed.

(** C2 (as amended): in the summary that output type [init] serialises, a
    field of the schema that is required or optional, and whose enclosing
    blocks are all required or optional, has an entry under its resource
    path, and the entry is published exactly when the field and all the
    blocks around it are required.  Field names hold no dot and every map
    holds a name once. *)
Theorem propertySummary_published {rt : GoRuntime}
    (input : list (string * schema.Schema)) (resourceName : string)
    (path : list string) (along : list schema.Schema) :
  wfFields input ->
  declares input path along ->
  Forall (fun s => reflected s = true) along ->
  exists v,
    propertySummary input resourceName !! pathString resourceName path = Some v
    /\ (summaryAttribute.Published v = true
        <-> Forall (fun s => schema.Required s = true) along).
Proof.
  intros Hwf Hdecl Hall. unfold propertySummary.
  set (m := getAllInputAttributes input attribute_zero false resourceName).
  destruct (reaches_getAllInputAttributes _ _ _ Hdecl attribute_zero false resourceName
              Hwf Hall) as (along1 & Hreach1 & Hsame1).
  fold m in Hreach1.
  pose proof (enumerate_same InSummary m) as Hsame.
  destruct (reaches_same _ _ _ Hreach1 _ Hsame) as (along2 & Hreach2 & Hsame2).
  assert (Hwf2 : wfAttrs resourceName (enumerate InSummary m)).
  { apply (wfAttrs_same _ m); [exact Hsame|]. now apply wfAttrs_getAllInputAttributes. }
  destruct (summarise_reaches _ _ _ Hreach2 resourceName resourceName true Hwf2)
    as (v & Hv & Hpub).
  exists v. split; [exact Hv|].
  rewrite Hpub, Hsame2, Hsame1. cbn [andb].
  rewrite forallb_forall, List.Forall_forall. reflexivity.
Qed.

Lemma wfFields_leaves (input : list (string * schema.Schema)) :
  List.NoDup (AList.keys input) ->
  Forall (fun ks => noDot (fst ks) = true /\ schema.Elem (snd ks) = schema.ElemNil) input ->
  wfFields input.
Proof.
  intros Hnd Hall. constructor; [exact Hnd|].
  eapply List.Forall_impl; [|exact Hall]. intros [k s] [Hno He]. split; [exact Hno|].
  intros fields E. simpl in E, He. congruence.
Qed.

Lemma wfFields_settingsSchema : wfFields settingsSchema.
Proof.
  constructor.
  - constructor; [intros [] | constructor].
  - constructor; [|constructor]. split; [reflexivity|].
    intros fields' E. injection E as <-. apply wfFields_leaves.
    + constructor; [cbn; intuition discriminate|]. constructor; [intros [] | constructor].
    + constructor; [now split|]. constructor; [now split | constructor].
Qed.

Lemma propertySummary_published_witness :
  wfFields settingsSchema
  /\ declares settingsSchema ["settings"; "name"]
       [blockSchema true false false settingsFields; leafSchema true false false]
  /\ Forall (fun s => reflected s = true)
       [blockSchema true false false settingsFields; leafSchema true false false]
  /\ exists v,
       @propertySummary listedOrder settingsSchema "azurerm_example"
         !! "azurerm_example.settings.name" = Some v
       /\ (summaryAttribute.Published v = true
           <-> Forall (fun s => schema.Required s = true)
                 [blockSchema true false false settingsFields;
                  leafSchema true false false]).
Proof.
  assert (Hdecl : declares settingsSchema ["settings"; "name"]
            [blockSchema true false false settingsFields; leafSchema true false false]).
  { apply (declares_below _ settingsFields); [now left | reflexivity |].
    apply declares_here. now left. }
  assert (Hall : Forall (fun s => reflected s = true)
            [blockSchema true false false settingsFields; leafSchema true false false]).
  { repeat constructor. }
  split; [exact wfFields_settingsSchema|]. split; [exact Hdecl|]. split; [exact Hall|].
  exact (@propertySummary_published listedOrder settingsSchema "azurerm_example"
           ["settings"; "name"] _ wfFields_settingsSchema Hdecl Hall).
Defined.

(** C2 (as stated) fails for an optional field of a block that is computed
    only: the block is not reflected, and the field [kind] with it, while
    the required field [name] beside it has its entry. *)
Lemma optional_field_of_computed_block_absent :
  wfFields identitySchema
  /\ declares identitySchema ["identity"; "kind"]
       [blockSchema false false true identityFields; leafSchema false true false]
  /\ reflected (leafSchema false true false) = true
  /\ @propertySummary listedOrder identitySchema "azurerm_example"
       !! "azurerm_example.identity.kind" = None
  /\ @propertySummary listedOrder identitySchema "azurerm_example"
       !! "azurerm_example.name"
     = Some (summaryAttribute.mk true false true false false EmptyString).
Proof.
  split.
  { constructor.
    - constructor; [cbn; intuition discriminate|]. constructor; [intros [] | constructor].
    - constructor; [split; [reflexivity | intros fields' E; discriminate]|].
      constructor; [|constructor]. split; [reflexivity|].
      intros fields' E. injection E as <-. apply wfFields_leaves.
      + constructor; [intros [] | constructor].
      + constructor; [now split | constructor]. }
  split.
  { apply (declares_below _ identityFields); [right; now left | reflexivity |].
    apply declares_here. now left. }
  split; [reflexivity|]. split; vm_compute; reflexivity.
Qed.

(** * Further properties of the generator *)

(** ** The helpers on names and paths *)

(** X1: a name shorter than two bytes.  The empty name and the name [_]
    make [v[0:1]] panic; any other name of one byte has its only segment
    skipped and gets the empty short code. *)
Theorem getResourceShortCode_short_names (resourceName : string) :
  String.length resourceName < 2 ->
  getResourceShortCode resourceName
  = if String.eqb resourceName EmptyString || String.eqb resourceName "_"
    then None else Some EmptyString.
Proof.
  destruct resourceName as [|c [|c' r]]; cbn [String.length]; intros Hlen; try lia.
  - reflexivity.
  - unfold getResourceShortCode. cbn [String.length GoStrings.Split String.eqb orb].
    destruct (Ascii.eqb c "_") eqn:E; reflexivity.
Qed.

Lemma getResourceShortCode_short_names_witness :
  String.length "x" < 2
  /\ getResourceShortCode "x" = Some EmptyString.
Proof.
  split; [cbn; lia|]. exact (getResourceShortCode_short_names "x" ltac:(cbn; lia)).
Defined.

Lemma Split_nonempty (sep : ascii) (s : string) : GoStrings.Split sep s <> [].
Proof.
  destruct s as [|c s]; cbn [GoStrings.Split]; [discriminate|].
  destruct (Ascii.eqb c sep); [discriminate|].
  destruct (GoStrings.Split sep s); discriminate.
Qed.

Lemma Join_String (sep : string) (c : ascii) (seg : string) (rest : list string) :
  GoStrings.Join sep (String c seg :: rest) = String c (GoStrings.Join sep (seg :: rest)).
Proof. destruct rest; reflexivity. Qed.

Lemma Join_Split (old new : ascii) (s : string) :
  GoStrings.Join (String new EmptyString) (GoStrings.Split old s) = replaceByte old new s.
Proof.
  induction s as [|c s IH]; [reflexivity|]. cbn [GoStrings.Split replaceByte].
  destruct (Ascii.eqb c old).
  - destruct (GoStrings.Split old s) as [|seg rest] eqn:E; [now apply Split_nonempty in E|].
    rewrite <- IH. reflexivity.
  - destruct (GoStrings.Split old s) as [|seg rest] eqn:E; [now apply Split_nonempty in E|].
    rewrite Join_String. now rewrite IH.
Qed.

(** X2: the variable name of a resource path is the path with every dot
    turned into an underscore; it has the length of the path. *)
Theorem genVariableNameFromResourcePath_replaces_dots (rp : string) :
  genVariableNameFromResourcePath rp = replaceByte "." "_" rp
  /\ String.length (genVariableNameFromResourcePath rp) = String.length rp.
Proof.
  unfold genVariableNameFromResourcePath.
  change "_" with (String "_"%char EmptyString) at 1 2.
  rewrite Join_Split. split; [reflexivity|].
  induction rp as [|c rp IH]; [reflexivity|]. cbn [replaceByte String.length]. now rewrite IH.
Qed.

Lemma Split_noDot (k : string) : noDot k = true -> GoStrings.Split "." k = [k].
Proof.
  induction k as [|c k IH]; [reflexivity|]. cbn [noDot GoStrings.Split].
  intros H. apply andb_prop in H as [Hc Hk]. apply negb_true_iff in Hc. rewrite Hc.
  now rewrite (IH Hk).
Qed.

Lemma Split_first (first rest : string) :
  noDot first = true ->
  GoStrings.Split "." (first +:+ "." +:+ rest) = first :: GoStrings.Split "." rest.
Proof.
  induction first as [|c f IH]; intros H.
  - rewrite app_empty_l. reflexivity.
  - cbn [noDot] in H. apply andb_prop in H as [Hc Hf]. apply negb_true_iff in Hc.
    rewrite app_String. cbn [GoStrings.Split]. rewrite Hc. now rewrite (IH Hf).
Qed.

(** X3: the name that the module, variable and local blocks build inline
    for a nested [name] field: the path without its first segment, the dots
    turned into underscores.  A path of one segment gives the empty name. *)
Theorem nameWithoutFirstSegment_drops_first (first rest : string) :
  noDot first = true ->
  nameWithoutFirstSegment (first +:+ "." +:+ rest) = genVariableNameFromResourcePath rest
  /\ nameWithoutFirstSegment first = EmptyString.
Proof.
  intros H. unfold nameWithoutFirstSegment, genVariableNameFromResourcePath.
  now rewrite (Split_first _ _ H), (Split_noDot _ H).
Qed.

Lemma nameWithoutFirstSegment_drops_first_witness :
  noDot "azurerm_subnet" = true
  /\ nameWithoutFirstSegment ("azurerm_subnet" +:+ "." +:+ "delegation.name")
     = genVariableNameFromResourcePath "delegation.name"
  /\ nameWithoutFirstSegment "azurerm_subnet" = EmptyString.
Proof.
  split; [reflexivity|].
  exact (nameWithoutFirstSegment_drops_first "azurerm_subnet" "delegation.name" eq_refl).
Defined.

Lemma labelLoop_shift {rt : GoRuntime} (n i : nat) (l : list string) (label : string) :
  labelLoop (S n) (S i) l label = labelLoop n i l label.
Proof.
  revert i label. induction l as [|v l IH]; intros i label; [reflexivity|].
  cbn [labelLoop]. rewrite !IH.
  replace (Nat.ltb (S i) (S n - 1)) with (Nat.ltb i (n - 1)); [reflexivity|].
  destruct (Nat.ltb_spec i (n - 1)), (Nat.ltb_spec (S i) (S n - 1)); try reflexivity; lia.
Qed.

(** X4: the label of a name.  A leading [dlta_] leaves no trace in the
    label, and a name of one word other than [dlta] is labelled by its
    title-cased form. *)
Theorem convertNameToLabel_dlta_prefix {rt : GoRuntime} (name : string) :
  convertNameToLabel ("dlta_" +:+ name) = convertNameToLabel name
  /\ (GoStrings.Split "_" name = [name] -> name <> "dlta" ->
      convertNameToLabel name = strings_Title name).
Proof.
  split.
  - unfold convertNameToLabel.
    change (GoStrings.Split "_" ("dlta_" +:+ name))
      with ("dlta" :: GoStrings.Split "_" name).
    cbn [labelLoop length]. change ("dlta" =? "dlta")%string with true. cbv iota.
    apply labelLoop_shift.
  - intros Hs Hne. unfold convertNameToLabel. rewrite Hs. cbn [labelLoop length].
    destruct (String.eqb_spec name "dlta") as [E|_]; [contradiction|].
    cbn. rewrite app_empty_l. apply string_app_nil_r.
Qed.

Lemma convertNameToLabel_dlta_prefix_witness :
  @convertNameToLabel listedOrder "dlta_instance_id" = @convertNameToLabel listedOrder "instance_id".
Proof. exact (proj1 (@convertNameToLabel_dlta_prefix listedOrder "instance_id")). Defined.

(** X5: a name that the table of its kind does not list has the zero
    naming struct looked up for it, and the convention is the empty string;
    so it is for every data source but the two listed ones, whatever the
    resource table says of the name. *)
Theorem getResourceNamingConvention_unlisted (resourceName : string) (isDataSource : bool) :
  ~ In resourceName
      (AList.keys (if isDataSource then dataSourceSpecificNaming else resourceSpecificNaming)) ->
  getResourceNamingConvention resourceName isDataSource = EmptyString.
Proof.
  intros Hn. unfold getResourceNamingConvention.
  rewrite (AList_lookup_None _ _ Hn). reflexivity.
Qed.

Lemma getResourceNamingConvention_unlisted_witness :
  getResourceNamingConvention "azurerm_resource_group" true = EmptyString.
Proof.
  apply (getResourceNamingConvention_unlisted "azurerm_resource_group" true).
  vm_compute. intros [H|[H|[]]]; discriminate.
Defined.

(** ** Resolving the name, and the flags *)

Section Dispatch.

Context {rt : GoRuntime}.

Lemma resolveUntyped_last (before after : list (list (string * schema.Resource)))
    (service : list (string * schema.Resource)) (resourceName : string)
    (r : schema.Resource) (found : option schema.Resource) :
  AList.lookup resourceName service = Some r ->
  ~ In resourceName (concat (map (@AList.keys schema.Resource) after)) ->
  resolveUntyped (before ++ service :: after) resourceName found = Some r.
Proof.
  intros Hs Hafter. unfold resolveUntyped. rewrite fold_left_app. cbn [fold_left].
  rewrite Hs. now apply resolveUntyped_unregistered.
Qed.

Lemma resolveTyped_clean kind entries resourceName found :
  (forall service err, In service entries ->
     AList.lookup resourceName service <> Some (inr err)) ->
  exists found', resolveTyped kind entries resourceName found = inr found'.
Proof.
  revert found. induction entries as [|service rest IH]; intros found Hclean; cbn [resolveTyped].
  - now exists found.
  - destruct (AList.lookup resourceName service) as [[wrapped|err]|] eqn:E.
    + apply IH. intros s e Hin. apply Hclean. now right.
    + exfalso. apply (Hclean service err); [now left | exact E].
    + apply IH. intros s e Hin. apply Hclean. now right.
Qed.

(** X6: a name registered with an untyped service overrides what the typed
    services registered for it: when no wrapper of the name fails, the
    generator gets the resource of the last untyped service that lists the
    name. *)
Theorem resolve_untyped_overrides (provider : Provider) (resourceName : string)
    (isResource : bool) (before after : list UntypedService) (service : UntypedService)
    (r : schema.Resource) :
  resourceName <> "terraform_azurerm" ->
  resourceName <> "devops_pipeline" ->
  SupportedUntypedServices provider = before ++ service :: after ->
  AList.lookup resourceName
    ((if isResource then SupportedResources else SupportedDataSources) service) = Some r ->
  (forall s, In s after ->
     AList.lookup resourceName
       ((if isResource then SupportedResources else SupportedDataSources) s) = None) ->
  (forall s err, In s (SupportedTypedServices provider) ->
     AList.lookup resourceName ((if isResource then Resources else DataSources) s)
     <> Some (inr err)) ->
  resolve provider resourceName isResource = inr (Some r).
Proof.
  intros Ha Hd Hsplit Hs Hafter Hclean. unfold resolve.
  destruct (String.eqb_spec resourceName "terraform_azurerm") as [|_]; [contradiction|].
  destruct (String.eqb_spec resourceName "devops_pipeline") as [|_]; [contradiction|].
  cbn [negb andb].
  destruct (resolveTyped_clean (if isResource then "Resource" else "Data Source")
              (map (if isResource then Resources else DataSources)
                 (SupportedTypedServices provider)) resourceName None) as [found Hfound].
  { intros s err Hin. apply in_map_iff in Hin as (s0 & <- & Hin0). now apply Hclean. }
  rewrite Hfound, Hsplit, map_app. cbn [map].
  rewrite (resolveUntyped_last _ _ _ _ r); [reflexivity | exact Hs |].
  intros Hin. apply in_concat in Hin as (keys & Hkeys & Hin).
  apply in_map_iff in Hkeys as (svc & <- & Hsvc).
  apply in_map_iff in Hsvc as (s & <- & Hs').
  specialize (Hafter s Hs').
  apply in_map_iff in Hin as ([k v] & Hk & Hkv). cbn in Hk. subst k.
  clear -Hafter Hkv.
  induction ((if isResource then SupportedResources else SupportedDataSources) s)
    as [|[k' v'] l IH]; [destruct Hkv|].
  cbn [AList.lookup] in Hafter. destruct (String.eqb_spec resourceName k') as [->|Hne];
    [discriminate|].
  destruct Hkv as [E|Hin]; [congruence|]. now apply IH.
Qed.

Lemma resolveTyped_error kind (before after : list (list (string * (schema.Resource + string))))
    service resourceName err found :
  (forall s e, In s before -> AList.lookup resourceName s <> Some (inr e)) ->
  AList.lookup resourceName service = Some (inr err) ->
  resolveTyped kind (before ++ service :: after) resourceName found
  = inl (catStrings ["wrapping "; kind; " "; fmt_q resourceName; ": "; err]).
Proof.
  revert found. induction before as [|s before IH]; intros found Hclean Hs; cbn [app resolveTyped].
  - now rewrite Hs.
  - destruct (AList.lookup resourceName s) as [[wrapped|e]|] eqn:E.
    + apply IH; [|exact Hs]. intros s' e' Hin. apply Hclean. now right.
    + exfalso. apply (Hclean s e); [now left | exact E].
    + apply IH; [|exact Hs]. intros s' e' Hin. apply Hclean. now right.
Qed.

(** X7: the first typed service whose wrapper of the name fails ends the
    lookup with the error of the wrapper, whatever an earlier typed service
    or any untyped service registers for the name. *)
Theorem resolve_wrapping_error (provider : Provider) (resourceName : string)
    (isResource : bool) (before after : list TypedService) (service : TypedService)
    (err : string) :
  resourceName <> "terraform_azurerm" ->
  resourceName <> "devops_pipeline" ->
  SupportedTypedServices provider = before ++ service :: after ->
  (forall s e, In s before ->
     AList.lookup resourceName ((if isResource then Resources else DataSources) s)
     <> Some (inr e)) ->
  AList.lookup resourceName ((if isResource then Resources else DataSources) service)
  = Some (inr err) ->
  resolve provider resourceName isResource
  = inl (catStrings ["wrapping "; if isResource then "Resource" else "Data Source"; " ";
                     fmt_q resourceName; ": "; err]).
Proof.
  intros Ha Hd Hsplit Hclean Hs. unfold resolve.
  destruct (String.eqb_spec resourceName "terraform_azurerm") as [|_]; [contradiction|].
  destruct (String.eqb_spec resourceName "devops_pipeline") as [|_]; [contradiction|].
  cbn [negb andb]. rewrite Hsplit, map_app. cbn [map].
  rewrite (resolveTyped_error _ _ _ _ _ err); [reflexivity | | exact Hs].
  intros s e Hin. apply in_map_iff in Hin as (s0 & <- & Hin0). now apply Hclean.
Qed.

(** X8: the flags.  [main] ends with a message and exit status 1 exactly
    when [-name], [-dlta-path] or [-force] is empty, [-type] is neither [data]
    nor [resource], or [-output-type] is none of [init], [scaffold] and
    [config]; it has then made no system call and printed nothing. *)
Theorem main_rejects_bad_flags (provider : Provider)
    (resourceName resourceType dltaPath outputType force : string) (w : World) :
  let bad :=
    resourceName = EmptyString
    \/ (resourceType <> "data" /\ resourceType <> "resource")
    \/ (outputType <> "init" /\ outputType <> "scaffold" /\ outputType <> "config")
    \/ dltaPath = EmptyString
    \/ force = EmptyString in
  (bad -> exists message,
            main provider resourceName resourceType dltaPath outputType force w
            = (Done (ExitError message), w))
  /\ (forall message w',
        main provider resourceName resourceType dltaPath outputType force w
        = (Done (ExitError message), w') -> bad).
Proof.
  cbv zeta. unfold main.
  destruct (String.eqb_spec resourceName EmptyString) as [Hn|Hn];
    [split; [intros _; eexists; reflexivity | intros _ _ _; now left]|].
  destruct (String.eqb_spec resourceType EmptyString) as [Ht|Ht];
    [split; [intros _; eexists; reflexivity
            | intros _ _ _; right; left; subst; split; discriminate]|].
  destruct (String.eqb_spec resourceType "data") as [Htd|Htd];
    destruct (String.eqb_spec resourceType "resource") as [Htr|Htr]; cbn [negb andb];
    try (split; [intros _; eexists; reflexivity | intros _ _ _; right; left; now split]).
  all: destruct (String.eqb_spec outputType "init") as [Hoi|Hoi];
    destruct (String.eqb_spec outputType "scaffold") as [Hos|Hos];
    destruct (String.eqb_spec outputType "config") as [Hoc|Hoc]; cbn [negb andb];
    try (split; [intros _; eexists; reflexivity
                | intros _ _ _; right; right; left; now repeat split]).
  all: destruct (String.eqb_spec dltaPath EmptyString) as [Hp|Hp];
    try (split; [intros _; eexists; reflexivity | intros _ _ _; do 3 right; now left]).
  all: destruct (String.eqb_spec force EmptyString) as [Hf|Hf];
    try (split; [intros _; eexists; reflexivity | intros _ _ _; do 4 right; exact Hf]).
  all: split;
    [ intros [H|[[H1 H2]|[[H1 [H2 H3]]|[H|H]]]]; congruence
    | intros message w'; unfold bind;
      destruct (run provider resourceName _ dltaPath outputType _ w) as [[[e|]|] w1];
      unfold ret; discriminate ].
Qed.

Lemma resolve_unregistered (provider : Provider) (resourceName : string) (isResource : bool) :
  resourceName <> "terraform_azurerm" ->
  resourceName <> "devops_pipeline" ->
  ~ In resourceName (registeredNames provider isResource) ->
  resolve provider resourceName isResource
  = inl (catStrings [if isResource then "Resource" else "Data Source"; " ";
                     fmt_q resourceName; " was not registered!"]).
Proof.
  intros Ha Hd Hn. unfold resolve.
  destruct (String.eqb_spec resourceName "terraform_azurerm") as [|_]; [contradiction|].
  destruct (String.eqb_spec resourceName "devops_pipeline") as [|_]; [contradiction|].
  cbn [negb andb]. unfold registeredNames in Hn. rewrite in_app_iff in Hn.
  rewrite resolveTyped_unregistered, resolveUntyped_unregistered.
  - reflexivity.
  - rewrite map_map. intros H. apply Hn. right. destruct isResource; exact H.
  - rewrite map_map. intros H. apply Hn. left. destruct isResource; exact H.
Qed.

(** X9: with flags that pass the checks, a name that is not registered for
    the requested kind makes [main] panic with the error of [getContent]
    wrapped by [run], before any system call. *)
Theorem main_unregistered_panics (provider : Provider)
    (resourceName resourceType dltaPath outputType force : string) (w : World) :
  resourceName <> EmptyString ->
  resourceType = "data" \/ resourceType = "resource" ->
  outputType = "init" \/ outputType = "scaffold" \/ outputType = "config" ->
  dltaPath <> EmptyString ->
  force <> EmptyString ->
  resourceName <> "terraform_azurerm" ->
  resourceName <> "devops_pipeline" ->
  ~ In resourceName (registeredNames provider (String.eqb resourceType "resource")) ->
  main provider resourceName resourceType dltaPath outputType force w
  = (Done (ExitPanic
             ("building content: "
              +:+ catStrings [if String.eqb resourceType "resource"
                              then "Resource" else "Data Source"; " ";
                              fmt_q resourceName; " was not registered!"])), w).
Proof.
  intros Hn Ht Ho Hp Hf Ha Hd Hreg. unfold main.
  destruct (String.eqb_spec resourceName EmptyString) as [|_]; [contradiction|].
  assert (Hte : String.eqb resourceType EmptyString = false)
    by (destruct Ht as [-> | ->]; reflexivity).
  assert (Htc : negb (String.eqb resourceType "data") && negb (String.eqb resourceType "resource")
                = false) by (destruct Ht as [-> | ->]; reflexivity).
  assert (Hoc : negb (String.eqb outputType "init") && negb (String.eqb outputType "scaffold")
                && negb (String.eqb outputType "config") = false)
    by (destruct Ho as [-> | [-> | ->]]; reflexivity).
  rewrite Hte, Htc, Hoc.
  destruct (String.eqb_spec dltaPath EmptyString) as [|_]; [contradiction|].
  destruct (String.eqb_spec force EmptyString) as [|_]; [contradiction|].
  unfold run, getContent. rewrite (resolve_unregistered _ _ _ Ha Hd Hreg). reflexivity.
Qed.

End Dispatch.

Lemma resolve_untyped_overrides_witness :
  @resolve listedOrder overlappingProvider "azurerm_subnet" true
  = inr (Some (schema.mkResource [])).
Proof.
  apply (@resolve_untyped_overrides listedOrder overlappingProvider "azurerm_subnet" true
           [] [] (mkUntyped [] [("azurerm_subnet", schema.mkResource [])])).
  - discriminate.
  - discriminate.
  - reflexivity.
  - reflexivity.
  - intros s [].
  - intros s err [<-|[]]. discriminate.
Defined.

Lemma resolve_wrapping_error_witness :
  @resolve listedOrder failingProvider "azurerm_subnet" true
  = inl (catStrings ["wrapping "; "Resource"; " "; dq +:+ "azurerm_subnet" +:+ dq; ": ";
                     "no schema"]).
Proof.
  apply (@resolve_wrapping_error listedOrder failingProvider "azurerm_subnet" true
           [mkTyped [] [("azurerm_subnet", inl (schema.mkResource groupSchema))]] []
           (mkTyped [] [("azurerm_subnet", inr "no schema")]) "no schema").
  - discriminate.
  - discriminate.
  - reflexivity.
  - intros s e [<-|[]]. discriminate.
  - reflexivity.
Defined.

Lemma main_unregistered_panics_witness :
  @main listedOrder exampleProvider "azurerm_missing" "data" "dlta" "init" "n" (calmWorld ∅)
  = (Done (ExitPanic
             ("building content: "
              +:+ catStrings ["Data Source"; " "; dq +:+ "azurerm_missing" +:+ dq;
                              " was not registered!"])), calmWorld ∅).
Proof.
  apply (@main_unregistered_panics listedOrder exampleProvider "azurerm_missing" "data"
           "dlta" "init" "n" (calmWorld ∅)).
  - discriminate.
  - now left.
  - now left.
  - discriminate.
  - discriminate.
  - discriminate.
  - discriminate.
  - vm_compute. intros [H|[]]. discriminate.
Defined.

(** ** Writing and reading files *)

Section Files.

Context {rt : GoRuntime}.

(** X10: a fresh artefact.  Without [-force], without faults and with no
    file at the path, [writeResource] makes six system calls in this order:
    the [stat] that fails, [mkdir -p] of the directory, [create], [write],
    [sync] and [close]; it prints nothing, and the directory is the path up
    to the file name. *)
Theorem writeResource_fresh_calls (gen : documentationGenerator) (s : string)
    (a : Artefact) (w : World) :
  isForced gen = false ->
  faults w = [] ->
  files w !! artefactPath gen a = None ->
  let path := artefactPath gen a in
  let dir := outputDirectoryName gen (snd (artefactFile a)) in
  exists w',
    writeResource gen s a w = (Done EmptyString, w')
    /\ syscalls w'
       = syscalls w ++ [(Stat path, Some ENOENT); (MkdirAll dir, None); (Create path, None);
                        (WriteString path s, None); (Sync path, None); (Close path, None)]
    /\ stdout w' = stdout w
    /\ files w' = <[path := s]> (files w)
    /\ path = dir +:+ fst (artefactFile a).
Proof.
  intros Hforce Hcalm Habs. cbv zeta. destruct w as [fs out fl sc uu]. simpl in *. subst fl.
  rewrite writeResource_writeFile, Hforce, writeFile_calm_create by exact Habs.
  eexists. repeat split.
  unfold artefactPath, outputDirectoryName. cbn [catStrings fold_right].
  rewrite !string_app_assoc, !string_app_nil_r. reflexivity.
Qed.

(** X11: the property file.  Under the same conditions [init] makes the
    same six calls, but the directory it creates starts at the root while
    the file it creates does not: the directory followed by the file name is
    the path of the file with a slash put before it. *)
Theorem writeInitResourceProperties_fresh_calls (gen : documentationGenerator)
    (r : schema.Resource) (w : World) :
  notSpecial gen = true ->
  resource gen = Some r ->
  isForced gen = false ->
  faults w = [] ->
  files w !! propertiesFileName gen = None ->
  let path := propertiesFileName gen in
  let dir := outputDirectoryName gen "resource" in
  exists w',
    writeInitResourceProperties gen w = (Done EmptyString, w')
    /\ syscalls w'
       = syscalls w ++ [(Stat path, Some ENOENT); (MkdirAll dir, None); (Create path, None);
                        (WriteString path (initContent gen r), None); (Sync path, None);
                        (Close path, None)]
    /\ stdout w' = stdout w
    /\ files w' = <[path := initContent gen r]> (files w)
    /\ dir +:+ resourceName gen +:+ ".json" = "/" +:+ path.
Proof.
  intros Hns Hr Hforce Hcalm Habs. cbv zeta. destruct w as [fs out fl sc uu]. simpl in *.
  subst fl.
  rewrite (writeInitResourceProperties_writeFile gen r), Hforce, writeFile_calm_create
    by assumption.
  eexists. repeat split.
  unfold propertiesFileName, outputDirectoryName. cbn [catStrings fold_right].
  rewrite !string_app_assoc, !string_app_nil_r. reflexivity.
Qed.

Lemma readResourceProperties_calm_present gen (path content : string) fs out sc uu :
  notSpecial gen = true ->
  filepath_Abs (propertiesFileName gen) = inl path ->
  fs !! path = Some content ->
  readResourceProperties gen (mkWorld fs out [] sc uu)
  = (Done (json_Unmarshal_summary content),
     mkWorld fs out [] (sc ++ [(Stat path, None); (ReadFile path, None)]) uu).
Proof.
  intros Hns Habs Hfile. unfold readResourceProperties. rewrite Hns, Habs.
  unfold bind at 1. rewrite os_Stat_calm_present by eauto. cbn [isNil negb].
  unfold bind at 1. unfold os_ReadFile. rewrite perform_calm. cbn [fst snd files].
  rewrite Hfile. cbn [default]. unfold ret. now rewrite <- app_assoc.
Qed.

Lemma readResourceProperties_calm_absent gen (path : string) fs out sc uu :
  notSpecial gen = true ->
  filepath_Abs (propertiesFileName gen) = inl path ->
  fs !! path = None ->
  readResourceProperties gen (mkWorld fs out [] sc uu)
  = (Done ∅,
     mkWorld fs
       (out ++ [catStrings ["readResourceProperties "; dq; "2. File does not exist"; dq;
                            ": "; path; nl];
                catStrings ["readResourceProperties "; dq;
                            "2. You may not have run init to create"; dq; ": "; path; nl]])
       [] (sc ++ [(Stat path, Some ENOENT)]) uu).
Proof.
  intros Hns Habs Hfile. unfold readResourceProperties. rewrite Hns, Habs.
  unfold bind at 1. rewrite os_Stat_calm_absent by exact Hfile. cbn [isNil negb].
  unfold bind, fmt_Printf, ret. cbn [files stdout faults syscalls uuids].
  now rewrite <- app_assoc.
Qed.

(** X13: what [init] writes, the scaffold reads.  After
    [writeInitResourceProperties] has run without faults, on a path that
    [filepath.Abs] leaves as it is, [readResourceProperties] decodes exactly
    the text that was written, changes no file and prints nothing. *)
Theorem readResourceProperties_after_init (gen : documentationGenerator)
    (r : schema.Resource) (w : World) :
  notSpecial gen = true ->
  resource gen = Some r ->
  faults w = [] ->
  isForced gen = true \/ files w !! propertiesFileName gen = None ->
  filepath_Abs (propertiesFileName gen) = inl (propertiesFileName gen) ->
  exists w1 w2,
    writeInitResourceProperties gen w = (Done EmptyString, w1)
    /\ readResourceProperties gen w1
       = (Done (json_Unmarshal_summary (initContent gen r)), w2)
    /\ files w2 = files w1
    /\ stdout w2 = stdout w.
Proof.
  intros Hns Hr Hcalm Hfree Habs. destruct w as [fs out fl sc uu]. simpl in *. subst fl.
  rewrite (writeInitResourceProperties_writeFile gen r) by assumption.
  assert (Hw : exists sc',
             writeFile "initResourceProperties"
               (catStrings ["initResourceProperties "; dq; "3. File exists error"; dq; ": ";
                            propertiesFileName gen; nl])
               (isForced gen) (outputDirectoryName gen "resource") (propertiesFileName gen)
               (initContent gen r) (mkWorld fs out [] sc uu)
             = (Done tt,
                mkWorld (<[propertiesFileName gen := initContent gen r]> fs) out [] sc' uu)).
  { destruct (isForced gen) eqn:Hforce.
    - destruct (fs !! propertiesFileName gen) as [old|] eqn:Hold.
      + rewrite writeFile_calm_replaced by eauto. eauto.
      + rewrite writeFile_calm_forced_absent by exact Hold. eauto.
    - destruct Hfree as [|Hfree]; [discriminate|].
      rewrite writeFile_calm_create by exact Hfree. eauto. }
  destruct Hw as [sc' ->]. do 2 eexists. split; [reflexivity|].
  rewrite (readResourceProperties_calm_present gen (propertiesFileName gen)
             (initContent gen r) _ _ _ _ Hns Habs (lookup_insert_eq _ _ _)).
  now repeat split.
Qed.

Lemma getAllPublishedAttributes_empty (allAttr : list (string * attribute)) :
  getAllPublishedAttributes allAttr ∅ = [].
Proof.
  unfold getAllPublishedAttributes. induction allAttr as [|[k a] l IH]; [reflexivity|].
  cbn [fold_left]. change (isPublished ∅ (ResourcePath a)) with false. exact IH.
Qed.

Lemma mergeAttributes_nil (gen : documentationGenerator) :
  mergeAttributes (getInjectAttributes gen) [] = getInjectAttributes gen.
Proof.
  unfold getInjectAttributes.
  destruct (String.eqb (resourceName gen) "terraform_azurerm"); [reflexivity|].
  destruct (String.eqb (resourceName gen) "devops_pipeline"); [reflexivity|].
  destruct (isDataSource gen); reflexivity.
Qed.

(** X14: the scaffold without its property file.  When the file that
    [init] writes is not there, [injectAttributes] says so in two lines and
    returns the injected attributes alone: no field of the schema reaches the
    blocks. *)
Theorem injectAttributes_without_property_file (gen : documentationGenerator)
    (r : schema.Resource) (path : string) (w : World) :
  notSpecial gen = true ->
  resource gen = Some r ->
  filepath_Abs (propertiesFileName gen) = inl path ->
  faults w = [] ->
  files w !! path = None ->
  exists w',
    injectAttributes gen w = (Done (getInjectAttributes gen), w')
    /\ files w' = files w
    /\ stdout w'
       = stdout w
         ++ [catStrings ["readResourceProperties "; dq; "2. File does not exist"; dq;
                         ": "; path; nl];
             catStrings ["readResourceProperties "; dq;
                         "2. You may not have run init to create"; dq; ": "; path; nl]]
    /\ syscalls w' = syscalls w ++ [(Stat path, Some ENOENT)].
Proof.
  intros Hns Hr Habs Hcalm Hfile. destruct w as [fs out fl sc uu]. simpl in *. subst fl.
  unfold injectAttributes, getPublishedAttributes. rewrite Hr.
  unfold bind. rewrite (readResourceProperties_calm_absent gen path) by assumption.
  unfold ret. rewrite getAllPublishedAttributes_empty, mergeAttributes_nil.
  eexists. now repeat split.
Qed.

Lemma insertAll_lookup {A : Type} (entries m : list (string * A)) (k : string) :
  List.NoDup (AList.keys entries) ->
  AList.lookup k (insertAll entries m)
  = match AList.lookup k entries with
    | Some a => Some a
    | None => AList.lookup k m
    end.
Proof.
  unfold insertAll, AList.keys. revert m.
  induction entries as [|[k0 v0] rest IH]; intros m Hnd; [reflexivity|].
  cbn [fold_left map fst AList.lookup] in *. inversion Hnd as [|x l Hnotin Hnd']; subst.
  rewrite (IH _ Hnd'), AList_lookup_insert.
  destruct (String.eqb_spec k k0) as [->|Hne]; [|reflexivity].
  rewrite AList_lookup_None; [reflexivity | exact Hnotin].
Qed.

(** X15: merging.  In the map that [injectAttributes] returns, a name that
    the published attributes hold has the published attribute, also when an
    injected attribute has the same name; any other name has what was
    injected for it, if anything. *)
Theorem mergeAttributes_lookup (injected published : list (string * attribute))
    (k : string) :
  List.NoDup (AList.keys injected) ->
  List.NoDup (AList.keys published) ->
  AList.lookup k (mergeAttributes injected published)
  = match AList.lookup k published with
    | Some a => Some a
    | None => AList.lookup k injected
    end.
Proof.
  intros Hi Hp. unfold mergeAttributes. rewrite !insertAll_lookup by assumption.
  cbn [AList.lookup]. now destruct (AList.lookup k injected).
Qed.

End Files.

Lemma writeResource_fresh_calls_witness :
  exists w',
    @writeResource listedOrder groupGen "text" TerraformTemplate (calmWorld ∅)
    = (Done EmptyString, w')
    /\ syscalls w'
       = [(Stat "/dlta/r/azurerm_example/resource/template.json", Some ENOENT);
          (MkdirAll "/dlta/r/azurerm_example/resource/", None);
          (Create "/dlta/r/azurerm_example/resource/template.json", None);
          (WriteString "/dlta/r/azurerm_example/resource/template.json" "text", None);
          (Sync "/dlta/r/azurerm_example/resource/template.json", None);
          (Close "/dlta/r/azurerm_example/resource/template.json", None)].
Proof.
  assert (Habs : files (calmWorld ∅) !! artefactPath groupGen TerraformTemplate = None)
    by (vm_compute; reflexivity).
  destruct (@writeResource_fresh_calls listedOrder groupGen "text" TerraformTemplate
              (calmWorld ∅) eq_refl eq_refl Habs) as (w' & E & Hs & _).
  exists w'. split; [exact E | exact Hs].
Defined.

Lemma writeInitResourceProperties_fresh_calls_witness :
  exists w',
    @writeInitResourceProperties listedOrder groupGen (calmWorld ∅) = (Done EmptyString, w')
    /\ In (MkdirAll "/dlta/r/azurerm_example/resource/", None) (syscalls w')
    /\ In (Create "dlta/r/azurerm_example/resource/azurerm_example.json", None) (syscalls w').
Proof.
  assert (Habs : files (calmWorld ∅) !! @propertiesFileName groupGen = None)
    by (vm_compute; reflexivity).
  destruct (@writeInitResourceProperties_fresh_calls listedOrder groupGen
              (schema.mkResource groupSchema) (calmWorld ∅)
              eq_refl eq_refl eq_refl eq_refl Habs) as (w' & E & Hs & _).
  exists w'. split; [exact E|]. rewrite Hs. split; cbn; tauto.
Defined.

Lemma readResourceProperties_after_init_witness :
  exists w1 w2,
    @writeInitResourceProperties (decoding groupSummary) groupGen (calmWorld ∅)
    = (Done EmptyString, w1)
    /\ @readResourceProperties (decoding groupSummary) groupGen w1 = (Done groupSummary, w2).
Proof.
  assert (Habs : files (calmWorld ∅) !! @propertiesFileName groupGen = None)
    by (vm_compute; reflexivity).
  destruct (@readResourceProperties_after_init (decoding groupSummary) groupGen
              (schema.mkResource groupSchema) (calmWorld ∅)
              eq_refl eq_refl eq_refl (or_intror Habs) eq_refl)
    as (w1 & w2 & E1 & E2 & _).
  exists w1, w2. split; [exact E1 | exact E2].
Defined.

Lemma injectAttributes_without_property_file_witness :
  exists w',
    @injectAttributes listedOrder groupGen (calmWorld ∅)
    = (Done (getInjectAttributes groupGen), w')
    /\ files w' = ∅.
Proof.
  assert (Habs : files (calmWorld ∅)
                   !! "dlta/r/azurerm_example/resource/azurerm_example.json" = None)
    by (vm_compute; reflexivity).
  destruct (@injectAttributes_without_property_file listedOrder groupGen
              (schema.mkResource groupSchema)
              "dlta/r/azurerm_example/resource/azurerm_example.json" (calmWorld ∅)
              eq_refl eq_refl eq_refl eq_refl Habs) as (w' & E & Hf & _).
  exists w'. split; [exact E | exact Hf].
Defined.

Lemma mergeAttributes_lookup_witness :
  AList.lookup "dlta_instance_id"
    (mergeAttributes (getInjectAttributes groupGen)
       [("dlta_instance_id", stringAttribute "azurerm_example.dlta_instance_id")])
  = Some (stringAttribute "azurerm_example.dlta_instance_id").
Proof.
  apply (mergeAttributes_lookup (getInjectAttributes groupGen)
           [("dlta_instance_id", stringAttribute "azurerm_example.dlta_instance_id")]
           "dlta_instance_id").
  - vm_compute. repeat (constructor; [cbn; intuition discriminate|]). constructor.
  - constructor; [intros [] | constructor].
Defined.

(** ** The blocks *)

Lemma emitEachOpt_None {A : Type} (f : string -> A -> option string)
    (m : list (string * A)) (text : string) :
  emitEachOpt f m text = None <-> exists k v, In (k, v) m /\ f k v = None.
Proof.
  revert text. induction m as [|[k v] m IH]; intros text; cbn [emitEachOpt].
  - split; [discriminate | intros (k & v & [] & _)].
  - destruct (f k v) as [t|] eqn:E.
    + rewrite IH. split.
      * intros (k' & v' & Hin & Hf). exists k', v'. split; [now right | exact Hf].
      * intros (k' & v' & [Heq|Hin] & Hf); [|now exists k', v'].
        injection Heq as <- <-. congruence.
    + split; [|reflexivity]. intros _. exists k, v. split; [now left | exact E].
Qed.

(** X16: the local block panics exactly when a top-level block has a field
    called [name] such that [getResourceShortCode] panics on the second
    segment of its resource path.  Nothing else in the block can panic: not
    the top-level [name], not a field of another name. *)
Theorem localText_panics_iff (gen : documentationGenerator)
    (attributes : list (string * attribute)) :
  localText gen attributes = None
  <-> exists n at_ a,
        In (n, at_) attributes /\ IsBlock at_ = true
        /\ In ("name", a) (Attributes at_)
        /\ getResourceShortCode (nth 1 (GoStrings.Split "." (ResourcePath a)) EmptyString)
           = None.
Proof.
  unfold localText.
  destruct (emitEachOpt (localTop gen) attributes ("locals {" +:+ nl)) as [t|] eqn:E.
  - split; [discriminate|]. intros (n & at_ & a & Hin & Hb & Ha & Hs). exfalso.
    assert (Hnone : emitEachOpt (localTop gen) attributes ("locals {" +:+ nl) = None).
    { apply emitEachOpt_None. exists n, at_. split; [exact Hin|].
      unfold localTop. rewrite Hb. apply emitEachOpt_None. exists "name", a.
      split; [exact Ha|]. unfold localSecond. cbn [String.eqb Ascii.eqb Bool.eqb andb].
      now rewrite Hs. }
    congruence.
  - split; [intros _ | reflexivity].
    apply emitEachOpt_None in E as (n & at_ & Hin & Hf). unfold localTop in Hf.
    destruct (IsBlock at_) eqn:Hb; [|discriminate].
    apply emitEachOpt_None in Hf as (k & a & Ha & Hs). unfold localSecond in Hs.
    destruct (String.eqb_spec k "name") as [->|_]; [|discriminate].
    destruct (getResourceShortCode _) eqn:Hc; [discriminate|].
    now exists n, at_, a.
Qed.

Section Blocks.

Context {rt : GoRuntime}.

Lemma outputText_keys (gen : documentationGenerator) (m : list (string * attribute))
    (text : string) :
  emitEach (outputOne gen) m text
  = fold_left (fun t k => t +:+ outputOne gen k attribute_zero) (AList.keys m) text.
Proof.
  unfold emitEach, AList.keys. revert text.
  induction m as [|[k v] m IH]; intros text; [reflexivity|]. cbn [fold_left map fst].
  apply IH.
Qed.

(** X17: the output block does not look at the schema.  For a resolved
    resource it declares the two outputs [id] and [name], in the order in
    which the map is visited; without a resource it is empty.  No system call
    is made. *)
Theorem terraformOutputBlock_two_outputs (gen : documentationGenerator) (w : World) :
  let output k :=
    catStrings ["output "; dq; k; dq; " {"; nl]
    +:+ catStrings [tab; "value = "; resourceName gen; ".this."; k; nl]
    +:+ "}" +:+ nl in
  match resource gen with
  | Some _ =>
      terraformOutputBlock gen w = (Done (output "id" +:+ output "name"), w)
      \/ terraformOutputBlock gen w = (Done (output "name" +:+ output "id"), w)
  | None => terraformOutputBlock gen w = (Done EmptyString, w)
  end.
Proof.
  cbv zeta. unfold terraformOutputBlock. destruct (resource gen) as [r|]; [|reflexivity].
  unfold outputText. rewrite outputText_keys.
  destruct (enumerate_same InOutput
              (getAllOutputAttributes (schema.Schema_ r) attribute_zero false
                 (resourceName gen))) as (visited & Hperm & Hall).
  rewrite (Forall2_keys _ _ Hall).
  assert (Hkeys : Permutation ["id"; "name"] (AList.keys visited)).
  { unfold AList.keys. exact (Permutation_map fst Hperm). }
  apply Permutation_length_2_inv in Hkeys as [-> | ->]; [left | right];
    unfold ret; cbn [fold_left outputOne]; rewrite app_empty_l; reflexivity.
Qed.

End Blocks.

Section Controls.

Context {rt : GoRuntime}.

Lemma translateDataType_plain (terraType : string) :
  translateDataType terraType <> "select"
  /\ translateDataType terraType <> "checkboxes"
  /\ translateDataType terraType <> "checkbox"
  /\ translateDataType terraType <> "textarea".
Proof.
  unfold translateDataType.
  repeat match goal with
         | |- context [String.eqb terraType ?s] => destruct (String.eqb terraType s)
         end; repeat split; discriminate.
Qed.

Lemma selectFrom_options (pp : PaletteProp.t) (opts : list KeyValue.t) :
  opts <> [] ->
  PaletteProp.Type_ (selectFrom pp opts) = "select"
  /\ PaletteProp.Options (selectFrom pp opts) = PaletteProp.Options pp ++ opts.
Proof.
  intros Hne. unfold selectFrom. destruct opts as [|o opts]; [contradiction|].
  cbn. split; reflexivity.
Qed.

Lemma possibleValuesProp_options (pp : PaletteProp.t) (at_ : attribute)
    (selected : option goValue) :
  PaletteProp.Options pp = [] ->
  PaletteProp.Type_ pp <> "select" -> PaletteProp.Type_ pp <> "checkboxes" ->
  let pp' := possibleValuesProp pp at_ selected in
  PaletteProp.Options pp' = options (PossibleValues at_)
  /\ ((PaletteProp.Type_ pp' = "select" \/ PaletteProp.Type_ pp' = "checkboxes") ->
      PossibleValues at_ <> [])
  /\ (PossibleValues at_ <> [] ->
      PaletteProp.Type_ pp' = "select" \/ PaletteProp.Type_ pp' = "checkboxes"
      \/ PaletteProp.Type_ pp' = "checkbox").
Proof.
  intros Ho Hs Hc. cbv zeta. unfold possibleValuesProp.
  destruct (PossibleValues at_) as [|v vs] eqn:Hpv; cbn [length Nat.ltb Nat.leb].
  - destruct (String.eqb (DataTypeString at_) "TypeBool"); cbn; rewrite ?Ho;
      (split; [reflexivity|]);
      (split; [intros [H|H]; first [contradiction | discriminate]
              | intros H; now destruct H]).
  - destruct (String.eqb (DataTypeString at_) (schema.ValueType_String schema.TypeList));
      destruct selected; destruct (String.eqb (DataTypeString at_) "TypeBool");
      cbn; rewrite ?Ho; (split; [reflexivity|]);
      (split; [intros _; discriminate | intros _; tauto]).
Qed.

Lemma coherent_plain (pp : PaletteProp.t) :
  PaletteProp.Options pp = [] ->
  PaletteProp.Type_ pp <> "select" -> PaletteProp.Type_ pp <> "checkboxes" ->
  coherentControl pp.
Proof.
  intros Ho Hs Hc. split.
  - intros [H|H]; contradiction.
  - intros H. now destruct H.
Qed.

Lemma coherent_selectFrom (pp : PaletteProp.t) (opts : list KeyValue.t) :
  opts <> [] -> coherentControl (selectFrom pp opts).
Proof.
  intros Hne. destruct (selectFrom_options pp opts Hne) as [Ht Ho]. split.
  - intros _. rewrite Ho. intros E. apply app_eq_nil in E as [_ E]. contradiction.
  - intros _. now left.
Qed.

Lemma coherent_possibleValuesProp (pp : PaletteProp.t) (at_ : attribute)
    (selected : option goValue) :
  PaletteProp.Options pp = [] ->
  PaletteProp.Type_ pp <> "select" -> PaletteProp.Type_ pp <> "checkboxes" ->
  coherentControl (possibleValuesProp pp at_ selected).
Proof.
  intros Ho Hs Hc.
  destruct (possibleValuesProp_options pp at_ selected Ho Hs Hc) as (Hopts & Hsel & Hpv).
  assert (Hiff : options (PossibleValues at_) <> [] <-> PossibleValues at_ <> []).
  { unfold options. destruct (PossibleValues at_); cbn; split; congruence. }
  split.
  - intros H. rewrite Hopts. apply Hiff. now apply Hsel.
  - intros H. rewrite Hopts in H. apply Hpv. now apply Hiff.
Qed.

Lemma coherent_palletProp (gen : documentationGenerator) (templateBlock : string)
    (at_ : attribute) (name : string) :
  coherentControl (palletProp gen templateBlock at_ name).
Proof.
  pose proof (translateDataType_plain (DataTypeString at_)) as (Hs & Hc & _ & _).
  unfold palletProp.
  destruct (String.eqb name "name").
  { destruct (_ || _).
    - now apply coherent_possibleValuesProp.
    - now apply coherent_plain. }
  repeat match goal with
         | |- coherentControl (if String.eqb name ?s then _ else _) =>
             destruct (String.eqb name s);
             [ first [ apply coherent_selectFrom; discriminate
                     | apply coherent_plain; cbn; first [reflexivity | assumption | discriminate]
                     | destruct (isDataSource gen);
                       apply coherent_plain; cbn; first [reflexivity | discriminate] ]
             | ]
         end.
  now apply coherent_possibleValuesProp.
Qed.

(** X18: every control that [getPalletProp] builds is coherent, whatever
    the attribute and the name: it is a [select] or [checkboxes] only with
    options to choose from, and it carries options only as a [select],
    [checkboxes] or [checkbox].  The function always returns and changes no
    file. *)
Theorem getPalletProp_coherent (gen : documentationGenerator) (at_ : attribute)
    (name : string) (w : World) :
  exists pp w',
    getPalletProp gen at_ name w = (Done pp, w')
    /\ coherentControl pp
    /\ files w' = files w.
Proof.
  unfold getPalletProp. destruct (String.eqb name "dlta_terraform_template").
  - destruct (total_terraformTemplateBlock gen w) as (tb & w' & E).
    unfold bind. rewrite E. exists (palletProp gen tb at_ name), w'.
    split; [reflexivity|]. split; [apply coherent_palletProp|].
    exact (proj1 (reads_terraformTemplateBlock gen w _ _ E)).
  - exists (palletProp gen EmptyString at_ name), w.
    split; [reflexivity|]. split; [apply coherent_palletProp | reflexivity].
Qed.

End Controls.

(** ** The summary, the other way round *)

Lemma reaches_weaken (m m' : list (string * attribute)) (path : list string)
    (along : list attribute) :
  (forall x, In x m -> In x m') -> reaches m path along -> reaches m' path along.
Proof.
  intros Hsub H. destruct H as [m k a Hin | m k a path along Hin Hb Hr].
  - constructor. now apply Hsub.
  - constructor; [now apply Hsub | exact Hb | exact Hr].
Qed.

Lemma wfAttrs_tail (prefix : string) (x : string * attribute) (m : list (string * attribute)) :
  wfAttrs prefix (x :: m) -> wfAttrs prefix m.
Proof.
  intros H. inversion H as [p m' Hnd Hall]; subst. constructor.
  - unfold AList.keys in *. cbn [map] in Hnd. now inversion Hnd.
  - now inversion Hall.
Qed.

(** A key of the summary of a list of entries was in the map before or is
    the path of an attribute that the entries reach. *)
Lemma summarise_keys_list (prefix : string) (m : list (string * attribute)) :
  Forall (fun ka =>
            forall k rn pr ret key,
              is_Some (summariseAttribute k (snd ka) rn pr ret !! key) ->
              is_Some (ret !! key)
              \/ key = ResourcePath (snd ka)
              \/ (IsBlock (snd ka) = true
                  /\ exists path along,
                       reaches (Attributes (snd ka)) path along
                       /\ key = pathString (ResourcePath (snd ka)) path)) m ->
  wfAttrs prefix m ->
  forall rn pr ret key,
    is_Some (fold_left (fun ret '(k, a) => summariseAttribute k a rn pr ret) m ret !! key) ->
    is_Some (ret !! key)
    \/ exists path along, reaches m path along /\ key = pathString prefix path.
Proof.
  induction m as [|[k a] m IH]; intros HP Hwf rn pr ret key Hkey; cbn [fold_left] in Hkey.
  - now left.
  - inversion HP as [|x l Hx Hl]; subst. cbn [snd] in Hx.
    destruct (wfAttrs_inv _ _ Hwf) as [_ Hall].
    destruct (Hall k a (or_introl eq_refl)) as (_ & Hp & _).
    destruct (IH Hl (wfAttrs_tail _ _ _ Hwf) rn pr _ key Hkey)
      as [Hret | (path & along & Hreach & ->)].
    + destruct (Hx k rn pr ret key Hret) as [H | [-> | (Hb & path & along & Hreach & ->)]].
      * now left.
      * right. exists [k], [a]. split; [constructor; now left | now rewrite Hp].
      * right. exists (k :: path), (a :: along). split.
        -- constructor; [now left | exact Hb | exact Hreach].
        -- now rewrite pathString_cons, <- Hp.
    + right. exists path, along. split; [|reflexivity].
      eapply reaches_weaken; [|exact Hreach]. intros x Hin. now right.
Qed.

Lemma summarise_keys_attribute (a : attribute) :
  wfAttrs (ResourcePath a) (Attributes a) ->
  forall k rn pr ret key,
    is_Some (summariseAttribute k a rn pr ret !! key) ->
    is_Some (ret !! key)
    \/ key = ResourcePath a
    \/ (IsBlock a = true
        /\ exists path along,
             reaches (Attributes a) path along /\ key = pathString (ResourcePath a) path).
Proof.
  induction a as [a IH] using attribute_nested_ind. intros Hwf k rn pr ret key Hkey.
  rewrite summariseAttribute_eq in Hkey. cbv zeta in Hkey.
  assert (Hins : forall v, is_Some (<[ResourcePath a := v]> ret !! key) ->
                           is_Some (ret !! key) \/ key = ResourcePath a).
  { intros v H. destruct (String.eqb_spec (ResourcePath a) key) as [E|Hne]; [now right|].
    left. now rewrite lookup_insert_ne in H. }
  destruct (IsBlock a) eqn:Hb.
  - destruct Hkey as [v Hv]. apply lookup_union_Some_raw in Hv as [Hv | [_ Hv]].
    + right. right. split; [reflexivity|].
      rewrite lookup_fmap in Hv.
      destruct (summariseAttributes (Attributes a) (rn +:+ "." +:+ k)
                  (pr && Required a) !! key) as [v0|] eqn:E; [|discriminate].
      destruct (wfAttrs_inv _ _ Hwf) as [_ Hall].
      destruct (summarise_keys_list (ResourcePath a) (Attributes a)) with
        (rn := rn +:+ "." +:+ k) (pr := pr && Required a)
        (ret := (∅ : gmap string summaryAttribute.t)) (key := key) as [Hempty | Hreach].
      * rewrite List.Forall_forall in IH |- *. intros [k' a'] Hin. cbn [snd].
        apply (IH (k', a') Hin). apply (Hall k' a' Hin).
      * exact Hwf.
      * unfold summariseAttributes in E. rewrite E. eauto.
      * rewrite lookup_empty in Hempty. destruct Hempty as [? Hempty]. discriminate.
      * exact Hreach.
    + destruct (Hins _ (ex_intro _ v Hv)) as [H|H]; [now left | right; now left].
  - destruct (Hins _ Hkey) as [H|H]; [now left | right; now left].
Qed.

Lemma summarise_keys (prefix : string) (m : list (string * attribute)) (rn : string)
    (pr : bool) (key : string) :
  wfAttrs prefix m ->
  is_Some (summariseAttributes m rn pr !! key) ->
  exists path along, reaches m path along /\ key = pathString prefix path.
Proof.
  intros Hwf Hkey. destruct (wfAttrs_inv _ _ Hwf) as [_ Hall].
  destruct (summarise_keys_list prefix m) with (rn := rn) (pr := pr)
    (ret := (∅ : gmap string summaryAttribute.t)) (key := key) as [Hempty | Hreach].
  - rewrite List.Forall_forall. intros [k a] Hin. cbn [snd].
    apply summarise_keys_attribute. apply (Hall k a Hin).
  - exact Hwf.
  - exact Hkey.
  - rewrite lookup_empty in Hempty. destruct Hempty as [? Hempty]. discriminate.
  - exact Hreach.
Qed.

Lemma sameEntries_In_rev (m m' : list (string * attribute)) (k : string) (a' : attribute) :
  sameEntries m m' -> In (k, a') m' -> exists a, In (k, a) m /\ sameAttribute a a'.
Proof.
  intros (visited & Hperm & Hall) Hin.
  destruct (Forall2_In_r _ _ _ _ Hall Hin) as ([k0 a] & Hv & Hk & Hs). cbn in Hk, Hs.
  subst k0. exists a. split; [|exact Hs].
  eapply Permutation_in; [symmetry; exact Hperm | exact Hv].
Qed.

Lemma reaches_same_rev (m' : list (string * attribute)) (path : list string)
    (along' : list attribute) :
  reaches m' path along' ->
  forall m, sameEntries m m' -> exists along, reaches m path along.
Proof.
  induction 1 as [m' k a' Hin | m' k a' path along' Hin Hblock Hreach IH]; intros m Hsame.
  - destruct (sameEntries_In_rev _ _ _ _ Hsame Hin) as (a & Ha & _).
    exists [a]. now constructor.
  - destruct (sameEntries_In_rev _ _ _ _ Hsame Hin) as (a & Ha & Hs).
    destruct (sameAttribute_fields _ _ Hs) as (_ & Hb & _ & Hattrs).
    destruct (IH _ Hattrs) as (along & Hreach').
    exists (a :: along). constructor; [exact Ha | congruence | exact Hreach'].
Qed.

Lemma declares_getAllInputAttributes (m : list (string * attribute)) (path : list string)
    (along : list attribute) :
  reaches m path along ->
  forall input parent isChild p,
    m = getAllInputAttributes input parent isChild p ->
    wfFields input ->
    exists fields,
      declares input path fields /\ Forall (fun s => reflected s = true) fields.
Proof.
  induction 1 as [m k a Hin | m k a path along Hin Hblock Hreach IH];
    intros input parent isChild p -> Hwf; destruct (wfFields_inv _ Hwf) as [Hnd Hsub];
    apply getAllInputAttributes_In in Hin; try exact Hnd;
    destruct Hin as (s & Hs & Hr & ->).
  - exists [s]. split; [now constructor | now repeat constructor].
  - destruct (fieldAttribute_eq s p k) as (_ & _ & Hb & Hattrs).
    rewrite Hb in Hblock. unfold isBlock in Hblock.
    destruct (schema.Elem s) as [|t|b|fields] eqn:Helem; try discriminate.
    destruct (Hsub k s Hs) as [_ Hfields].
    destruct (IH fields _ true (p +:+ "." +:+ k) Hattrs (Hfields fields Helem))
      as (below & Hdecl & Hall).
    exists (s :: below). split; [|now constructor].
    econstructor; [exact Hs | exact Helem | exact Hdecl].
Qed.

(** X19: the summary holds nothing else.  Every key of the summary that
    [init] serialises is the resource path of a field that the schema
    declares, the field and every block around it being required or
    optional. *)
Theorem propertySummary_only_declared {rt : GoRuntime}
    (input : list (string * schema.Schema)) (resourceName key : string) :
  wfFields input ->
  is_Some (propertySummary input resourceName !! key) ->
  exists path fields,
    declares input path fields
    /\ Forall (fun s => reflected s = true) fields
    /\ key = pathString resourceName path.
Proof.
  intros Hwf Hkey. unfold propertySummary in Hkey.
  set (m := getAllInputAttributes input attribute_zero false resourceName) in *.
  pose proof (enumerate_same InSummary m) as Hsame.
  assert (Hwfm : wfAttrs resourceName (enumerate InSummary m)).
  { apply (wfAttrs_same _ m); [exact Hsame|]. now apply wfAttrs_getAllInputAttributes. }
  destruct (summarise_keys _ _ _ _ _ Hwfm Hkey) as (path & along' & Hreach' & ->).
  destruct (reaches_same_rev _ _ _ Hreach' _ Hsame) as (along & Hreach).
  destruct (declares_getAllInputAttributes _ _ _ Hreach input attribute_zero false
              resourceName eq_refl Hwf) as (fields & Hdecl & Hall).
  now exists path, fields.
Qed.

Lemma propertySummary_only_declared_witness :
  exists path fields,
    declares settingsSchema path fields
    /\ Forall (fun s => reflected s = true) fields
    /\ "azurerm_example.settings.tier" = pathString "azurerm_example" path.
Proof.
  apply (@propertySummary_only_declared listedOrder settingsSchema "azurerm_example"
           "azurerm_example.settings.tier" wfFields_settingsSchema).
  vm_compute. eauto.
Defined.

(** ** What an entry of the summary records *)

Lemma reaches_nonempty (m : list (string * attribute)) (path : list string)
    (along : list attribute) :
  reaches m path along -> along <> [].
Proof. intros H. destruct H; discriminate. Qed.

Lemma summarise_reaches_entry (m : list (string * attribute)) (path : list string)
    (along : list attribute) :
  reaches m path along ->
  forall prefix rn pr,
    wfAttrs prefix m ->
    exists v,
      summariseAttributes m rn pr !! pathString prefix path = Some v
      /\ summaryAttribute.IsBlock v = IsBlock (List.last along attribute_zero)
      /\ match along with
         | [a] =>
             summaryAttribute.Required v = Required a
             /\ summaryAttribute.Optional v = Optional a
             /\ summaryAttribute.Computed v = Computed a
         | _ =>
             summaryAttribute.Required v = false
             /\ summaryAttribute.Optional v = false
             /\ summaryAttribute.Computed v = false
         end.
Proof.
  induction 1 as [m k a Hin | m k a path along Hin Hblock Hreach IH];
    intros prefix rn pr Hwf.
  - destruct (summarise_entry prefix m k a rn pr (prefix +:+ "." +:+ k) Hwf Hin
                (under_refl _)) as (ret & E & Hret).
    destruct (wfAttrs_inv _ _ Hwf) as [_ Hall]. destruct (Hall k a Hin) as (_ & Hp & Hw).
    cbn [pathString fold_left]. rewrite E, summariseAttribute_eq. cbv zeta.
    rewrite <- Hp.
    assert (Hnested : forall rn' pr',
              summariseAttributes (Attributes a) rn' pr' !! ResourcePath a = None).
    { intros rn' pr'. unfold summariseAttributes.
      rewrite summarise_frame_entries with (prefix := ResourcePath a);
        [apply lookup_empty | exact Hw |].
      intros k' a' _ Hu. exact (under_field_neq _ _ _ Hu eq_refl). }
    exists (summaryAttribute.mk (pr && Required a) (IsBlock a) (Required a) (Optional a)
              (Computed a) EmptyString).
    split; [|now repeat split].
    destruct (IsBlock a).
    + rewrite lookup_union_r by (rewrite lookup_fmap, Hnested; reflexivity).
      apply lookup_insert_eq.
    + apply lookup_insert_eq.
  - rewrite pathString_cons.
    destruct (summarise_entry prefix m k a rn pr
                (pathString (prefix +:+ "." +:+ k) path) Hwf Hin (pathString_under _ _))
      as (ret & E & Hret).
    destruct (wfAttrs_inv _ _ Hwf) as [_ Hall]. destruct (Hall k a Hin) as (_ & Hp & Hw).
    rewrite <- Hp in *.
    destruct (IH (ResourcePath a) (rn +:+ "." +:+ k) (pr && Required a) Hw)
      as (v & Hv & Hb & _).
    rewrite E, summariseAttribute_eq. cbv zeta. rewrite Hblock.
    exists (liftSummary v). split.
    + apply lookup_union_Some_l. now rewrite lookup_fmap, Hv.
    + pose proof (reaches_nonempty _ _ _ Hreach) as Hne.
      destruct along as [|a0 along]; [contradiction|].
      split; [exact Hb | now repeat split].
Qed.

Lemma sameAttribute_copies (a a' : attribute) :
  sameAttribute a a' ->
  Required a' = Required a /\ Optional a' = Optional a /\ Computed a' = Computed a
  /\ IsBlock a' = IsBlock a.
Proof. intros H. destruct H. now repeat split. Qed.

Lemma reaches_same_copies (m : list (string * attribute)) (path : list string)
    (along : list attribute) :
  reaches m path along ->
  forall m', sameEntries m m' ->
  exists along',
    reaches m' path along'
    /\ Forall2 (fun a a' => Required a' = Required a /\ Optional a' = Optional a
                            /\ Computed a' = Computed a /\ IsBlock a' = IsBlock a)
         along along'.
Proof.
  induction 1 as [m k a Hin | m k a path along Hin Hblock Hreach IH]; intros m' Hsame.
  - destruct (sameEntries_In _ _ _ _ Hsame Hin) as (a' & Hin' & Hs).
    exists [a']. split; [now constructor|].
    constructor; [now apply sameAttribute_copies | constructor].
  - destruct (sameEntries_In _ _ _ _ Hsame Hin) as (a' & Hin' & Hs).
    destruct (sameAttribute_fields _ _ Hs) as (_ & Hb & _ & Hattrs).
    destruct (IH _ Hattrs) as (along' & Hreach' & Hall).
    exists (a' :: along'). split.
    + constructor; [exact Hin' | congruence | exact Hreach'].
    + constructor; [now apply sameAttribute_copies | exact Hall].
Qed.

Lemma fieldAttribute_copies (s : schema.Schema) (parentPath fieldName : string) :
  Required (fieldAttribute s parentPath fieldName) = schema.Required s
  /\ Optional (fieldAttribute s parentPath fieldName) = schema.Optional s
  /\ Computed (fieldAttribute s parentPath fieldName) = schema.Computed s
  /\ IsBlock (fieldAttribute s parentPath fieldName) = isBlock s.
Proof.
  destruct s as [ty op rq co fn d ma mi cw vv el].
  destruct el as [|t|b|fields]; cbn; now repeat split.
Qed.

Lemma reaches_getAllInputAttributes_copies (input : list (string * schema.Schema))
    (path : list string) (along : list schema.Schema) :
  declares input path along ->
  forall parent isChild p,
    wfFields input ->
    Forall (fun s => reflected s = true) along ->
    exists along',
      reaches (getAllInputAttributes input parent isChild p) path along'
      /\ Forall2 (fun s a => Required a = schema.Required s
                             /\ Optional a = schema.Optional s
                             /\ Computed a = schema.Computed s
                             /\ IsBlock a = isBlock s) along along'.
Proof.
  induction 1 as [input k s Hin | input fields k s path along Hin Helem Hdecl IH];
    intros parent isChild p Hwf Hall; destruct (wfFields_inv _ Hwf) as [Hnd Hsub];
    inversion Hall as [|s0 l0 Hr Hall']; subst;
    destruct (fieldAttribute_eq s p k) as (_ & _ & Hblock & Hattrs).
  - exists [fieldAttribute s p k]. split.
    + constructor. apply getAllInputAttributes_In; [exact Hnd|]. now exists s.
    + constructor; [apply fieldAttribute_copies | constructor].
  - destruct (Hsub k s Hin) as [_ Hfields].
    destruct (IH (cloneSchemaToAttributes attribute_zero s true p k) true
                 (p +:+ "." +:+ k) (Hfields fields Helem) Hall')
      as (along' & Hreach & Hsame).
    exists (fieldAttribute s p k :: along'). split.
    + constructor.
      * apply getAllInputAttributes_In; [exact Hnd|]. now exists s.
      * rewrite Hblock. unfold isBlock. now rewrite Helem.
      * rewrite Hattrs, Helem. exact Hreach.
    + constructor; [apply fieldAttribute_copies | exact Hsame].
Qed.

Lemma Forall2_last {A B : Type} (R : A -> B -> Prop) (l : list A) (l' : list B)
    (d : A) (d' : B) :
  Forall2 R l l' -> l <> [] -> R (List.last l d) (List.last l' d').
Proof.
  induction 1 as [|x y l l' HR Hall IH]; intros Hne; [contradiction|].
  destruct Hall as [|x' y' l l' HR' Hall]; [exact HR|].
  cbn [List.last]. cbn [List.last] in IH. apply IH. discriminate.
Qed.

(** X20: what an entry records.  The entry of a reflected field says
    whether the field is a block.  For a top-level field it also carries the
    Required, Optional and Computed flags of the schema; for a field inside a
    block the three flags are false, whatever the schema says, because the
    copy into the enclosing summary keeps only Published and IsBlock. *)
Theorem propertySummary_records {rt : GoRuntime}
    (input : list (string * schema.Schema)) (resourceName : string)
    (path : list string) (blocks : list schema.Schema) (s : schema.Schema) :
  wfFields input ->
  declares input path (blocks ++ [s]) ->
  Forall (fun s => reflected s = true) (blocks ++ [s]) ->
  exists v,
    propertySummary input resourceName !! pathString resourceName path = Some v
    /\ summaryAttribute.IsBlock v = isBlock s
    /\ match blocks with
       | [] =>
           summaryAttribute.Required v = schema.Required s
           /\ summaryAttribute.Optional v = schema.Optional s
           /\ summaryAttribute.Computed v = schema.Computed s
       | _ :: _ =>
           summaryAttribute.Required v = false
           /\ summaryAttribute.Optional v = false
           /\ summaryAttribute.Computed v = false
       end.
Proof.
  intros Hwf Hdecl Hall. unfold propertySummary.
  set (m := getAllInputAttributes input attribute_zero false resourceName).
  destruct (reaches_getAllInputAttributes_copies _ _ _ Hdecl attribute_zero false
              resourceName Hwf Hall) as (along1 & Hreach1 & Hsame1).
  fold m in Hreach1.
  pose proof (enumerate_same InSummary m) as Hsame.
  destruct (reaches_same_copies _ _ _ Hreach1 _ Hsame) as (along2 & Hreach2 & Hsame2).
  assert (Hwf2 : wfAttrs resourceName (enumerate InSummary m)).
  { apply (wfAttrs_same _ m); [exact Hsame|]. now apply wfAttrs_getAllInputAttributes. }
  destruct (summarise_reaches_entry _ _ _ Hreach2 resourceName resourceName true Hwf2)
    as (v & Hv & Hb & Hflags).
  exists v. split; [exact Hv|]. split.
  - rewrite Hb.
    assert (Hne : blocks ++ [s] <> []) by (destruct blocks; discriminate).
    pose proof (Forall2_last _ _ _ (leafSchema false false false) attribute_zero
                  Hsame1 Hne) as (_ & _ & _ & H1).
    assert (Hne1 : along1 <> []).
    { intros ->. inversion Hsame1; subst. now apply Hne. }
    pose proof (Forall2_last _ _ _ attribute_zero attribute_zero Hsame2 Hne1)
      as (_ & _ & _ & H2).
    rewrite H2, H1. now rewrite List.last_last.
  - destruct blocks as [|b blocks].
    + cbn [app] in Hsame1. inversion Hsame1 as [|s0 a1 l0 l1 (Hr1 & Ho1 & Hc1 & _) Hnil1];
        subst. inversion Hnil1; subst.
      inversion Hsame2 as [|a0 a2 l0 l2 (Hr2 & Ho2 & Hc2 & _) Hnil2]; subst.
      inversion Hnil2; subst. destruct Hflags as (-> & -> & ->).
      repeat split; congruence.
    + cbn [app] in Hsame1. inversion Hsame1 as [|s0 a1 l0 l1 _ Hrest1]; subst.
      destruct (blocks ++ [s]) as [|s1 rest] eqn:E; [destruct blocks; discriminate|].
      inversion Hrest1 as [|s2 a1' l0' l1' _ Hrest1']; subst.
      inversion Hsame2 as [|a0 a2 l0 l2 _ Hrest2]; subst.
      inversion Hrest2 as [|a0' a2' l0'' l2' _ Hrest2']; subst.
      exact Hflags.
Qed.

Lemma propertySummary_records_witness :
  exists v,
    @propertySummary listedOrder settingsSchema "azurerm_example"
      !! "azurerm_example.settings.name" = Some v
    /\ summaryAttribute.IsBlock v = false
    /\ summaryAttribute.Required v = false
    /\ summaryAttribute.Optional v = false
    /\ summaryAttribute.Computed v = false.
Proof.
  assert (Hdecl : declares settingsSchema ["settings"; "name"]
            ([blockSchema true false false settingsFields] ++ [leafSchema true false false])).
  { apply (declares_below _ settingsFields); [now left | reflexivity |].
    apply declares_here. now left. }
  assert (Hall : Forall (fun s => reflected s = true)
            ([blockSchema true false false settingsFields] ++ [leafSchema true false false])).
  { repeat constructor. }
  exact (@propertySummary_records listedOrder settingsSchema "azurerm_example"
           ["settings"; "name"] [blockSchema true false false settingsFields]
           (leafSchema true false false) wfFields_settingsSchema Hdecl Hall).
Defined.

(** ** The published attributes *)

Lemma AList_insert_fresh {A : Type} (k : string) (v : A) (m : list (string * A)) :
  ~ In k (AList.keys m) -> AList.insert k v m = m ++ [(k, v)].
Proof.
  unfold AList.keys. induction m as [|[k' v'] m IH]; intros Hn; cbn [AList.insert app].
  - reflexivity.
  - cbn [map fst In] in Hn. destruct (String.eqb_spec k k') as [->|Hne]; [tauto|].
    rewrite IH by tauto. reflexivity.
Qed.

Lemma filter_insert_fold (p : attribute -> bool) (h : attribute -> attribute)
    (m acc : list (string * attribute)) :
  List.NoDup (AList.keys acc ++ AList.keys m) ->
  fold_left (fun ret '(k, a) => if p a then AList.insert k (h a) ret else ret) m acc
  = acc ++ map (fun '(k, a) => (k, h a)) (List.filter (fun '(k, a) => p a) m).
Proof.
  unfold AList.keys. revert acc.
  induction m as [|[k a] m IH]; intros acc Hnd; cbn [fold_left List.filter map].
  - now rewrite app_nil_r.
  - cbn [map fst] in Hnd. pose proof (NoDup_remove_2 _ _ _ Hnd) as Hfresh.
    destruct (p a).
    + rewrite AList_insert_fresh by (intros H; apply Hfresh, in_app_iff; now left).
      rewrite IH.
      * cbn [map]. now rewrite <- app_assoc.
      * rewrite map_app. cbn [map fst]. now rewrite <- app_assoc.
    + apply IH. exact (NoDup_remove_1 _ _ _ Hnd).
Qed.

Lemma publishedAttribute_eq (sa : gmap string summaryAttribute.t) (a : attribute) :
  publishedAttribute sa a
  = if IsBlock a
    then setAttributes a
           (fold_left
              (fun temp '(k2, a2) =>
                 if isPublished sa (ResourcePath a2) then AList.insert k2 a2 temp else temp)
              (getAllPublishedAttributes (Attributes a) sa) [])
    else a.
Proof.
  destruct a as [d b ma mi rq op co fn pv po ty attrs df cw rp].
  cbn [publishedAttribute IsBlock Attributes]. destruct b; [|reflexivity].
  f_equal. f_equal. unfold getAllPublishedAttributes.
  generalize (@nil (string * attribute)).
  induction attrs as [|[k a'] l IH]; intros acc; [reflexivity|]. cbn [fold_left]. apply IH.
Qed.

Lemma publishedAttribute_keeps (sa : gmap string summaryAttribute.t) (a : attribute) :
  ResourcePath (publishedAttribute sa a) = ResourcePath a
  /\ IsBlock (publishedAttribute sa a) = IsBlock a
  /\ Required (publishedAttribute sa a) = Required a.
Proof.
  rewrite publishedAttribute_eq. destruct (IsBlock a) eqn:E; now repeat split.
Qed.

Lemma filter_keys_NoDup (p : attribute -> bool) (h : attribute -> attribute)
    (m : list (string * attribute)) :
  List.NoDup (AList.keys m) ->
  List.NoDup (AList.keys (map (fun '(k, a) => (k, h a))
                            (List.filter (fun '(k, a) => p a) m))).
Proof.
  unfold AList.keys. induction m as [|[k a] m IH]; intros Hnd; cbn [List.filter map fst].
  - constructor.
  - inversion Hnd as [|x l Hnotin Hnd']; subst. destruct (p a); [|now apply IH].
    cbn [map fst]. constructor; [|now apply IH].
    intros Hin. apply Hnotin. rewrite map_map in Hin.
    apply in_map_iff in Hin as ([k' a'] & Hk & Hin). cbn in Hk. subst k'.
    apply filter_In in Hin as [Hin _]. change k with (fst (k, a')). now apply in_map.
Qed.

Lemma published_filter (allAttr : list (string * attribute))
    (sa : gmap string summaryAttribute.t) :
  List.NoDup (AList.keys allAttr) ->
  getAllPublishedAttributes allAttr sa
  = map (fun '(k, a) => (k, publishedAttribute sa a))
      (List.filter (fun '(k, a) => isPublished sa (ResourcePath a)) allAttr).
Proof.
  intros Hnd. unfold getAllPublishedAttributes.
  exact (filter_insert_fold (fun a => isPublished sa (ResourcePath a))
           (publishedAttribute sa) allAttr [] Hnd).
Qed.

Lemma published_nested (sa : gmap string summaryAttribute.t) (a : attribute) :
  IsBlock a = true ->
  List.NoDup (AList.keys (Attributes a)) ->
  publishedAttribute sa a
  = setAttributes a (getAllPublishedAttributes (Attributes a) sa).
Proof.
  intros Hb Hnd. rewrite publishedAttribute_eq, Hb. f_equal.
  rewrite (filter_insert_fold (fun a2 => isPublished sa (ResourcePath a2)) (fun a2 => a2)).
  - cbn [app]. rewrite (published_filter _ sa Hnd).
    generalize (Attributes a). intros m.
    induction m as [|[k x] m IH]; [reflexivity|]. cbn [List.filter].
    destruct (isPublished sa (ResourcePath x)) eqn:E; [|exact IH].
    cbn [map List.filter].
    destruct (publishedAttribute_keeps sa x) as (-> & _). rewrite E. cbn [map].
    now rewrite IH.
  - cbn [app AList.keys map]. rewrite (published_filter _ sa Hnd).
    now apply filter_keys_NoDup.
Qed.

(** X21: selecting the published attributes is a filter.  Of a map that
    holds every name once, [getAllPublishedAttributes] keeps, in their order,
    the entries whose resource path the summary marks as published, each
    under its own name; a path the summary does not hold counts as not
    published. *)
Theorem getAllPublishedAttributes_filter (allAttr : list (string * attribute))
    (sa : gmap string summaryAttribute.t) :
  List.NoDup (AList.keys allAttr) ->
  getAllPublishedAttributes allAttr sa
  = map (fun '(k, a) => (k, publishedAttribute sa a))
      (List.filter (fun '(k, a) => isPublished sa (ResourcePath a)) allAttr).
Proof.
  intros Hnd. unfold getAllPublishedAttributes.
  rewrite (filter_insert_fold (fun a => isPublished sa (ResourcePath a))
             (publishedAttribute sa) allAttr [] Hnd).
  reflexivity.
Qed.

(** X22: the second test is never false.  For a block whose map holds
    every name once, the entries that the recursive call returns all pass
    the test [sa[a2.ResourcePath].Published] of the inner loop, so the
    attributes of the published block are exactly what the recursive call
    returned. *)
Theorem publishedAttribute_nested (sa : gmap string summaryAttribute.t) (a : attribute) :
  IsBlock a = true ->
  List.NoDup (AList.keys (Attributes a)) ->
  publishedAttribute sa a
  = setAttributes a (getAllPublishedAttributes (Attributes a) sa).
Proof.
  intros Hb Hnd. rewrite (published_nested sa a Hb Hnd). reflexivity.
Qed.

Lemma groupAttributes_NoDup :
  List.NoDup (AList.keys (getAllInputAttributes groupSchema attribute_zero false
                            "azurerm_example")).
Proof. vm_compute. constructor; [intros [] | constructor]. Qed.

Lemma getAllPublishedAttributes_filter_witness :
  getAllPublishedAttributes
    (getAllInputAttributes groupSchema attribute_zero false "azurerm_example") groupSummary
  = getAllInputAttributes groupSchema attribute_zero false "azurerm_example".
Proof.
  rewrite (getAllPublishedAttributes_filter _ groupSummary
             groupAttributes_NoDup).
  vm_compute. reflexivity.
Defined.

Lemma publishedAttribute_nested_witness :
  publishedAttribute groupSummary
    (setAttributes (mkAttribute EmptyString true 1 0 true false false false [] []
                      "TypeList" [] EmptyString [] "azurerm_example.sku")
       [("tier", stringAttribute "azurerm_example.sku.tier")])
  = setAttributes (mkAttribute EmptyString true 1 0 true false false false [] []
                     "TypeList" [] EmptyString [] "azurerm_example.sku") [].
Proof.
  rewrite publishedAttribute_nested.
  - vm_compute. reflexivity.
  - reflexivity.
  - constructor; [intros [] | constructor].
Defined.

Lemma reaches_published (sa : gmap string summaryAttribute.t)
    (m : list (string * attribute)) (path : list string) (along : list attribute) :
  reaches m path along ->
  forall prefix,
    wfAttrs prefix m ->
    Forall (fun a => isPublished sa (ResourcePath a) = true) along ->
    reaches (getAllPublishedAttributes m sa) path (map (publishedAttribute sa) along).
Proof.
  induction 1 as [m k a Hin | m k a path along Hin Hblock Hreach IH];
    intros prefix Hwf Hall; destruct (wfAttrs_inv _ _ Hwf) as [Hnd Hsub];
    inversion Hall as [|a0 l0 Hpub Hall']; subst;
    assert (Hin' : In (k, publishedAttribute sa a) (getAllPublishedAttributes m sa))
      by (rewrite (published_filter _ sa Hnd); apply in_map_iff; exists (k, a);
          split; [reflexivity | apply filter_In; now split]).
  - cbn [map]. now constructor.
  - destruct (Hsub k a Hin) as (_ & _ & Hw). destruct (wfAttrs_inv _ _ Hw) as [Hnd' _].
    cbn [map]. constructor; [exact Hin' | |].
    + now destruct (publishedAttribute_keeps sa a) as (_ & -> & _).
    + rewrite (published_nested sa a Hblock Hnd').
      replace (Attributes (setAttributes a (getAllPublishedAttributes (Attributes a) sa)))
        with (getAllPublishedAttributes (Attributes a) sa) by (now destruct a).
      now apply (IH _ Hw).
Qed.

Lemma published_reaches (sa : gmap string summaryAttribute.t)
    (m' : list (string * attribute)) (path : list string) (along' : list attribute) :
  reaches m' path along' ->
  forall m prefix,
    m' = getAllPublishedAttributes m sa ->
    wfAttrs prefix m ->
    exists along,
      reaches m path along
      /\ Forall (fun a => isPublished sa (ResourcePath a) = true) along.
Proof.
  induction 1 as [m' k t Hin | m' k t path along' Hin Hblock Hreach IH];
    intros m prefix -> Hwf; destruct (wfAttrs_inv _ _ Hwf) as [Hnd Hsub];
    rewrite (published_filter _ sa Hnd) in Hin;
    apply in_map_iff in Hin as ([k0 a] & E & Hin); injection E as -> <-;
    apply filter_In in Hin as [Hin Hpub].
  - exists [a]. split; [now constructor | now repeat constructor].
  - destruct (Hsub k a Hin) as (_ & _ & Hw). destruct (wfAttrs_inv _ _ Hw) as [Hnd' _].
    destruct (publishedAttribute_keeps sa a) as (_ & Hb & _). rewrite Hb in Hblock.
    destruct (IH (Attributes a) (ResourcePath a)) as (along & Hreach' & Hall).
    + rewrite (published_nested sa a Hblock Hnd'). now destruct a.
    + exact Hw.
    + exists (a :: along). split; [now constructor | now constructor].
Qed.

Lemma published_required (sa : gmap string summaryAttribute.t)
    (m : list (string * attribute)) (path : list string) (along : list attribute) :
  reaches m path along ->
  forall prefix pr,
    wfAttrs prefix m ->
    (forall path' along',
       reaches m path' along' ->
       isPublished sa (pathString prefix path') = pr && forallb Required along') ->
    (Forall (fun a => isPublished sa (ResourcePath a) = true) along
     <-> pr && forallb Required along = true).
Proof.
  induction 1 as [m k a Hin | m k a path along Hin Hblock Hreach IH];
    intros prefix pr Hwf H; destruct (wfAttrs_inv _ _ Hwf) as [_ Hsub];
    destruct (Hsub k a Hin) as (_ & Hp & Hw);
    pose proof (H [k] [a] (reaches_here _ _ _ Hin)) as Hhere;
    cbn [pathString fold_left forallb] in Hhere; rewrite <- Hp, andb_true_r in Hhere.
  - cbn [forallb]. rewrite andb_true_r, <- Hhere. split.
    + intros Hall. now inversion Hall.
    + intros Hpub. now repeat constructor.
  - specialize (IH (ResourcePath a) (pr && Required a) Hw).
    assert (H' : forall path' along',
               reaches (Attributes a) path' along' ->
               isPublished sa (pathString (ResourcePath a) path')
               = pr && Required a && forallb Required along').
    { intros path' along' Hr.
      pose proof (H (k :: path') (a :: along') (reaches_below _ _ _ _ _ Hin Hblock Hr)) as E.
      rewrite pathString_cons, <- Hp in E. cbn [forallb] in E. now rewrite andb_assoc in E. }
    specialize (IH H'). cbn [forallb]. rewrite andb_assoc. split.
    + intros Hall. inversion Hall as [|a0 l0 Hpub Hall']; subst. now apply IH.
    + intros Hreq. constructor; [|now apply IH].
      rewrite Hhere. apply andb_prop in Hreq as [Hreq _]. exact Hreq.
Qed.

Lemma declares_required (m : list (string * attribute)) (path : list string)
    (along : list attribute) :
  reaches m path along ->
  forall input parent isChild p,
    m = getAllInputAttributes input parent isChild p ->
    wfFields input ->
    exists fields,
      declares input path fields
      /\ forallb schema.Required fields = forallb Required along.
Proof.
  induction 1 as [m k a Hin | m k a path along Hin Hblock Hreach IH];
    intros input parent isChild p -> Hwf; destruct (wfFields_inv _ Hwf) as [Hnd Hsub];
    apply getAllInputAttributes_In in Hin; try exact Hnd;
    destruct Hin as (s & Hs & Hr & ->);
    destruct (fieldAttribute_eq s p k) as (_ & Hreq & Hb & Hattrs).
  - exists [s]. split; [now constructor|]. cbn [forallb]. now rewrite Hreq.
  - rewrite Hb in Hblock. unfold isBlock in Hblock.
    destruct (schema.Elem s) as [|t|b|fields] eqn:Helem; try discriminate.
    destruct (Hsub k s Hs) as [_ Hfields].
    destruct (IH fields _ true (p +:+ "." +:+ k) Hattrs (Hfields fields Helem))
      as (below & Hdecl & Hsame).
    exists (s :: below). split.
    + econstructor; [exact Hs | exact Helem | exact Hdecl].
    + cbn [forallb]. now rewrite Hreq, Hsame.
Qed.

Lemma propertySummary_isPublished {rt : GoRuntime}
    (input : list (string * schema.Schema)) (resourceName : string)
    (path : list string) (along : list attribute) :
  wfFields input ->
  reaches (getAllInputAttributes input attribute_zero false resourceName) path along ->
  isPublished (propertySummary input resourceName) (pathString resourceName path)
  = true && forallb Required along.
Proof.
  intros Hwf Hreach. unfold propertySummary.
  set (m := getAllInputAttributes input attribute_zero false resourceName) in *.
  pose proof (enumerate_same InSummary m) as Hsame.
  destruct (reaches_same _ _ _ Hreach _ Hsame) as (along2 & Hreach2 & Hsame2).
  assert (Hwf2 : wfAttrs resourceName (enumerate InSummary m)).
  { apply (wfAttrs_same _ m); [exact Hsame|]. now apply wfAttrs_getAllInputAttributes. }
  destruct (summarise_reaches _ _ _ Hreach2 resourceName resourceName true Hwf2)
    as (v & Hv & Hpub).
  unfold isPublished. rewrite Hv. cbn [from_option id]. now rewrite Hpub, Hsame2.
Qed.

(** X23: from [init] to [scaffold].  When the summary that [init]
    computes is the one [scaffold] selects with, the attributes that reach
    the blocks are the fields that are required together with every block
    around them: an optional field, and everything inside an optional block,
    is left out until the property file is edited. *)
Theorem published_after_init {rt : GoRuntime}
    (input : list (string * schema.Schema)) (resourceName : string)
    (path : list string) :
  wfFields input ->
  ((exists along,
      reaches
        (getAllPublishedAttributes
           (getAllInputAttributes input attribute_zero false resourceName)
           (propertySummary input resourceName)) path along)
   <-> exists fields,
         declares input path fields
         /\ Forall (fun s => schema.Required s = true) fields).
Proof.
  intros Hwf.
  set (m := getAllInputAttributes input attribute_zero false resourceName).
  set (sa := propertySummary input resourceName).
  assert (Hwfm : wfAttrs resourceName m) by now apply wfAttrs_getAllInputAttributes.
  assert (Hsa : forall path' along',
            reaches m path' along' ->
            isPublished sa (pathString resourceName path') = true && forallb Required along')
    by (intros path' along'; now apply propertySummary_isPublished).
  split.
  - intros (along' & Hreach').
    destruct (published_reaches sa _ _ _ Hreach' m resourceName eq_refl Hwfm)
      as (along & Hreach & Hpub).
    apply (published_required sa m path along Hreach resourceName true Hwfm Hsa) in Hpub.
    destruct (declares_required _ _ _ Hreach input attribute_zero false resourceName
                eq_refl Hwf) as (fields & Hdecl & Hsame).
    exists fields. split; [exact Hdecl|].
    cbn [andb] in Hpub. rewrite <- Hsame in Hpub.
    rewrite forallb_forall in Hpub. now rewrite List.Forall_forall.
  - intros (fields & Hdecl & Hreq).
    assert (Hrefl : Forall (fun s => reflected s = true) fields).
    { eapply List.Forall_impl; [|exact Hreq]. intros s Hs. unfold reflected. now rewrite Hs. }
    destruct (reaches_getAllInputAttributes _ _ _ Hdecl attribute_zero false resourceName
                Hwf Hrefl) as (along & Hreach & Hsame).
    fold m in Hreach. exists (map (publishedAttribute sa) along).
    apply (reaches_published sa m path along Hreach resourceName Hwfm).
    apply (published_required sa m path along Hreach resourceName true Hwfm Hsa).
    cbn [andb]. rewrite Hsame. rewrite forallb_forall. now rewrite List.Forall_forall in Hreq.
Qed.

Lemma published_after_init_witness :
  exists along,
    reaches
      (getAllPublishedAttributes
         (getAllInputAttributes settingsSchema attribute_zero false "azurerm_example")
         (@propertySummary listedOrder settingsSchema "azurerm_example"))
      ["settings"; "name"] along.
Proof.
  apply (proj2 (@published_after_init listedOrder settingsSchema "azurerm_example"
                  ["settings"; "name"] wfFields_settingsSchema)).
  exists [blockSchema true false false settingsFields; leafSchema true false false].
  split.
  - apply (declares_below _ settingsFields); [now left | reflexivity |].
    apply declares_here. now left.
  - repeat constructor.
Defined.

(** ** The order of the fields *)

Lemma ascii_compare_refl (c : ascii) : Ascii.compare c c = Eq.
Proof. unfold Ascii.compare. apply N.compare_refl. Qed.

Lemma string_leb_trans (s1 s2 s3 : string) :
  String.leb s1 s2 = true -> String.leb s2 s3 = true -> String.leb s1 s3 = true.
Proof.
  unfold String.leb. revert s2 s3.
  induction s1 as [|c1 s1 IH]; intros [|c2 s2] [|c3 s3]; cbn [String.compare];
    try reflexivity; try discriminate.
  unfold Ascii.compare.
  destruct (N.compare_spec (N_of_ascii c1) (N_of_ascii c2)) as [E12|L12|G12];
    destruct (N.compare_spec (N_of_ascii c2) (N_of_ascii c3)) as [E23|L23|G23];
    try discriminate; intros H12 H23.
  - rewrite E12, E23, N.compare_refl. now apply (IH s2 s3).
  - rewrite E12. now apply N.compare_lt_iff in L23 as ->.
  - rewrite <- E23. now apply N.compare_lt_iff in L12 as ->.
  - assert (L13 : (N_of_ascii c1 < N_of_ascii c3)%N) by lia.
    now apply N.compare_lt_iff in L13 as ->.
Qed.

Lemma insertSorted_sorted (k : string) (l : list string) :
  StronglySorted (fun a b => String.leb a b = true) l ->
  StronglySorted (fun a b => String.leb a b = true) (insertSorted k l).
Proof.
  induction 1 as [|x l Hl IH Hx]; cbn [insertSorted].
  - constructor; constructor.
  - destruct (String.leb k x) eqn:E.
    + constructor; [now constructor|]. constructor; [exact E|].
      eapply List.Forall_impl; [|exact Hx]. intros y Hy. exact (string_leb_trans _ _ _ E Hy).
    + constructor; [exact IH|]. rewrite List.Forall_forall. intros y Hy.
      apply insertSorted_In in Hy as [->|Hy].
      * destruct (String.leb_total k x) as [H|H]; [congruence | exact H].
      * rewrite List.Forall_forall in Hx. now apply Hx.
Qed.

Lemma insertSorted_Permutation (k : string) (l : list string) :
  Permutation (k :: l) (insertSorted k l).
Proof.
  induction l as [|x l IH]; cbn [insertSorted]; [reflexivity|].
  destruct (String.leb k x); [reflexivity|].
  rewrite perm_swap. now constructor.
Qed.

Lemma sortStrings_sorted (l : list string) :
  StronglySorted (fun a b => String.leb a b = true) (sortStrings l).
Proof.
  unfold sortStrings. induction l as [|k l IH]; cbn [fold_right]; [constructor|].
  now apply insertSorted_sorted.
Qed.

Lemma sortStrings_Permutation (l : list string) : Permutation l (sortStrings l).
Proof.
  unfold sortStrings. induction l as [|k l IH]; cbn [fold_right]; [reflexivity|].
  rewrite <- insertSorted_Permutation. now constructor.
Qed.

Lemma sorted_unique (l1 l2 : list string) :
  StronglySorted (fun a b => String.leb a b = true) l1 ->
  StronglySorted (fun a b => String.leb a b = true) l2 ->
  Permutation l1 l2 -> l1 = l2.
Proof.
  intros H1. revert l2. induction H1 as [|x r1 Hr1 IH Hx]; intros l2 H2 Hperm.
  - now apply Permutation_nil in Hperm.
  - destruct H2 as [|y r2 Hr2 Hy]; [now apply Permutation_sym, Permutation_nil in Hperm|].
    assert (Exy : x = y).
    { assert (Hxin : In x (y :: r2)) by (eapply Permutation_in; [exact Hperm | now left]).
      assert (Hyin : In y (x :: r1))
        by (eapply Permutation_in; [symmetry; exact Hperm | now left]).
      destruct Hxin as [E|Hxin]; [now symmetry|].
      destruct Hyin as [E|Hyin]; [exact E|].
      rewrite List.Forall_forall in Hx, Hy.
      apply String.leb_antisym; [now apply Hx | now apply Hy]. }
    subst y. f_equal. apply IH; [exact Hr2|]. exact (Permutation_cons_inv Hperm).
Qed.

(** X24: [sortFields] returns the names of the fields in ascending order
    of their bytes, each name as often as the map holds it. *)
Theorem sortFields_sorted {A : Type} (input : list (string * A)) :
  StronglySorted (fun a b => String.leb a b = true) (sortFields input)
  /\ Permutation (AList.keys input) (sortFields input).
Proof.
  unfold sortFields. split; [apply sortStrings_sorted | apply sortStrings_Permutation].
Qed.

Lemma AList_lookup_Permutation {A : Type} (m m' : list (string * A)) (k : string) :
  List.NoDup (AList.keys m) -> Permutation m m' ->
  AList.lookup k m = AList.lookup k m'.
Proof.
  intros Hnd Hperm.
  assert (Hnd' : List.NoDup (AList.keys m')).
  { unfold AList.keys in *. eapply Permutation_NoDup; [|exact Hnd].
    now apply Permutation_map. }
  destruct (AList.lookup k m) as [v|] eqn:E.
  - symmetry. apply AList_In_lookup; [exact Hnd'|].
    eapply Permutation_in; [exact Hperm|]. now apply AList_lookup_In.
  - destruct (AList.lookup k m') as [v'|] eqn:E'; [|reflexivity].
    apply AList_lookup_In in E'.
    apply (Permutation_in _ (Permutation_sym Hperm)) in E'.
    apply (AList_In_lookup _ _ _ Hnd) in E'. congruence.
Qed.

Lemma fold_left_ext_in {A B : Type} (f g : A -> B -> A) (l : list B) (a : A) :
  (forall a b, f a b = g a b) -> fold_left f l a = fold_left g l a.
Proof.
  intros H. revert a. induction l as [|b l IH]; intros a; [reflexivity|].
  cbn [fold_left]. now rewrite H, IH.
Qed.

(** X25: the attribute map does not depend on the order in which the
    schema map lists its fields, nor on the arguments [parent] and
    [isChild]: the fields are visited in sorted order and the two arguments
    are never read. *)
Theorem getAllInputAttributes_order (input input' : list (string * schema.Schema))
    (parent parent' : attribute) (isChild isChild' : bool) (parentPath : string) :
  List.NoDup (AList.keys input) ->
  Permutation input input' ->
  getAllInputAttributes input parent isChild parentPath
  = getAllInputAttributes input' parent' isChild' parentPath.
Proof.
  intros Hnd Hperm. unfold getAllInputAttributes, collectInputAttributes.
  set (f := fun '(k, s) => (k, (s, fieldAttribute s parentPath k))).
  assert (Hperm' : Permutation (map f input) (map f input')) by now apply Permutation_map.
  assert (Hnd' : List.NoDup (AList.keys (map f input))).
  { subst f. now rewrite reflect_keys. }
  replace (sortFields (map f input')) with (sortFields (map f input)).
  - apply fold_left_ext_in. intros acc k.
    now rewrite (AList_lookup_Permutation _ _ k Hnd' Hperm').
  - unfold sortFields. apply sorted_unique; try apply sortStrings_sorted.
    rewrite <- !sortStrings_Permutation. unfold AList.keys. now apply Permutation_map.
Qed.

Lemma getAllInputAttributes_order_witness :
  getAllInputAttributes identitySchema attribute_zero false "azurerm_example"
  = getAllInputAttributes (rev identitySchema) attribute_zero true "azurerm_example".
Proof.
  apply getAllInputAttributes_order.
  - vm_compute. constructor; [cbn; intuition discriminate|].
    constructor; [intros [] | constructor].
  - apply Permutation_rev.
Defined.

Section ReadingBack.

Context {rt : GoRuntime}.

(** X26: reading the property file.  [readResourceProperties] always
    returns and never changes a file, and what it returns, prints and calls
    is fixed by the files and by the faults of the two system calls it can
    make.  For a special name it does nothing.  When [filepath.Abs] fails it
    prints message 1.  When the [stat] fails it prints the two lines of
    message 2; when the read fails it prints the file error; in all these
    cases the map is empty.  When both succeed, and only then, the map is the
    decoding of the contents of the file, and nothing is printed. *)
Theorem readResourceProperties_outcomes (gen : documentationGenerator) (w : World) :
  exists sa w',
    readResourceProperties gen w = (Done sa, w')
    /\ files w' = files w
    /\ match notSpecial gen, filepath_Abs (propertiesFileName gen) with
       | false, _ => sa = ∅ /\ w' = w
       | true, inr err =>
           sa = ∅ /\ syscalls w' = syscalls w
           /\ stdout w'
              = stdout w ++ [catStrings ["readResourceProperties "; dq; "1. file error"; dq;
                                         ": "; err; nl]]
       | true, inl path =>
           match callResult (faults w) (missing (files w) path) with
           | Some e =>
               sa = ∅
               /\ syscalls w' = syscalls w ++ [(Stat path, Some e)]
               /\ stdout w'
                  = stdout w
                    ++ [catStrings ["readResourceProperties "; dq; "2. File does not exist";
                                    dq; ": "; path; nl];
                        catStrings ["readResourceProperties "; dq;
                                    "2. You may not have run init to create"; dq; ": ";
                                    path; nl]]
           | None =>
               match callResult (tail (faults w)) (missing (files w) path) with
               | Some e =>
                   sa = ∅
                   /\ syscalls w'
                      = syscalls w ++ [(Stat path, None); (ReadFile path, Some e)]
                   /\ stdout w'
                      = stdout w
                        ++ [catStrings ["readResourceProperties "; dq; "file error"; dq;
                                        ": "; error_Error (ReadFile path) e; nl]]
               | None =>
                   sa = json_Unmarshal_summary (default EmptyString (files w !! path))
                   /\ syscalls w' = syscalls w ++ [(Stat path, None); (ReadFile path, None)]
                   /\ stdout w' = stdout w
               end
           end
       end.
Proof.
  unfold readResourceProperties. destruct (notSpecial gen) eqn:Hns.
  2:{ exists ∅, w. now repeat split. }
  destruct (filepath_Abs (propertiesFileName gen)) as [path|err] eqn:Habs.
  2:{ eexists ∅, _. split; [reflexivity|]. now repeat split. }
  destruct w as [fs out fl sc uu]. cbn [faults files stdout syscalls uuids].
  unfold bind at 1. unfold os_Stat, perform. cbn [faults files stdout syscalls uuids].
  unfold missing.
  destruct fl as [|[e|] fl]; cbn [callResult tail].
  - destruct (fs !! path) as [c|] eqn:E; cbn [isNil negb].
    + unfold bind, os_ReadFile, perform. cbn [faults files stdout syscalls uuids].
      rewrite E. eexists _, _. split; [reflexivity|]. cbn [files stdout syscalls].
      rewrite <- app_assoc. now repeat split.
    + eexists ∅, _. split; [reflexivity|]. cbn [files stdout syscalls].
      rewrite <- app_assoc. now repeat split.
  - eexists ∅, _. split; [reflexivity|]. cbn [files stdout syscalls].
    rewrite <- app_assoc. now repeat split.
  - destruct (fs !! path) as [c|] eqn:E; cbn [isNil negb].
    + unfold bind, os_ReadFile, perform. cbn [faults files stdout syscalls uuids].
      destruct fl as [|[e|] fl]; cbn [callResult tail]; rewrite ?E;
        eexists _, _; (split; [reflexivity|]); cbn [files stdout syscalls];
        rewrite <- ?app_assoc; now repeat split.
    + eexists ∅, _. split; [reflexivity|]. cbn [files stdout syscalls].
      rewrite <- app_assoc. now repeat split.
Qed.

End ReadingBack.

(** ** Defaults *)

Lemma AList_insert_In {A : Type} (k : string) (v : A) (m : list (string * A))
    (x : string * A) :
  In x (AList.insert k v m) -> x = (k, v) \/ In x m.
Proof.
  induction m as [|[k' v'] m IH]; cbn [AList.insert In].
  - intros [<-|[]]. now left.
  - destruct (String.eqb k k'); cbn [In].
    + intros [<-|H]; [now left | right; now right].
    + intros [<-|H]; [right; now left|]. destruct (IH H) as [->|H']; [now left | right; now right].
Qed.

Lemma insertAll_In {A : Type} (entries m : list (string * A)) (x : string * A) :
  In x (insertAll entries m) -> In x entries \/ In x m.
Proof.
  unfold insertAll. revert m. induction entries as [|[k v] entries IH]; intros m;
    cbn [fold_left]; [now right|].
  intros H. destruct (IH _ H) as [Hin|Hin]; [left; now right|].
  destruct (AList_insert_In _ _ _ _ Hin) as [->|Hm]; [left; now left | now right].
Qed.

Lemma published_In (sa : gmap string summaryAttribute.t) (m acc : list (string * attribute))
    (x : string * attribute) :
  In x (fold_left
          (fun retAttributes '(k, a) =>
             if isPublished sa (ResourcePath a)
             then AList.insert k (publishedAttribute sa a) retAttributes
             else retAttributes) m acc) ->
  In x acc \/ exists a, In (fst x, a) m /\ snd x = publishedAttribute sa a.
Proof.
  revert acc. induction m as [|[k a] m IH]; intros acc; cbn [fold_left]; [now left|].
  intros H. destruct (IH _ H) as [Hacc | (a' & Hin & E)].
  - destruct (isPublished sa (ResourcePath a)); [|now left].
    destruct (AList_insert_In _ _ _ _ Hacc) as [->|Hm]; [|now left].
    right. exists a. split; [now left | reflexivity].
  - right. exists a'. split; [now right | exact E].
Qed.

Lemma collected_In (fields : list (string * (schema.Schema * attribute)))
    (k : string) (a : attribute) :
  In (k, a) (collectInputAttributes fields) -> exists s, In (k, (s, a)) fields.
Proof.
  intros Hin. apply (AList_In_lookup _ _ _ (collectInputAttributes_NoDup fields)) in Hin.
  unfold collectInputAttributes in Hin.
  destruct (collect_sound _ _ _ _ _ Hin) as [Hnil | (s & Hk & _)]; [discriminate|].
  exists s. now apply AList_lookup_In.
Qed.

Lemma fieldAttribute_Default (s : schema.Schema) (parentPath fieldName : string) :
  Default (fieldAttribute s parentPath fieldName) = EmptyString.
Proof.
  destruct s as [ty op rq co fn d ma mi cw vv el]. destruct el; reflexivity.
Qed.

Lemma publishedAttribute_Default (sa : gmap string summaryAttribute.t) (a : attribute) :
  Default (publishedAttribute sa a) = Default a.
Proof. rewrite publishedAttribute_eq. destruct (IsBlock a); [now destruct a | reflexivity]. Qed.

Lemma getInjectAttributes_Default (gen : documentationGenerator) (x : string * attribute) :
  In x (getInjectAttributes gen) -> Default (snd x) = EmptyString.
Proof.
  unfold getInjectAttributes.
  destruct (String.eqb (resourceName gen) "terraform_azurerm");
    [|destruct (String.eqb (resourceName gen) "devops_pipeline");
      [intros [] | destruct (isDataSource gen)]];
    intros Hin; apply insertAll_In in Hin as [Hin|[]];
    repeat (destruct Hin as [<-|Hin]; [reflexivity|]); destruct Hin.
Qed.

Section Defaults.

Context {rt : GoRuntime}.

(** X27: no attribute has a default.  Whatever the schema, the property
    file and the faults of the system, every attribute that
    [injectAttributes] returns carries the empty [Default], so every variable
    that [terraformVariableBlock] declares consists of its description and
    its type: the line [default = ...] is never written. *)
Theorem injectAttributes_no_default (gen : documentationGenerator) (w : World) :
  exists attributes w',
    injectAttributes gen w = (Done attributes, w')
    /\ Forall (fun na => Default (snd na) = EmptyString) attributes
    /\ Forall (fun na => Default (snd na) = EmptyString) (enumerate InVariable attributes)
    /\ forall name a na,
         In na (enumerate InVariable attributes) ->
         variableDecl name a (snd na)
         = catStrings ["variable "; dq; name; dq; " {"; nl]
           +:+ catStrings [tab; "description = "; dq; Description a; dq; nl]
           +:+ catStrings [tab; "type = "; translateDataType (DataTypeString a); nl]
           +:+ "}" +:+ nl.
Proof.
  destruct (total_injectAttributes gen w) as (attributes & w' & E).
  exists attributes, w'. split; [exact E|].
  assert (Hall : Forall (fun na => Default (snd na) = EmptyString) attributes).
  { unfold injectAttributes, getPublishedAttributes in E.
    rewrite List.Forall_forall. intros x Hx.
    assert (Hpub : forall published,
              (forall y, In y published -> Default (snd y) = EmptyString) ->
              In x (mergeAttributes (getInjectAttributes gen) published) ->
              Default (snd x) = EmptyString).
    { intros published Hp Hin. unfold mergeAttributes in Hin.
      apply insertAll_In in Hin as [Hin|Hin]; [now apply Hp|].
      apply insertAll_In in Hin as [Hin|[]]. now apply getInjectAttributes_Default in Hin. }
    destruct (resource gen) as [r|].
    - unfold bind in E.
      destruct (readResourceProperties gen w) as [[sa|] w1]; [|discriminate].
      unfold ret in E. injection E as <- _. refine (Hpub _ _ Hx).
      intros [k t] Hy. unfold getAllPublishedAttributes in Hy.
      apply published_In in Hy as [[] | (a & Ha & ->)]. cbn [fst snd] in *.
      rewrite publishedAttribute_Default.
      unfold getAllInputAttributes in Ha. apply collected_In in Ha as (s & Hs).
      apply in_map_iff in Hs as ([k' s'] & Heq & _). injection Heq as _ _ <-.
      apply fieldAttribute_Default.
    - unfold bind, ret in E. injection E as <- _.
      refine (Hpub [] _ Hx). intros y []. }
  split; [exact Hall|].
  assert (Hall' : Forall (fun na => Default (snd na) = EmptyString)
                    (enumerate InVariable attributes)).
  { destruct (enumerate_same InVariable attributes) as (visited & Hperm & Hsame).
    rewrite List.Forall_forall in Hall |- *. intros [k a'] Hin.
    destruct (Forall2_In_r _ _ _ _ Hsame Hin) as ([k0 a] & Hv & _ & Hs). cbn in Hs |- *.
    apply (Permutation_in _ (Permutation_sym Hperm)) in Hv.
    specialize (Hall _ Hv). cbn in Hall. destruct Hs. now destruct a. }
  split; [exact Hall'|].
  intros name a na Hin. rewrite List.Forall_forall in Hall'.
  unfold variableDecl. rewrite (Hall' na Hin). cbn [String.eqb].
  rewrite app_empty_l. reflexivity.
Qed.

End Defaults.
